(** * reasoning_gym.algebra.intermediate_integration

    A shallow embedding of [IntermediateIntegrationConfig],
    [IntermediateIntegrationDataset] and [IntermediateIntegrationCurriculum]
    and the properties their specification states.

    Python integers are [Z].  The floats the module computes with (the
    weights, the draws of [random()], the threshold [0.8]) are IEEE 754
    binary64 values with the arithmetic of [SpecFloat], rounding included;
    the two rewards [0.0] and [1.0], which are only returned, are written as
    the rationals [0] and [1].  [dict]s with string keys are
    [gmap string _]; tuples and lists are [list]s.  An exception is a value
    of [exn] and a call that can raise returns a [result].  The two
    collaborators the module imports, [random] and [sympy], are interfaces
    ([RandomSource], [SymPy]): the theorems hold for all their
    implementations, the one on the outer constant for every source that
    keeps the bounds its library documents ([RandomSourceLaws]). *)

From Stdlib Require Import ZArith QArith Reals Lra String Ascii List Lia Bool.
From Stdlib Require Import SpecFloat.
From stdpp Require Import base option gmap strings list fin_maps pretty.

#[local] Set Warnings "-register-all".
#[local] Open Scope string_scope.
#[local] Open Scope Z_scope.

(** ** Exceptions and results *)

Inductive exn : Type :=
| AssertionError (msg : string)
| ValueError (msg : string)
| IndexError (msg : string)
| KeyError (key : string)
| TypeError (msg : string)
| UnboundLocalError (name : string)
| ConfigurationError (msg : string)
| LibraryError (msg : string).

Inductive result (A : Type) : Type :=
| Ok (a : A)
| Raise (e : exn).
Arguments Ok {A} a.
Arguments Raise {A} e.

#[global] Instance result_ret : MRet result := fun A a => Ok a.
#[global] Instance result_bind : MBind result := fun A B f m =>
  match m with
  | Ok a => f a
  | Raise e => Raise e
  end.

(** [try: body / except: handler] with a bare [except], which catches
    everything. *)
Definition try_except {A} (body : result A) (handler : exn -> result A) : result A :=
  match body with
  | Ok a => Ok a
  | Raise e => handler e
  end.

Definition raises {A} (r : result A) : Prop := exists e, r = Raise e.

(** [assert cond, msg] *)
Definition assert (cond : bool) (msg : string) : result unit :=
  if cond then Ok tt else Raise (AssertionError msg).

(** ** Symbolic expressions

    The expression trees the generators hand to sympy, as the source writes
    them.  [Function] is an applied function of sympy's namespace
    ([sympy.exp], [sympy.sqrt], ...); [UndefinedFunction] is
    [sympy.Function(name)(arg)]. *)

Inductive Expr : Type :=
| Symbol (name : string)
| Integer (z : Z)
| Add (a b : Expr)
| Sub (a b : Expr)
| Mul (a b : Expr)
| Pow (base exponent : Expr)
| Function (f : string) (arg : Expr)
| UndefinedFunction (f : string) (arg : Expr).

#[global] Instance Expr_eq_dec : EqDecision Expr.
Proof. solve_decision. Defined.

(** ** Floats

    A Python [float] is an IEEE 754 binary64 value: [spec_float] at
    precision 53 and maximal exponent 1024.  Sums and products round to
    nearest, ties to even, and overflow to an infinity, as [SFadd] and
    [SFmul] specify. *)

Definition float : Type := spec_float.

(** [x + y] *)
Definition float_add : float -> float -> float := SFadd 53 1024.

(** [x * y] *)
Definition float_mul : float -> float -> float := SFmul 53 1024.

(** [x < y] and [x <= y]; both are false when an operand is NaN *)
Definition float_lt : float -> float -> bool := SFltb.
Definition float_le : float -> float -> bool := SFleb.

(** [math.isfinite(x)] *)
Definition isfinite (x : float) : bool :=
  match x with
  | S754_zero _ | S754_finite _ _ _ => true
  | S754_infinity _ | S754_nan => false
  end.

(** [float(z)] for an integer [z], and [m * 2**e] rounded to a float *)
Definition float_of_int (z : Z) : float := binary_normalize 53 1024 z 0 false.
Definition float_scaled (m e : Z) : float := binary_normalize 53 1024 m e false.

(** the literals [0.0], [1.0], [0.125] and [0.8] *)
Definition float_0 : float := S754_zero false.
Definition float_1 : float := Eval vm_compute in float_of_int 1.
Definition float_0_125 : float := Eval vm_compute in float_scaled 1 (-3).
Definition float_0_8 : float :=
  Eval vm_compute in float_scaled 3602879701896397 (-52).

(** a finite float of [[0.0, 1.0)], what [random()] returns *)
Definition unit_float (u : float) : Prop :=
  valid_binary 53 1024 u = true
  /\ float_le float_0 u = true
  /\ float_lt u float_1 = true.

(** ** Python values *)

Inductive object : Type :=
| PyNone
| PyInt (z : Z)
| PyFloat (f : float)
| PyStr (s : string)
| PyExpr (e : Expr)
| PyList (l : list object)
| PyDict (d : gmap string object).

(** [obj[key]] for a string key *)
Definition subscript (obj : object) (key : string) : result object :=
  match obj with
  | PyDict d =>
      match d !! key with
      | Some v => Ok v
      | None => Raise (KeyError key)
      end
  | PyStr _ | PyList _ => Raise (TypeError "indices must be integers")
  | _ => Raise (TypeError "object is not subscriptable")
  end.

(** Casts of an object to the type a call or a configuration field wants:
    [sympy.Symbol] and [parse_expr] want a string; a level value of another
    shape than the annotation of the field it overrides has no place in the
    typed configuration record.  Both are reported as a [TypeError]. *)
Definition as_int (v : object) : result Z :=
  match v with
  | PyInt z => Ok z
  | _ => Raise (TypeError "int expected")
  end.

Definition as_float (v : object) : result float :=
  match v with
  | PyInt z => Ok (float_of_int z)
  | PyFloat f => Ok f
  | _ => Raise (TypeError "number expected")
  end.

Definition as_str (v : object) : result string :=
  match v with
  | PyStr s => Ok s
  | _ => Raise (TypeError "str expected")
  end.

Definition as_list {A} (elem : object -> result A) (v : object) : result (list A) :=
  match v with
  | PyList l => mapM elem l
  | _ => Raise (TypeError "sequence expected")
  end.

Definition as_optional_int (v : object) : result (option Z) :=
  match v with
  | PyNone => Ok None
  | PyInt z => Ok (Some z)
  | _ => Raise (TypeError "Optional[int] expected")
  end.

(** ** IntermediateIntegrationConfig *)

Record IntermediateIntegrationConfig : Type := {
  problem_types : list string;
  problem_type_weights : list float;
  seed : option Z;
  size : Z;
  linear_lower_bound : Z;
  linear_upper_bound : Z;
  min_linear_degree : Z;
  max_linear_degree : Z;
  outer_constant_min : Z;
  outer_constant_max : Z;
  min_poly_degree : Z;
  max_poly_degree : Z;
  symbols : list string;
  operators : list string
}.

Definition default_problem_types : list string :=
  ["linear"; "radical"; "log_inverse_trig"; "trigonometric";
   "polynomial_exp_trig"; "exponential"; "cyclic"; "repeated_parts"].

(** The dataclass defaults.  [symbols] defaults to the string ["x"], whose
    elements are its one-character strings. *)
Definition default_config : IntermediateIntegrationConfig := {|
  problem_types := default_problem_types;
  problem_type_weights := List.repeat float_0_125 8;
  seed := None;
  size := 500;
  linear_lower_bound := 1;
  linear_upper_bound := 10;
  min_linear_degree := 2;
  max_linear_degree := 4;
  outer_constant_min := 1;
  outer_constant_max := 3;
  min_poly_degree := 1;
  max_poly_degree := 3;
  symbols := ["x"];
  operators := ["+"; "-"]
|}.

(** [IntermediateIntegrationConfig(size=n)], [(seed=s)], ...: the defaults
    with one field given, and likewise for a configuration at hand *)
Definition with_size (c : IntermediateIntegrationConfig) (n : Z)
    : IntermediateIntegrationConfig :=
  {| problem_types := problem_types c;
     problem_type_weights := problem_type_weights c;
     seed := seed c; size := n;
     linear_lower_bound := linear_lower_bound c;
     linear_upper_bound := linear_upper_bound c;
     min_linear_degree := min_linear_degree c;
     max_linear_degree := max_linear_degree c;
     outer_constant_min := outer_constant_min c;
     outer_constant_max := outer_constant_max c;
     min_poly_degree := min_poly_degree c;
     max_poly_degree := max_poly_degree c;
     symbols := symbols c; operators := operators c |}.

Definition with_seed (c : IntermediateIntegrationConfig) (s : option Z)
    : IntermediateIntegrationConfig :=
  {| problem_types := problem_types c;
     problem_type_weights := problem_type_weights c;
     seed := s; size := size c;
     linear_lower_bound := linear_lower_bound c;
     linear_upper_bound := linear_upper_bound c;
     min_linear_degree := min_linear_degree c;
     max_linear_degree := max_linear_degree c;
     outer_constant_min := outer_constant_min c;
     outer_constant_max := outer_constant_max c;
     min_poly_degree := min_poly_degree c;
     max_poly_degree := max_poly_degree c;
     symbols := symbols c; operators := operators c |}.

Definition with_problem_types (c : IntermediateIntegrationConfig) (types : list string)
    : IntermediateIntegrationConfig :=
  {| problem_types := types;
     problem_type_weights := problem_type_weights c;
     seed := seed c; size := size c;
     linear_lower_bound := linear_lower_bound c;
     linear_upper_bound := linear_upper_bound c;
     min_linear_degree := min_linear_degree c;
     max_linear_degree := max_linear_degree c;
     outer_constant_min := outer_constant_min c;
     outer_constant_max := outer_constant_max c;
     min_poly_degree := min_poly_degree c;
     max_poly_degree := max_poly_degree c;
     symbols := symbols c; operators := operators c |}.

Definition with_operators (c : IntermediateIntegrationConfig) (ops : list string)
    : IntermediateIntegrationConfig :=
  {| problem_types := problem_types c;
     problem_type_weights := problem_type_weights c;
     seed := seed c; size := size c;
     linear_lower_bound := linear_lower_bound c;
     linear_upper_bound := linear_upper_bound c;
     min_linear_degree := min_linear_degree c;
     max_linear_degree := max_linear_degree c;
     outer_constant_min := outer_constant_min c;
     outer_constant_max := outer_constant_max c;
     min_poly_degree := min_poly_degree c;
     max_poly_degree := max_poly_degree c;
     symbols := symbols c; operators := ops |}.

(** [x in seq] on strings *)
Definition str_in (x : string) (seq : list string) : bool :=
  existsb (String.eqb x) seq.

Definition validate (self : IntermediateIntegrationConfig) : result unit :=
  _ ← assert (length (problem_types self) =? length (problem_type_weights self))%nat
        "problem_types and problem_type_weights must have the same length";
  _ ← assert (0 <? size self) "size must be positive";
  _ ← assert (0 <? linear_lower_bound self) "linear_lower_bound must be positive";
  _ ← assert (linear_lower_bound self <=? linear_upper_bound self)
        "linear_upper_bound must be >= linear_lower_bound";
  _ ← assert (0 <? min_linear_degree self) "min_linear_degree must be positive";
  _ ← assert (min_linear_degree self <=? max_linear_degree self)
        "max_linear_degree must be >= min_linear_degree";
  _ ← assert (0 <? outer_constant_min self) "outer_constant_min must be positive";
  _ ← assert (outer_constant_min self <=? outer_constant_max self)
        "outer_constant_max must be >= outer_constant_min";
  _ ← assert (0 <? min_poly_degree self) "min_poly_degree must be positive";
  _ ← assert (min_poly_degree self <=? max_poly_degree self)
        "max_poly_degree must be >= min_poly_degree";
  _ ← assert (forallb (fun op => str_in op ["+"; "-"]) (operators self))
        "invalid operator specified";
  assert (forallb (fun symbols => str_in symbols ["x"; "X"]) (symbols self))
        "invalid symbol specified".

(** ** Sequences

    [seq[i]] with Python's indexing: a negative index counts from the end,
    an index out of range raises [IndexError]. *)
Definition list_getitem {A} (seq : list A) (i : Z) : result A :=
  let n := Z.of_nat (length seq) in
  let j := if i <? 0 then i + n else i in
  if (0 <=? j) && (j <? n) then
    match seq !! Z.to_nat j with
    | Some a => Ok a
    | None => Raise (IndexError "list index out of range")
    end
  else Raise (IndexError "list index out of range").

(** ** The random module

    [random.Random] is taken through its two primitive draws, [_randbelow]
    and [random]; [randint], [choice] and [choices] are the module's own
    definitions on top of them. *)

Class RandomSource : Type := {
  rng_state : Type;
  (** the state of [random.Random(seed)] *)
  Random : Z -> rng_state;
  (** [_randbelow(n)] for [n > 0]: the draw and the state after it *)
  randbelow : Z -> rng_state -> Z * rng_state;
  (** [random()]: the draw and the state after it *)
  random : rng_state -> float * rng_state
}.

(** What the library documents of the two draws. *)
Class RandomSourceLaws (R : RandomSource) : Prop := {
  randbelow_range : forall n s, 0 < n -> 0 <= fst (randbelow n s) < n;
  random_range : forall s, unit_float (fst (random s))
}.

(** A computation that draws from a generator and may raise. *)
Definition rand `{RandomSource} (A : Type) : Type :=
  rng_state -> result (A * rng_state).

#[global] Instance rand_ret `{RandomSource} : MRet rand :=
  fun A a s => Ok (a, s).
#[global] Instance rand_bind `{RandomSource} : MBind rand := fun A B f m s =>
  match m s with
  | Ok (a, s') => f a s'
  | Raise e => Raise e
  end.

Definition lift `{RandomSource} {A} (r : result A) : rand A := fun s =>
  match r with
  | Ok a => Ok (a, s)
  | Raise e => Raise e
  end.

Definition draw `{RandomSource} {A} (f : rng_state -> A * rng_state) : rand A :=
  fun s => Ok (f s).

(** [itertools.accumulate(weights)] *)
Fixpoint accumulate_from (total : float) (weights : list float) : list float :=
  match weights with
  | [] => []
  | w :: rest =>
      let total' := float_add total w in total' :: accumulate_from total' rest
  end.

Definition accumulate (weights : list float) : list float :=
  match weights with
  | [] => []
  | w :: rest => w :: accumulate_from w rest
  end.

(** [bisect.bisect_right(a, x, lo, hi)]: the loop
    [while lo < hi: mid = (lo + hi) // 2; if x < a[mid]: hi = mid else: lo = mid + 1].
    Every round shrinks [hi - lo], so [hi - lo] rounds are enough
    ([bisect_loop_rounds] below); [choices] calls it with
    [0 <= lo <= hi < len(a)], where [a[mid]] is in range. *)
Fixpoint bisect_loop (rounds : nat) (a : list float) (x : float) (lo hi : Z) : Z :=
  if lo <? hi then
    match rounds with
    | O => lo
    | S rounds' =>
        let mid := (lo + hi) / 2 in
        if float_lt x (nth (Z.to_nat mid) a float_0)
        then bisect_loop rounds' a x lo mid
        else bisect_loop rounds' a x (mid + 1) hi
    end
  else lo.

Definition bisect (a : list float) (x : float) (lo hi : Z) : Z :=
  bisect_loop (Z.to_nat (hi - lo)) a x lo hi.

Section RandomModule.
Context `{RandomSource}.

Definition randrange (start stop : Z) : rand Z :=
  let width := stop - start in
  if 0 <? width then
    r ← draw (randbelow width); mret (start + r)
  else lift (Raise (ValueError "empty range for randrange()")).

Definition randint (a b : Z) : rand Z := randrange a (b + 1).

Definition choice {A} (seq : list A) : rand A :=
  if (length seq =? 0)%nat then
    lift (Raise (IndexError "Cannot choose from an empty sequence"))
  else
    i ← draw (randbelow (Z.of_nat (length seq))); lift (list_getitem seq i).

(** the list comprehension of [choices], run [k] times *)
Fixpoint choices_draws {A} (population : list A) (cum_weights : list float)
    (total : float) (hi : Z) (k : nat) : rand (list A) :=
  match k with
  | O => mret []
  | S k' =>
      u ← draw random;
      a ← lift (list_getitem population
                  (bisect cum_weights (float_mul u total) 0 hi));
      rest ← choices_draws population cum_weights total hi k';
      mret (a :: rest)
  end.

(** [choices(population, weights=weights, k=k)] for a list of float
    weights: the running sums are float sums,
    [total = cum_weights[-1] + 0.0], and the two checks of the total come
    before the draws. *)
Definition choices {A} (population : list A) (weights : list float) (k : nat)
    : rand (list A) :=
  let n := length population in
  let cum_weights := accumulate weights in
  if negb (length cum_weights =? n)%nat then
    lift (Raise (ValueError "The number of weights does not match the population"))
  else
    last ← lift (list_getitem cum_weights (-1));
    let total := float_add last float_0 in
    if float_le total float_0 then
      lift (Raise (ValueError "Total of weights must be greater than zero"))
    else if negb (isfinite total) then
      lift (Raise (ValueError "Total of weights must be finite"))
    else
      choices_draws population cum_weights total (Z.of_nat n - 1) k.
End RandomModule.

(** ** sympy

    The symbolic engine is used through five calls.  Each but [str] may
    raise; an exception raised inside the library, of whatever class, is
    [inl] of its message and reaches the caller as a [LibraryError]. *)
Class SymPy : Type := {
  sympy_integrate : Expr -> Expr -> string + Expr;
  sympy_str : Expr -> string;
  sympy_parse_expr : string -> gmap string Expr -> string + Expr;
  sympy_diff : Expr -> Expr -> string + Expr;
  sympy_simplify : Expr -> string + Expr
}.

Definition call {A} (r : string + A) : result A :=
  match r with
  | inl msg => Raise (LibraryError msg)
  | inr a => Ok a
  end.

Section SymPyCalls.
Context `{SymPy}.

(** [sympy.integrate(f, x)] *)
Definition integrate (f x : Expr) : result Expr := call (sympy_integrate f x).
(** [str(expr)] *)
Definition str (e : Expr) : string := sympy_str e.
(** [sympy.parse_expr(s, local_dict=d)] *)
Definition parse_expr (s : string) (local_dict : gmap string Expr) : result Expr :=
  call (sympy_parse_expr s local_dict).
(** [sympy.diff(expr, x)] *)
Definition diff (e x : Expr) : result Expr := call (sympy_diff e x).
(** [sympy.simplify(expr)] *)
Definition simplify (e : Expr) : result Expr := call (sympy_simplify e).
End SymPyCalls.

(** A Python operand of [*]: an [int] or a sympy expression.  [int * int]
    is integer multiplication, anything else builds a [Mul]. *)
Inductive operand : Type :=
| IntOperand (z : Z)
| ExprOperand (e : Expr).

Definition sympify (v : operand) : Expr :=
  match v with
  | IntOperand z => Integer z
  | ExprOperand e => e
  end.

Definition py_mul (a b : operand) : operand :=
  match a, b with
  | IntOperand x, IntOperand y => IntOperand (x * y)
  | _, _ => ExprOperand (Mul (sympify a) (sympify b))
  end.

(** [template.format(field=val)] with [val] already a string: every
    [{field}] of the template is replaced. *)
Fixpoint format_field (field val : string) (skip : nat) (template : string) : string :=
  match template with
  | EmptyString => EmptyString
  | String c rest =>
      match skip with
      | S skip' => format_field field val skip' rest
      | O =>
          if String.prefix (String.append "{" (String.append field "}")) template
          then String.append val (format_field field val (String.length field + 1) rest)
          else String c (format_field field val O rest)
      end
  end.

Definition format (template field val : string) : string :=
  format_field field val O template.

(** a local variable that is read: unbound when no branch assigned it *)
Definition local {A} (name : string) (v : option A) : result A :=
  match v with
  | Some a => Ok a
  | None => Raise (UnboundLocalError name)
  end.

(** ** IntermediateIntegrationDataset *)

Record IntermediateIntegrationDataset : Type := {
  config : IntermediateIntegrationConfig;
  self_seed : Z;
  self_size : Z;
  prompt_template : list string;
  added_instruction : string
}.

(** Modelled from the spec: [ProceduralDataset.__init__] (the base class of
    [reasoning_gym.factory] is not among the sources).  Construction fails
    with a ConfigurationError if [validate()] raises; the base seed falls
    back to a process-derived random seed, here [process_seed], if unset. *)
Definition ProceduralDataset_init (config : IntermediateIntegrationConfig)
    (seed : option Z) (size : Z) (process_seed : Z)
    : result (IntermediateIntegrationConfig * Z * Z) :=
  match validate config with
  | Raise (AssertionError msg) => Raise (ConfigurationError msg)
  | Raise e => Raise e
  | Ok _ => Ok (config, default process_seed seed, size)
  end.

(** the two attributes [__init__] sets *)
Definition prompt_templates : list string :=
  ["Find the indefinite integral: ∫ {integrand} dx";
   "Calculate the antiderivative: ∫ {integrand} dx";
   "Evaluate the indefinite integral: ∫ {integrand} dx"].

Definition instruction : string := "
When performing calculations, please follow these guidelines:
Use same variable symbols as given in the question
1. Use ** instead of ^ to represent exponents. For example, write 7*X**2 instead of 7*X^2.
2. Always include the * symbol for all multiplication operations in your reasoning steps. For example, write `-3*X**3*sin(X) - 9*X**2*cos(X) + 18*X*sin(X) + 18*cos(X) + C` instead of `-3x3sin(x) - 9x2cos(x) + 18xsin(x) + 18cos(x) + C`.
3. Use `exp(x)` or `E**(x)` for the exponential function (i.e. use capital E for Euler's number).
".

Definition IntermediateIntegrationDataset_init (config : IntermediateIntegrationConfig)
    (process_seed : Z) : result IntermediateIntegrationDataset :=
  '(config, seed, size) ← ProceduralDataset_init config (seed config) (size config) process_seed;
  mret {|
    config := config;
    self_seed := seed;
    self_size := size;
    prompt_template := prompt_templates;
    added_instruction := instruction
  |}.

(** Modelled from the spec: [ProceduralDataset.__len__] returns [size]. *)
Definition len (self : IntermediateIntegrationDataset) : Z := self_size self.

Section Generators.
Context `{RandomSource} `{SymPy}.
Variable self : IntermediateIntegrationDataset.

(** Helper to generate signed outer constant from config *)
Definition _get_outer_constant : rand Z :=
  value ← randint (outer_constant_min (config self)) (outer_constant_max (config self));
  op ← choice (operators (config self));
  mret (if String.eqb op "-" then - value else value).

(** the expression
    [(-1 if rng.choice(operators) == "-" else 1) * rng.randint(linear_lower_bound, linear_upper_bound)] *)
Definition signed_coefficient : rand Z :=
  op ← choice (operators (config self));
  value ← randint (linear_lower_bound (config self)) (linear_upper_bound (config self));
  mret ((if String.eqb op "-" then -1 else 1) * value).

(** Generate a linear substitution problem with outer constant *)
Definition _generate_linear_substitution_problem (x : Expr) : rand Expr :=
  a ← randint (linear_lower_bound (config self)) (linear_upper_bound (config self));
  b ← randint (linear_lower_bound (config self)) (linear_upper_bound (config self));
  op ← choice (operators (config self));
  let linear_function :=
    Add (Mul (Integer a) x) (Integer (if String.eqb op "+" then b else - b)) in
  degree ← randint (min_linear_degree (config self)) (max_linear_degree (config self));
  c ← _get_outer_constant;
  mret (Mul (Integer c) (Pow linear_function (Integer degree))).

(** [[... for _ in range(num_terms)]] *)
Fixpoint signed_terms (num_terms : nat) : rand (list Z) :=
  match num_terms with
  | O => mret []
  | S n =>
      t ← signed_coefficient;
      rest ← signed_terms n;
      mret (t :: rest)
  end.

(** Generate exponential substitution problem with outer constant *)
Definition _generate_exponential_substitution (x : Expr) : rand Expr :=
  exponent_type ← choice ["linear"; "quadratic"];
  let num_terms := if String.eqb exponent_type "linear" then 2%nat else 3%nat in
  terms ← signed_terms num_terms;
  '(u, du_dx) ←
    (if String.eqb exponent_type "linear" then
       t0 ← lift (list_getitem terms 0);
       t1 ← lift (list_getitem terms 1);
       mret (Add (Mul (Integer t0) x) (Integer t1), IntOperand t0)
     else
       t0 ← lift (list_getitem terms 0);
       t1 ← lift (list_getitem terms 1);
       t2 ← lift (list_getitem terms 2);
       mret (Add (Add (Mul (Integer t0) (Pow x (Integer 2))) (Mul (Integer t1) x))
                 (Integer t2),
             ExprOperand (Add (Mul (Integer (2 * t0)) x) (Integer t1))));
  c ← _get_outer_constant;
  mret (sympify (py_mul (py_mul (IntOperand c) du_dx)
                        (ExprOperand (Function "exp" u)))).

(** Generate radical substitution problem with outer constant *)
Definition _generate_radical_substitution (x : Expr) : rand Expr :=
  a ← signed_coefficient;
  b ← signed_coefficient;
  let u := Add (Mul (Integer a) x) (Integer b) in
  let derivative := a in
  let integrand := Mul (Integer derivative) (Function "sqrt" u) in
  c ← _get_outer_constant;
  mret (Mul (Integer c) integrand).

(** Generate trigonometric substitution with outer constant *)
Definition _generate_trigonometric_substitution (x : Expr) : rand Expr :=
  trig_func ← choice ["sin"; "cos"];
  a ← signed_coefficient;
  b ← signed_coefficient;
  let inner := Add (Mul (Integer a) x) (Integer b) in
  power ← randint 1 4;
  let integrand :=
    if String.eqb trig_func "sin" then
      Mul (Mul (Integer a) (Function "cos" inner))
          (Pow (Function "sin" inner) (Integer power))
    else
      Mul (Mul (Integer (- a)) (Function "sin" inner))
          (Pow (Function "cos" inner) (Integer power)) in
  c ← _get_outer_constant;
  mret (Mul (Integer c) integrand).

(** Generate polynomial x exponential/trigonometric integrand *)
Definition _generate_polynomial_exp_trig (x : Expr) : rand Expr :=
  poly_degree ← randint (min_poly_degree (config self)) (max_poly_degree (config self));
  func_type ← choice ["exp"; "sin"; "cos"];
  transcendental ←
    (if String.eqb func_type "exp" then mret (Function "exp" x)
     else
       coefficient ← randint 1 3;
       mret (UndefinedFunction func_type (Mul (Integer coefficient) x)));
  let polynomial := Pow x (Integer poly_degree) in
  let integrand := Mul polynomial transcendental in
  c ← _get_outer_constant;
  mret (Mul (Integer c) integrand).

(** Generate logarithmic or inverse trigonometric integrand *)
Definition _generate_log_inverse_trig (x : Expr) : rand Expr :=
  func_type ← choice ["log"; "asin"; "atan"];
  coefficient ← randint 1 3;
  func ←
    (if String.eqb func_type "log" then
       u ← draw random;
       log_arg ← (if float_lt u float_0_8 then mret x
                  else e ← randint 2 3; mret (Pow x (Integer e)));
       mret (Some (Function "log" log_arg))
     else if String.eqb func_type "asin" then
       let inner_coef := coefficient in
       mret (Some (Function "asin" (Mul (Integer inner_coef) x)))
     else if String.eqb func_type "atan" then
       let inner_coef := coefficient in
       mret (Some (Function "atan" (Mul (Integer inner_coef) x)))
     else mret None);
  c ← _get_outer_constant;
  func ← lift (local "func" func);
  mret (Mul (Integer c) func).

(** Generate cyclic integral (e.g., e^x * sinx) *)
Definition _generate_cyclic_integral (x : Expr) : rand Expr :=
  func_pair ← choice [(Function "exp" x, Function "sin" x);
                      (Function "exp" x, Function "cos" x);
                      (Function "sin" x, Function "cos" x)];
  let integrand := Mul (fst func_pair) (snd func_pair) in
  c ← _get_outer_constant;
  mret (Mul (Integer c) integrand).

(** Generate problem requiring multiple integration by parts *)
Definition _generate_repeated_parts (x : Expr) : rand Expr :=
  poly_degree ← randint 3 (max_poly_degree (config self));
  transcendental ← choice [Function "sin" x; Function "cos" x; Function "exp" x];
  let integrand := Mul (Pow x (Integer poly_degree)) transcendental in
  c ← _get_outer_constant;
  mret (Mul (Integer c) integrand).
End Generators.

(** a dict display [{k: v, ...}] *)
Definition dict (items : list (string * object)) : object :=
  PyDict (list_to_map items).

Section Dataset.
Context `{RandomSource} `{SymPy}.

Definition assigned {A} (m : rand A) : rand (option A) :=
  a ← m; mret (Some a).

(** the [if]/[elif] chain of [__getitem__]: [integrand] afterwards, unbound
    ([None]) when no branch was taken *)
Definition dispatch (self : IntermediateIntegrationDataset) (problem_type : string)
    (x : Expr) : rand (option Expr) :=
  if String.eqb problem_type "linear" then
    assigned (_generate_linear_substitution_problem self x)
  else if String.eqb problem_type "trigonometric" then
    assigned (_generate_trigonometric_substitution self x)
  else if String.eqb problem_type "exponential" then
    assigned (_generate_exponential_substitution self x)
  else if String.eqb problem_type "radical" then
    assigned (_generate_radical_substitution self x)
  else if String.eqb problem_type "log_inverse_trig" then
    assigned (_generate_log_inverse_trig self x)
  else if String.eqb problem_type "polynomial_exp_trig" then
    assigned (_generate_polynomial_exp_trig self x)
  else if String.eqb problem_type "cyclic" then
    assigned (_generate_cyclic_integral self x)
  else if String.eqb problem_type "repeated_parts" then
    assigned (_generate_repeated_parts self x)
  else mret None.

(** the item record [__getitem__] returns *)
Definition item_record (self : IntermediateIntegrationDataset)
    (question answer_str : string) (integrand : Expr) (problem_type : string)
    (x answer : Expr) : object :=
  dict [
    ("question", PyStr question);
    ("answer", PyStr answer_str);
    ("metadata", dict [
       ("integrand", PyStr (str integrand));
       ("problem_type", PyStr problem_type);
       ("variable", PyStr (str x));
       ("expected_answer_expression", PyExpr answer);
       ("difficulty", dict [
          ("problem_type_weights",
           PyList (PyFloat <$> problem_type_weights (config self)))])])].

(** the body of [__getitem__] after [rng] is created *)
Definition generate_item (self : IntermediateIntegrationDataset) : rand object :=
  drawn ← choices (problem_types (config self)) (problem_type_weights (config self)) 1;
  problem_type ← lift (list_getitem drawn 0);
  symbol ← choice (symbols (config self));
  let x := Symbol symbol in
  integrand ← dispatch self problem_type x;
  integrand ← lift (local "integrand" integrand);
  answer ← lift (integrate integrand x);
  let answer_str := String.append (str answer) " + C" in
  template ← choice (prompt_template self);
  let question :=
    String.append (format template "integrand" (str integrand))
                  (added_instruction self) in
  mret (item_record self question answer_str integrand problem_type x answer).

(** Generate either substitution or by-parts problem *)
Definition getitem (self : IntermediateIntegrationDataset) (index : Z)
    : result object :=
  let rng := Random (self_seed self + index) in
  '(item, _) ← generate_item self rng;
  mret item.

(** [sympy.parse_expr] wants a string. *)
Definition parse_expr_of (s : object) (local_dict : gmap string Expr) : result Expr :=
  match s with
  | PyStr s => parse_expr s local_dict
  | _ => Raise (TypeError "expecting a string")
  end.

(** the body of the [try] block of [score_answer] *)
Definition try_body (answer : string) (metadata : object) (reward : Q) : result Q :=
  var ← subscript metadata "variable";
  var ← as_str var;
  let x := Symbol var in
  (* Parse answer while allowing integration constant 'C' *)
  user_expr ← parse_expr answer (<["C" := Symbol "C"]> {[var := x]});
  (* Compute derivative of student's answer *)
  derivative ← diff user_expr x;
  integrand ← subscript metadata "integrand";
  integrand ← parse_expr_of integrand {[var := x]};
  (* Check mathematical equivalence through simplification *)
  difference ← simplify (Sub derivative integrand);
  if decide (difference = Integer 0) then mret 1%Q else mret reward.

(** Determine if the solution provided solves the problem *)
Definition score_answer (answer : object) (entry : object) : result Q :=
  let reward := 0%Q in
  metadata ← subscript entry "metadata";
  match answer with
  | PyStr answer => try_except (try_body answer metadata reward) (fun _ => mret 0%Q)
  | _ => mret reward
  end.
End Dataset.

(** ** The curriculum *)

Record ScalarAttributeDefinition : Type := {
  name : string;
  field_name : string;
  levels : list object;
  description : string
}.

(** Modelled from the spec: [BaseCurriculum] (reasoning_gym.coaching is not
    among the sources).  A curriculum is a name, the configuration class it
    parametrizes (here always [IntermediateIntegrationConfig], through
    [default_config]) and a mapping from attribute name to its definition
    plus the attribute's current level index. *)
Record BaseCurriculum : Type := {
  curriculum_name : string;
  attributes : list ScalarAttributeDefinition;
  current_levels : gmap string Z
}.

(** Modelled from the spec: a curriculum declares its AttributeDefinitions
    once at construction; index 0 is the easiest level and the initial one. *)
Definition _define_attributes (self : BaseCurriculum)
    (defs : list ScalarAttributeDefinition) : BaseCurriculum := {|
  curriculum_name := curriculum_name self;
  attributes := attributes self ++ defs;
  current_levels :=
    foldr (fun attr m => <[name attr := 0]> m) (current_levels self) defs
|}.

Definition get_attribute (self : BaseCurriculum) (attr_name : string)
    : option ScalarAttributeDefinition :=
  List.find (fun attr => String.eqb (name attr) attr_name) (attributes self).

(** Modelled from the spec: [get_attr_level(name)] returns the current level
    index.  [None]: the curriculum has no such attribute, a case the spec
    leaves open. *)
Definition get_attr_level (self : BaseCurriculum) (attr_name : string) : option Z :=
  _ ← get_attribute self attr_name;
  current_levels self !! attr_name.

Definition set_attr_level (self : BaseCurriculum) (attr_name : string) (level : Z)
    : BaseCurriculum := {|
  curriculum_name := curriculum_name self;
  attributes := attributes self;
  current_levels := <[attr_name := level]> (current_levels self)
|}.

(** Modelled from the spec: [increment_attr_level(name)] moves the
    attribute's current level index by +1, clamped at the valid range
    [[0, num_levels-1]]: moving past the end is a no-op, not an error. *)
Definition increment_attr_level (self : BaseCurriculum) (attr_name : string)
    : option BaseCurriculum :=
  attr ← get_attribute self attr_name;
  level ← get_attr_level self attr_name;
  let num_levels := Z.of_nat (length (levels attr)) in
  if level + 1 <=? num_levels - 1
  then Some (set_attr_level self attr_name (level + 1))
  else Some self.

(** Modelled from the spec: [decrement_attr_level(name)], the same by -1. *)
Definition decrement_attr_level (self : BaseCurriculum) (attr_name : string)
    : option BaseCurriculum :=
  attr ← get_attribute self attr_name;
  level ← get_attr_level self attr_name;
  if 0 <=? level - 1
  then Some (set_attr_level self attr_name (level - 1))
  else Some self.

(** [dataclasses.replace(cfg, field=v)] *)
Definition replace_field (cfg : IntermediateIntegrationConfig) (field : string)
    (v : object) : result IntermediateIntegrationConfig :=
  let '{| problem_types := pt; problem_type_weights := w; seed := sd; size := sz;
          linear_lower_bound := ll; linear_upper_bound := lu;
          min_linear_degree := dl; max_linear_degree := du;
          outer_constant_min := cl; outer_constant_max := cu;
          min_poly_degree := pl; max_poly_degree := pu;
          symbols := sy; operators := ops |} := cfg in
  let mk pt w sd sz ll lu dl du cl cu pl pu sy ops :=
    {| problem_types := pt; problem_type_weights := w; seed := sd; size := sz;
       linear_lower_bound := ll; linear_upper_bound := lu;
       min_linear_degree := dl; max_linear_degree := du;
       outer_constant_min := cl; outer_constant_max := cu;
       min_poly_degree := pl; max_poly_degree := pu;
       symbols := sy; operators := ops |} in
  if String.eqb field "problem_types" then
    x ← as_list as_str v; mret (mk x w sd sz ll lu dl du cl cu pl pu sy ops)
  else if String.eqb field "problem_type_weights" then
    x ← as_list as_float v; mret (mk pt x sd sz ll lu dl du cl cu pl pu sy ops)
  else if String.eqb field "seed" then
    x ← as_optional_int v; mret (mk pt w x sz ll lu dl du cl cu pl pu sy ops)
  else if String.eqb field "size" then
    x ← as_int v; mret (mk pt w sd x ll lu dl du cl cu pl pu sy ops)
  else if String.eqb field "linear_lower_bound" then
    x ← as_int v; mret (mk pt w sd sz x lu dl du cl cu pl pu sy ops)
  else if String.eqb field "linear_upper_bound" then
    x ← as_int v; mret (mk pt w sd sz ll x dl du cl cu pl pu sy ops)
  else if String.eqb field "min_linear_degree" then
    x ← as_int v; mret (mk pt w sd sz ll lu x du cl cu pl pu sy ops)
  else if String.eqb field "max_linear_degree" then
    x ← as_int v; mret (mk pt w sd sz ll lu dl x cl cu pl pu sy ops)
  else if String.eqb field "outer_constant_min" then
    x ← as_int v; mret (mk pt w sd sz ll lu dl du x cu pl pu sy ops)
  else if String.eqb field "outer_constant_max" then
    x ← as_int v; mret (mk pt w sd sz ll lu dl du cl x pl pu sy ops)
  else if String.eqb field "min_poly_degree" then
    x ← as_int v; mret (mk pt w sd sz ll lu dl du cl cu x pu sy ops)
  else if String.eqb field "max_poly_degree" then
    x ← as_int v; mret (mk pt w sd sz ll lu dl du cl cu pl x sy ops)
  else if String.eqb field "symbols" then
    x ← as_list as_str v; mret (mk pt w sd sz ll lu dl du cl cu pl pu x ops)
  else if String.eqb field "operators" then
    x ← as_list as_str v; mret (mk pt w sd sz ll lu dl du cl cu pl pu sy x)
  else Raise (TypeError "got an unexpected keyword argument").

(** Modelled from the spec: configuration materialization builds a
    configuration by taking the generator's default configuration and
    overriding each attribute-controlled field with the value at its current
    level. *)
Definition generate_configuration (self : BaseCurriculum)
    : result IntermediateIntegrationConfig :=
  foldl (fun cfg attr =>
           cfg ← cfg;
           level ← from_option Ok (Raise (KeyError (name attr)))
                     (current_levels self !! name attr);
           v ← list_getitem (levels attr) level;
           replace_field cfg (field_name attr) v)
        (Ok default_config) (attributes self).

(** Modelled from the spec: [BaseCurriculum.__init__(name, config_cls)] *)
Definition BaseCurriculum_init (name : string) : BaseCurriculum := {|
  curriculum_name := name;
  attributes := [];
  current_levels := ∅
|}.

(** the attribute [IntermediateIntegrationCurriculum.__init__] defines *)
Definition problem_type_weights_attribute : ScalarAttributeDefinition := {|
  name := "problem_type_weights";
  field_name := "problem_type_weights";
  levels := (fun l => PyList (PyInt <$> l)) <$>
    [[1; 0; 0; 0; 0; 0; 0; 0];
     [0; 1; 0; 0; 0; 0; 0; 0];
     [0; 0; 1; 0; 0; 0; 0; 0];
     [0; 0; 0; 1; 0; 0; 0; 0];
     [0; 0; 0; 0; 1; 0; 0; 0];
     [0; 0; 0; 0; 0; 1; 0; 0];
     [0; 0; 0; 0; 0; 0; 1; 0];
     [0; 0; 0; 0; 0; 0; 0; 1]];
  description := "The weights of the problem types"
|}.

(** Curriculum for intermediate integration problems *)
Definition IntermediateIntegrationCurriculum_init : BaseCurriculum :=
  _define_attributes
    (BaseCurriculum_init "IntermediateIntegrationCurriculum")
    [problem_type_weights_attribute].

(** ** Two implementations of the collaborators

    The theorems below hold for every [RandomSource] and every [SymPy].  The
    examples run them on a linear congruential generator and on an engine
    that answers from tables. *)

Module Lcg.
Definition modulus : Z := 2147483648.

Definition next (s : Z) : Z := (1103515245 * s + 12345) mod modulus.

(** the high bits of a state *)
Definition bits (s : Z) : Z := s / 65536.

#[export] Instance source : RandomSource := {|
  rng_state := Z;
  Random seed := Z.abs seed mod modulus;
  randbelow n s := let s' := next s in (bits s' mod n, s');
  random s := let s' := next s in (float_scaled s' (-31), s')
|}.
End Lcg.

Module Scripted.
Definition x : Expr := Symbol "x".
Definition C : Expr := Symbol "C".

(** [12*exp(1 - 6*x)] and [-18*exp(6*x + 5)], as the generator builds them *)
Definition integrand_a : Expr :=
  Mul (Integer 12) (Function "exp" (Add (Mul (Integer (-6)) x) (Integer 1))).
Definition integrand_b : Expr :=
  Mul (Integer (-18)) (Function "exp" (Add (Mul (Integer 6) x) (Integer 5))).

(** their antiderivatives [-2*exp(1 - 6*x)] and [-3*exp(6*x + 5)] *)
Definition antiderivative_a : Expr :=
  Mul (Integer (-2)) (Function "exp" (Add (Mul (Integer (-6)) x) (Integer 1))).
Definition antiderivative_b : Expr :=
  Mul (Integer (-3)) (Function "exp" (Add (Mul (Integer 6) x) (Integer 5))).

Definition printed : list (Expr * string) :=
  [(x, "x");
   (integrand_a, "12*exp(1 - 6*x)");
   (integrand_b, "-18*exp(6*x + 5)");
   (antiderivative_a, "-2*exp(1 - 6*x)");
   (antiderivative_b, "-3*exp(6*x + 5)")].

Definition antiderivatives : list (Expr * Expr) :=
  [(integrand_a, antiderivative_a);
   (integrand_b, antiderivative_b)].

Definition parsed : list (string * Expr) :=
  [("12*exp(1 - 6*x)", integrand_a);
   ("-2*exp(1 - 6*x) + C", Add antiderivative_a C);
   ("C - 2*exp(-6*x + 1)", Add C antiderivative_a);
   ("x**2 + C", Add (Pow x (Integer 2)) C);
   ("-18*exp(6*x + 5)", integrand_b);
   ("-3*exp(6*x + 5) + C", Add antiderivative_b C)].

Definition derivatives : list (Expr * Expr) :=
  [(Add antiderivative_a C, integrand_a);
   (Add C antiderivative_a, integrand_a);
   (Add (Pow x (Integer 2)) C, Mul (Integer 2) x);
   (Add antiderivative_b C, integrand_b)].

(** [simplify(12*exp(1 - 6*x) - 12*exp(1 - 6*x))] is [0];
    [simplify(2*x - 12*exp(1 - 6*x))] stays as it is *)
Definition simplified : list (Expr * Expr) :=
  [(Sub integrand_a integrand_a, Integer 0);
   (Sub (Mul (Integer 2) x) integrand_a, Sub (Mul (Integer 2) x) integrand_a);
   (Sub integrand_b integrand_b, Integer 0)].

Definition table {A B} `{EqDecision A} (t : list (A * B)) (a : A) : option B :=
  snd <$> List.find (fun entry => bool_decide (fst entry = a)) t.

Definition answer {B} (r : option B) (msg : string) : string + B :=
  match r with
  | Some b => inr b
  | None => inl msg
  end.

(** a printer for the expressions outside the table: the tree as written,
    every operation in parentheses *)
Fixpoint print (e : Expr) : string :=
  match e with
  | Symbol name => name
  | Integer z => pretty z
  | Add a b => "(" +:+ print a +:+ " + " +:+ print b +:+ ")"
  | Sub a b => "(" +:+ print a +:+ " - " +:+ print b +:+ ")"
  | Mul a b => "(" +:+ print a +:+ "*" +:+ print b +:+ ")"
  | Pow a b => "(" +:+ print a +:+ "**" +:+ print b +:+ ")"
  | Function f a | UndefinedFunction f a => f +:+ "(" +:+ print a +:+ ")"
  end.

#[export] Instance engine : SymPy := {|
  sympy_integrate f var :=
    if decide (var = x) then answer (table antiderivatives f) "NotImplementedError"
    else inl "NotImplementedError";
  sympy_str e := default (print e) (table printed e);
  sympy_parse_expr s local_dict := answer (table parsed s) "SyntaxError";
  sympy_diff e var :=
    if decide (var = x) then answer (table derivatives e) "NotImplementedError"
    else inl "NotImplementedError";
  sympy_simplify e := answer (table simplified e) "NotImplementedError"
|}.
End Scripted.

(** ** Datasets that differ in one attribute *)

Definition with_self_seed (self : IntermediateIntegrationDataset) (s : Z)
    : IntermediateIntegrationDataset :=
  {| config := config self; self_seed := s; self_size := self_size self;
     prompt_template := prompt_template self;
     added_instruction := added_instruction self |}.

Definition with_self_size (self : IntermediateIntegrationDataset) (n : Z)
    : IntermediateIntegrationDataset :=
  {| config := with_size (config self) n; self_seed := self_seed self; self_size := n;
     prompt_template := prompt_template self;
     added_instruction := added_instruction self |}.

(** The item as a function of the configuration, the seed and the index
    alone: what [__getitem__] computes on the dataset these determine. *)
Definition item_of `{RandomSource} `{SymPy} (c : IntermediateIntegrationConfig)
    (s index : Z) : result object :=
  getitem {| config := c; self_seed := s; self_size := size c;
             prompt_template := prompt_templates;
             added_instruction := instruction |} index.

(** ** The vocabulary of the specification *)

(** The constraints [validate] asserts, as propositions. *)
Definition valid (c : IntermediateIntegrationConfig) : Prop :=
  length (problem_types c) = length (problem_type_weights c)
  /\ 0 < size c
  /\ 0 < linear_lower_bound c /\ linear_lower_bound c <= linear_upper_bound c
  /\ 0 < min_linear_degree c /\ min_linear_degree c <= max_linear_degree c
  /\ 0 < outer_constant_min c /\ outer_constant_min c <= outer_constant_max c
  /\ 0 < min_poly_degree c /\ min_poly_degree c <= max_poly_degree c
  /\ Forall (fun op => op = "+" \/ op = "-") (operators c)
  /\ Forall (fun symbol => symbol = "x" \/ symbol = "X") (symbols c).

(** The violations the specification lists. *)
Definition violates_constraint (c : IntermediateIntegrationConfig) : Prop :=
  size c <= 0
  \/ length (problem_types c) <> length (problem_type_weights c)
  \/ linear_lower_bound c <= 0 \/ linear_upper_bound c < linear_lower_bound c
  \/ min_linear_degree c <= 0 \/ max_linear_degree c < min_linear_degree c
  \/ outer_constant_min c <= 0 \/ outer_constant_max c < outer_constant_min c
  \/ min_poly_degree c <= 0 \/ max_poly_degree c < min_poly_degree c
  \/ (exists op, op ∈ operators c /\ op <> "+" /\ op <> "-")
  \/ (exists symbol, symbol ∈ symbols c /\ symbol <> "x" /\ symbol <> "X").

Section Equivalence.
Context `{SymPy}.

(** Symbolic derivative-equivalence, in the specification's words: the
    derivative of the parsed answer equals the stored integrand after
    simplification. *)
Definition derivative_check (answer integrand_str var : string) : Prop :=
  exists user_expr derivative integrand,
    parse_expr answer (<["C" := Symbol "C"]> {[var := Symbol var]}) = Ok user_expr
    /\ diff user_expr (Symbol var) = Ok derivative
    /\ parse_expr integrand_str {[var := Symbol var]} = Ok integrand
    /\ simplify (Sub derivative integrand) = Ok (Integer 0).

Definition derivative_equivalent (answer : string) (entry : object) : Prop :=
  exists metadata var integrand_str,
    subscript entry "metadata" = Ok metadata
    /\ subscript metadata "variable" = Ok (PyStr var)
    /\ subscript metadata "integrand" = Ok (PyStr integrand_str)
    /\ derivative_check answer integrand_str var.

(** A structurally well-formed answer: a string the engine parses. *)
Definition well_formed (answer : string) (entry : object) : Prop :=
  exists metadata var user_expr,
    subscript entry "metadata" = Ok metadata
    /\ subscript metadata "variable" = Ok (PyStr var)
    /\ parse_expr answer (<["C" := Symbol "C"]> {[var := Symbol var]}) = Ok user_expr.
End Equivalence.

(** ** A dataset to run *)

Module Sample.
Import Lcg Scripted.

(** [IntermediateIntegrationConfig(size=6, seed=42)] *)
Definition config_42 : IntermediateIntegrationConfig :=
  with_seed (with_size default_config 6) (Some 42).

(** [IntermediateIntegrationDataset(config_42)] *)
Definition dataset : IntermediateIntegrationDataset := {|
  config := config_42;
  self_seed := 42;
  self_size := 6;
  prompt_template := prompt_templates;
  added_instruction := instruction
|}.

(** its item at index 4 *)
Definition metadata_4 : object :=
  dict [
    ("integrand", PyStr "12*exp(1 - 6*x)");
    ("problem_type", PyStr "exponential");
    ("variable", PyStr "x");
    ("expected_answer_expression", PyExpr antiderivative_a);
    ("difficulty", dict [
       ("problem_type_weights",
        PyList (PyFloat <$> List.repeat float_0_125 8))])].

Definition item_4 : object :=
  dict [
    ("question",
     PyStr ("Evaluate the indefinite integral: ∫ 12*exp(1 - 6*x) dx" +:+ instruction));
    ("answer", PyStr "-2*exp(1 - 6*x) + C");
    ("metadata", metadata_4)].
End Sample.

(** ** Outcomes of a drawing computation *)

(** Whatever the generator state, [m] returns a value satisfying [Q] or
    raises an exception satisfying [E]. *)
Definition ensures `{RandomSource} {A} (m : rand A) (Q : A -> Prop) (E : exn -> Prop)
    : Prop :=
  forall s, match m s with
            | Ok (a, _) => Q a
            | Raise e => E e
            end.

Definition not_unbound (e : exn) : Prop := forall name, e <> UnboundLocalError name.

Definition is_ValueError (e : exn) : Prop := exists msg, e = ValueError msg.

Definition is_IndexError (e : exn) : Prop := exists msg, e = IndexError msg.

(** ** What an expression denotes

    The value of an expression at a valuation [symbol] of its symbols.  The
    functions of sympy's namespace denote the real functions of their names;
    an undefined function denotes whatever [undefined] gives its name.  An
    expression is the zero expression when it denotes 0 whatever the
    valuation and the undefined functions are.  ([sqrt], [ln] and [asin] are
    the total functions of the Reals library; the points the proofs evaluate
    at lie inside their domains.) *)

Definition defined_function (f : string) (t : R) : R :=
  if String.eqb f "exp" then exp t
  else if String.eqb f "sqrt" then sqrt t
  else if String.eqb f "sin" then sin t
  else if String.eqb f "cos" then cos t
  else if String.eqb f "log" then ln t
  else if String.eqb f "asin" then asin t
  else if String.eqb f "atan" then atan t
  else 0%R.

Fixpoint eval (undefined : string -> R -> R) (symbol : string -> R) (e : Expr) : R :=
  match e with
  | Symbol name => symbol name
  | Integer z => IZR z
  | Add a b => (eval undefined symbol a + eval undefined symbol b)%R
  | Sub a b => (eval undefined symbol a - eval undefined symbol b)%R
  | Mul a b => (eval undefined symbol a * eval undefined symbol b)%R
  | Pow a (Integer n) => powerRZ (eval undefined symbol a) n
  | Pow a b => Rpower (eval undefined symbol a) (eval undefined symbol b)
  | Function f a => defined_function f (eval undefined symbol a)
  | UndefinedFunction f a => undefined f (eval undefined symbol a)
  end.

Definition zero_expression (e : Expr) : Prop :=
  forall undefined symbol, eval undefined symbol e = 0%R.

(** The integrand is a product whose leftmost factor is the constant [c]:
    [c * body], [c * du_dx * f] or, when [du_dx] is the Python int [t],
    [(c * t) * f] with the two ints multiplied. *)
Definition multiplied_by (c : Z) (e : Expr) : Prop :=
  (exists body, e = Mul (Integer c) body)
  \/ (exists du_dx f, e = Mul (Mul (Integer c) du_dx) f)
  \/ (exists t f, t <> 0 /\ e = Mul (Integer (c * t)) f).

(** What the specification says of a generated integrand: it is multiplied
    by a nonzero constant of the configured range, and it is not the zero
    expression. *)
Definition scaled_nonzero (c : IntermediateIntegrationConfig) (integrand : Expr) : Prop :=
  (exists k, k <> 0
             /\ outer_constant_min c <= Z.abs k <= outer_constant_max c
             /\ multiplied_by k integrand)
  /\ ~ zero_expression integrand.

(** ** Reachable curricula *)

(** The curricula reached from the initial state of
    [IntermediateIntegrationCurriculum] by increments and decrements. *)
Inductive reachable : BaseCurriculum -> Prop :=
| reachable_init :
    reachable IntermediateIntegrationCurriculum_init
| reachable_increment self attr_name self' :
    reachable self ->
    increment_attr_level self attr_name = Some self' ->
    reachable self'
| reachable_decrement self attr_name self' :
    reachable self ->
    decrement_attr_level self attr_name = Some self' ->
    reachable self'.

(** [n] calls of [increment_attr_level(attr_name)] in a row *)
Fixpoint increments (n : nat) (attr_name : string) (self : BaseCurriculum)
    : option BaseCurriculum :=
  match n with
  | O => Some self
  | S n' => self' ← increment_attr_level self attr_name; increments n' attr_name self'
  end.

(** What stays true of the curriculum under steps: its one attribute, at
    a level between 0 and 7. *)
Definition at_level (self : BaseCurriculum) (level : Z) : Prop :=
  curriculum_name self = curriculum_name IntermediateIntegrationCurriculum_init
  /\ attributes self = attributes IntermediateIntegrationCurriculum_init
  /\ current_levels self = {[ "problem_type_weights" := level ]}
  /\ 0 <= level <= 7.

(** [exp(x)], [sin(x)] or [cos(x)] *)
Definition elementary (name : string) (e : Expr) : Prop :=
  e = Function "exp" (Symbol name) \/ e = Function "sin" (Symbol name)
  \/ e = Function "cos" (Symbol name).

(** ** Further vocabulary *)

(** an entry that keeps of item 4 only what [score_answer] reads *)
Definition bare_entry_4 : object :=
  dict [("metadata", dict [("variable", PyStr "x");
                           ("integrand", PyStr "12*exp(1 - 6*x)")])].

(** No symbol but [name] occurs in the expression. *)
Fixpoint only_symbol (name : string) (e : Expr) : Prop :=
  match e with
  | Symbol n => n = name
  | Integer _ => True
  | Add a b | Sub a b | Mul a b | Pow a b => only_symbol name a /\ only_symbol name b
  | Function _ a | UndefinedFunction _ a => only_symbol name a
  end.

(** the prompts of [prompt_template] up to the placeholder *)
Definition prompts : list string :=
  ["Find the indefinite integral: ";
   "Calculate the antiderivative: ";
   "Evaluate the indefinite integral: "].

(** the total [choices] scales the draw by: the last running float sum,
    plus [0.0] *)
Definition total_weight (weights : list float) : float :=
  match weights with
  | [] => float_0
  | w :: rest => float_add (foldl float_add w rest) float_0
  end.


Definition with_max_poly_degree (c : IntermediateIntegrationConfig) (n : Z)
    : IntermediateIntegrationConfig :=
  {| problem_types := problem_types c;
     problem_type_weights := problem_type_weights c;
     seed := seed c; size := size c;
     linear_lower_bound := linear_lower_bound c;
     linear_upper_bound := linear_upper_bound c;
     min_linear_degree := min_linear_degree c;
     max_linear_degree := max_linear_degree c;
     outer_constant_min := outer_constant_min c;
     outer_constant_max := outer_constant_max c;
     min_poly_degree := min_poly_degree c;
     max_poly_degree := n;
     symbols := symbols c; operators := operators c |}.

(** weights that are 1 at position [k] and 0 at the [k] positions before
    and the [m] positions after it *)
Definition one_hot (k m : nat) : list float :=
  (List.repeat float_0 k ++ float_1 :: List.repeat float_0 m)%list.

(** [a[i]] as [bisect] reads it *)
Definition weight_at (a : list float) (i : Z) : float :=
  nth (Z.to_nat i) a float_0.

Definition with_problem_type_weights (c : IntermediateIntegrationConfig)
    (weights : list float) : IntermediateIntegrationConfig :=
  {| problem_types := problem_types c;
     problem_type_weights := weights;
     seed := seed c; size := size c;
     linear_lower_bound := linear_lower_bound c;
     linear_upper_bound := linear_upper_bound c;
     min_linear_degree := min_linear_degree c;
     max_linear_degree := max_linear_degree c;
     outer_constant_min := outer_constant_min c;
     outer_constant_max := outer_constant_max c;
     min_poly_degree := min_poly_degree c;
     max_poly_degree := max_poly_degree c;
     symbols := symbols c; operators := operators c |}.

(** the example dataset with the weights of curriculum level 5 *)
Definition dataset_level_5 : IntermediateIntegrationDataset := {|
  config := with_problem_type_weights Sample.config_42 (one_hot 5 2);
  self_seed := 42;
  self_size := 6;
  prompt_template := prompt_templates;
  added_instruction := instruction
|}.

(** the example dataset with [max_poly_degree=2] *)
Definition dataset_degree_2 : IntermediateIntegrationDataset := {|
  config := with_max_poly_degree Sample.config_42 2;
  self_seed := 42;
  self_size := 6;
  prompt_template := prompt_templates;
  added_instruction := instruction
|}.

(** ** Antiderivatives *)

(** the assignment that gives the symbol [name] the value [t] *)
Definition bind_symbol (symbol : string -> R) (name : string) (t : R)
    : string -> R :=
  fun n => if String.eqb n name then t else symbol n.

(** [F] is an antiderivative of [f] in the symbol [name] at the points where
    [D] holds: there the function of [name] that [F] denotes has the value
    of [f] as its derivative, whatever the other symbols and the undefined
    functions stand for. *)
Definition antiderivative_where (D : R -> Prop) (name : string) (F f : Expr)
    : Prop :=
  forall undefined symbol t, D t ->
    derivable_pt_lim (fun t' => eval undefined (bind_symbol symbol name t') F) t
                     (eval undefined (bind_symbol symbol name t) f).

Definition antiderivative (name : string) (F f : Expr) : Prop :=
  antiderivative_where (fun _ => True) name F f.

(** [1/n] as an expression *)
Definition reciprocal (n : Z) : Expr := Pow (Integer n) (Integer (-1)).

(** [a*x + b] *)
Definition linear_in (name : string) (a b : Z) : Expr :=
  Add (Mul (Integer a) (Symbol name)) (Integer b).

(** [a*x**2 + b*x + c] *)
Definition quadratic_in (name : string) (a b c : Z) : Expr :=
  Add (Add (Mul (Integer a) (Pow (Symbol name) (Integer 2)))
           (Mul (Integer b) (Symbol name)))
      (Integer c).

(** [2.0**53], where the floats stop holding every integer, and
    [2.0**1023], half of which the largest float exceeds *)
Definition float_2_53 : float := Eval vm_compute in float_scaled 1 53.
Definition float_2_1023 : float := Eval vm_compute in float_scaled 1 1023.

(** the example dataset with the weights [2.0**53, 1.0, -2.0**53, 0.0, ...],
    whose float sum is [0.0], with eight weights [2.0**1023], whose float
    sum is infinite, with no problem type and no weight, and with ["+"] as
    its only operator *)
Definition dataset_cancelling_weights : IntermediateIntegrationDataset := {|
  config :=
    with_problem_type_weights Sample.config_42
      ([float_2_53; float_1; SFopp float_2_53] ++ List.repeat float_0 5);
  self_seed := 42;
  self_size := 6;
  prompt_template := prompt_templates;
  added_instruction := instruction
|}.

Definition dataset_overflowing_weights : IntermediateIntegrationDataset := {|
  config := with_problem_type_weights Sample.config_42 (List.repeat float_2_1023 8);
  self_seed := 42;
  self_size := 6;
  prompt_template := prompt_templates;
  added_instruction := instruction
|}.

Definition dataset_no_types : IntermediateIntegrationDataset := {|
  config := with_problem_types (with_problem_type_weights Sample.config_42 []) [];
  self_seed := 42;
  self_size := 6;
  prompt_template := prompt_templates;
  added_instruction := instruction
|}.

Definition dataset_plus : IntermediateIntegrationDataset := {|
  config := with_operators Sample.config_42 ["+"];
  self_seed := 42;
  self_size := 6;
  prompt_template := prompt_templates;
  added_instruction := instruction
|}.

(** * Properties *)

(** ** validate *)

Lemma str_in_two x a b : str_in x [a; b] = true <-> x = a \/ x = b.
Proof.
  unfold str_in. simpl. rewrite !orb_true_iff, !String.eqb_eq.
  split; [intros [?|[?|?]]; auto; discriminate | intros [?|?]; auto].
Qed.

Lemma forallb_str_in l a b :
  forallb (fun x => str_in x [a; b]) l = true <-> Forall (fun x => x = a \/ x = b) l.
Proof.
  rewrite forallb_forall, Forall_forall.
  split; intros Hl x Hx.
  - apply str_in_two, Hl. by apply list_elem_of_In.
  - apply str_in_two, Hl. by apply list_elem_of_In.
Qed.

Lemma assert_bind {A} (cond : bool) msg (k : result A) :
  (assert cond msg ≫= fun _ => k) = if cond then k else Raise (AssertionError msg).
Proof. by destruct cond. Qed.

Lemma validate_Ok c : validate c = Ok tt <-> valid c.
Proof.
  unfold validate, valid. rewrite !assert_bind. unfold assert.
  rewrite <- !forallb_str_in.
  repeat match goal with
  | |- context [if ?b then _ else _] => destruct b eqn:?
  end;
  repeat match goal with
  | E : (_ =? _)%nat = _ |- _ => first [apply Nat.eqb_eq in E | apply Nat.eqb_neq in E]
  | E : (_ <? _) = _ |- _ => first [apply Z.ltb_lt in E | apply Z.ltb_ge in E]
  | E : (_ <=? _) = _ |- _ => first [apply Z.leb_le in E | apply Z.leb_gt in E]
  end;
  split; try done; try (intros; intuition (congruence || lia)).
Qed.

Lemma validate_total c :
  validate c = Ok tt \/ exists msg, validate c = Raise (AssertionError msg).
Proof.
  unfold validate. rewrite !assert_bind. unfold assert.
  repeat match goal with
  | |- context [if ?b then _ else _] => destruct b
  end; eauto.
Qed.

Lemma violates_not_valid c : violates_constraint c -> ~ valid c.
Proof.
  unfold violates_constraint, valid. rewrite !Forall_forall.
  intros Hv (? & ? & ? & ? & ? & ? & ? & ? & ? & ? & Hops & Hsym).
  destruct Hv as [?|[?|[?|[?|[?|[?|[?|[?|[?|[?|[Hv|Hv]]]]]]]]]]]; try lia; try done.
  - destruct Hv as (op & Hin & ? & ?). destruct (Hops op Hin); done.
  - destruct Hv as (sy & Hin & ? & ?). destruct (Hsym sy Hin); done.
Qed.

Lemma not_valid_violates c : ~ valid c -> violates_constraint c.
Proof.
  intros Hn. unfold violates_constraint.
  destruct (decide (size c <= 0)); [tauto|].
  destruct (decide (length (problem_types c) = length (problem_type_weights c))); [|tauto].
  destruct (decide (linear_lower_bound c <= 0)); [tauto|].
  destruct (decide (linear_upper_bound c < linear_lower_bound c)); [tauto|].
  destruct (decide (min_linear_degree c <= 0)); [tauto|].
  destruct (decide (max_linear_degree c < min_linear_degree c)); [tauto|].
  destruct (decide (outer_constant_min c <= 0)); [tauto|].
  destruct (decide (outer_constant_max c < outer_constant_min c)); [tauto|].
  destruct (decide (min_poly_degree c <= 0)); [tauto|].
  destruct (decide (max_poly_degree c < min_poly_degree c)); [tauto|].
  destruct (decide (Forall (fun op => op = "+" \/ op = "-") (operators c))) as [Ho|Ho].
  - destruct (decide (Forall (fun s => s = "x" \/ s = "X") (symbols c))) as [Hs|Hs].
    + exfalso. apply Hn. unfold valid. repeat split; try lia; done.
    + do 11 right. apply not_Forall_Exists in Hs; [|intros ?; apply _].
      apply Exists_exists in Hs as (s & Hin & Hs). exists s. split; [done|]. split; intros ->; apply Hs; auto.
  - do 10 right. left. apply not_Forall_Exists in Ho; [|intros ?; apply _].
    apply Exists_exists in Ho as (s & Hin & Hs). exists s. split; [done|]. split; intros ->; apply Hs; auto.
Qed.

Lemma validate_violation c :
  violates_constraint c -> exists msg, validate c = Raise (AssertionError msg).
Proof.
  intros Hv. destruct (validate_total c) as [Hok|Herr]; [|done].
  apply validate_Ok in Hok. by apply violates_not_valid in Hv.
Qed.

(** C5. A configuration that violates a stated constraint (size <= 0, a
    length mismatch of problem_types and problem_type_weights, a non-positive
    or inverted bound, an operator outside "+", "-", a symbol outside "x",
    "X") makes [validate()] raise its assertion failure, and no dataset is
    constructed from it, so that no item is generated. *)
Theorem validate_rejects_violation (c : IntermediateIntegrationConfig) :
  violates_constraint c ->
  (exists msg, validate c = Raise (AssertionError msg))
  /\ forall process_seed,
       exists msg, IntermediateIntegrationDataset_init c process_seed
                   = Raise (ConfigurationError msg).
Proof.
  intros Hv. destruct (validate_violation c Hv) as [msg Hmsg].
  split; [by exists msg|].
  intros process_seed. exists msg.
  unfold IntermediateIntegrationDataset_init, ProceduralDataset_init.
  by rewrite Hmsg.
Qed.

(** [IntermediateIntegrationConfig(size=0).validate()] raises. *)
Lemma validate_rejects_size_0 :
  violates_constraint (with_size default_config 0)
  /\ (exists msg, validate (with_size default_config 0) = Raise (AssertionError msg))
  /\ forall process_seed,
       exists msg, IntermediateIntegrationDataset_init (with_size default_config 0) process_seed
                   = Raise (ConfigurationError msg).
Proof.
  assert (Hv : violates_constraint (with_size default_config 0)).
  { left. simpl. lia. }
  split; [exact Hv|].
  exact (validate_rejects_violation (with_size default_config 0) Hv).
Defined.

(** ** The two monads *)

Lemma result_bind_Ok {A B} (m : result A) (f : A -> result B) b :
  m ≫= f = Ok b <-> exists a, m = Ok a /\ f a = Ok b.
Proof.
  destruct m as [a|e]; simpl; split.
  - intros Hf. by exists a.
  - by intros (a' & [= ->] & Hf).
  - done.
  - by intros (a' & Hm & _).
Qed.

Lemma result_bind_Raise {A B} (m : result A) (f : A -> result B) e :
  m ≫= f = Raise e <-> m = Raise e \/ exists a, m = Ok a /\ f a = Raise e.
Proof.
  destruct m as [a|e']; simpl; split.
  - intros Hf. right. by exists a.
  - by intros [Hm | (a' & [= ->] & Hf)].
  - intros [= ->]. by left.
  - by intros [[= ->] | (a' & [=] & _)].
Qed.

Lemma rand_bind_Ok `{RandomSource} {A B} (m : rand A) (f : A -> rand B) s b s2 :
  (m ≫= f) s = Ok (b, s2) <-> exists a s1, m s = Ok (a, s1) /\ f a s1 = Ok (b, s2).
Proof.
  unfold mbind, rand_bind. destruct (m s) as [[a s1]|e]; split.
  - intros Hf. by exists a, s1.
  - by intros (a' & s1' & [= -> ->] & Hf).
  - done.
  - by intros (a' & s1' & Hm & _).
Qed.

Lemma rand_bind_Raise `{RandomSource} {A B} (m : rand A) (f : A -> rand B) s e :
  (m ≫= f) s = Raise e
  <-> m s = Raise e \/ exists a s1, m s = Ok (a, s1) /\ f a s1 = Raise e.
Proof.
  unfold mbind, rand_bind. destruct (m s) as [[a s1]|e']; split.
  - intros Hf. right. by exists a, s1.
  - by intros [Hm | (a' & s1' & [= -> ->] & Hf)].
  - intros [= ->]. by left.
  - by intros [[= ->] | (a' & s1' & [=] & _)].
Qed.

Lemma rand_ret_Ok `{RandomSource} {A} (a b : A) s s' :
  (mret a : rand A) s = Ok (b, s') <-> a = b /\ s = s'.
Proof. unfold mret, rand_ret. split; [by intros [= -> ->] | by intros [-> ->]]. Qed.

Lemma lift_Ok `{RandomSource} {A} (r : result A) s a s' :
  lift r s = Ok (a, s') <-> r = Ok a /\ s = s'.
Proof.
  unfold lift. destruct r; split; try done.
  - by intros [= -> ->].
  - by intros [[= ->] ->].
  - by intros [? _].
Qed.

Lemma lift_Raise `{RandomSource} {A} (r : result A) s e :
  lift r s = Raise e <-> r = Raise e.
Proof. unfold lift. destruct r; split; congruence. Qed.

Lemma draw_Ok `{RandomSource} {A} (f : rng_state -> A * rng_state) s a s' :
  draw f s = Ok (a, s') <-> f s = (a, s').
Proof. unfold draw. split; congruence. Qed.

(** ** score_answer *)

Section Scoring.
Context `{SymPy}.

Lemma try_body_reward answer metadata reward r :
  try_body answer metadata reward = Ok r -> r = 1%Q \/ r = reward.
Proof.
  unfold try_body. intros Hb.
  repeat (apply result_bind_Ok in Hb as (? & _ & Hb)).
  case_decide; injection Hb as <-; auto.
Qed.

Lemma score_answer_str answer entry metadata :
  subscript entry "metadata" = Ok metadata ->
  score_answer (PyStr answer) entry
  = Ok (match try_body answer metadata 0%Q with Ok r => r | Raise _ => 0%Q end).
Proof.
  intros Hm. unfold score_answer. rewrite Hm. simpl.
  by destruct (try_body answer metadata 0%Q).
Qed.

Lemma score_answer_not_str answer entry metadata :
  subscript entry "metadata" = Ok metadata ->
  (forall a, answer <> PyStr a) ->
  score_answer answer entry = Ok 0%Q.
Proof.
  intros Hm Hns. unfold score_answer. rewrite Hm. simpl.
  destruct answer; try done. by destruct (Hns s).
Qed.

(** C2. Given an item record (an entry with its [metadata]), [score_answer]
    never raises: it returns a reward, 0.0 or 1.0, for every candidate
    answer; an answer that is not a string ([None] among them) scores 0.0,
    and whatever is raised while the answer is parsed or verified is caught
    and scored 0.0. *)
Theorem score_answer_never_raises (answer entry metadata : object) :
  subscript entry "metadata" = Ok metadata ->
  (exists reward, score_answer answer entry = Ok reward
                  /\ (reward = 0%Q \/ reward = 1%Q))
  /\ ((forall a, answer <> PyStr a) -> score_answer answer entry = Ok 0%Q)
  /\ (forall a, answer = PyStr a -> raises (try_body a metadata 0%Q) ->
        score_answer answer entry = Ok 0%Q).
Proof.
  intros Hm. split; [|split].
  - destruct answer as [| | |a| | |];
      try (exists 0%Q; split; [by apply (score_answer_not_str _ _ _ Hm) | by left]).
    rewrite (score_answer_str _ _ _ Hm).
    destruct (try_body a metadata 0%Q) as [r|e] eqn:Hb; [|eauto].
    exists r. split; [done|]. apply try_body_reward in Hb. tauto.
  - apply (score_answer_not_str _ _ _ Hm).
  - intros a -> [e He]. rewrite (score_answer_str _ _ _ Hm). by rewrite He.
Qed.
End Scoring.

Example dataset_constructed :
  IntermediateIntegrationDataset_init Sample.config_42 0 = Ok Sample.dataset.
Proof. reflexivity. Qed.

Example item_4_generated :
  @getitem Lcg.source Scripted.engine Sample.dataset 4 = Ok Sample.item_4.
Proof. vm_compute. reflexivity. Qed.

Section ScoringEquivalence.
Context `{SymPy}.

Lemma as_str_Ok v s : as_str v = Ok s <-> v = PyStr s.
Proof. destruct v; simpl; split; congruence. Qed.

Lemma parse_expr_of_Ok v d e :
  parse_expr_of v d = Ok e <-> exists s, v = PyStr s /\ parse_expr s d = Ok e.
Proof.
  destruct v; simpl; split; try done; try by intros (? & ? & ?).
  - intros Hp. by eexists.
  - by intros (? & [= <-] & ?).
Qed.

Lemma try_body_accepts answer metadata :
  try_body answer metadata 0%Q = Ok 1%Q
  <-> exists var integrand_str,
        subscript metadata "variable" = Ok (PyStr var)
        /\ subscript metadata "integrand" = Ok (PyStr integrand_str)
        /\ derivative_check answer integrand_str var.
Proof.
  unfold try_body, derivative_check. split.
  - intros Hb.
    apply result_bind_Ok in Hb as (v & Hv & Hb).
    apply result_bind_Ok in Hb as (var & ->%as_str_Ok & Hb).
    apply result_bind_Ok in Hb as (user_expr & Hu & Hb).
    apply result_bind_Ok in Hb as (derivative & Hd & Hb).
    apply result_bind_Ok in Hb as (i & Hi & Hb).
    apply result_bind_Ok in Hb as (integrand & (istr & -> & Hp)%parse_expr_of_Ok & Hb).
    apply result_bind_Ok in Hb as (difference & Hs & Hb).
    case_decide as Hz; [subst difference | discriminate Hb].
    exists var, istr. repeat split; try done.
    by exists user_expr, derivative, integrand.
  - intros (var & istr & Hv & Hi & user_expr & derivative & integrand & Hu & Hd & Hp & Hs).
    rewrite Hv. simpl. rewrite Hu. simpl. rewrite Hd. simpl. rewrite Hi. simpl.
    rewrite Hp. simpl. rewrite Hs. reflexivity.
Qed.

Lemma score_answer_1_iff answer entry :
  score_answer (PyStr answer) entry = Ok 1%Q <-> derivative_equivalent answer entry.
Proof.
  unfold derivative_equivalent. split.
  - intros Hs. unfold score_answer in Hs.
    apply result_bind_Ok in Hs as (metadata & Hm & Hs).
    exists metadata.
    destruct (try_body answer metadata 0%Q) as [r|e] eqn:Hb; simpl in Hs; [|done].
    injection Hs as ->. apply try_body_accepts in Hb as (var & istr & ? & ? & ?).
    by exists var, istr.
  - intros (metadata & var & istr & Hm & Hv & Hi & Hc).
    rewrite (score_answer_str _ _ _ Hm).
    assert (Hb : try_body answer metadata 0%Q = Ok 1%Q).
    { apply try_body_accepts. by exists var, istr. }
    by rewrite Hb.
Qed.

Lemma score_answer_0 answer entry metadata :
  subscript entry "metadata" = Ok metadata ->
  ~ derivative_equivalent answer entry ->
  score_answer (PyStr answer) entry = Ok 0%Q.
Proof.
  intros Hm Hne. rewrite (score_answer_str _ _ _ Hm).
  destruct (try_body answer metadata 0%Q) as [r|e] eqn:Hb; [|done].
  destruct (try_body_reward _ _ _ _ Hb) as [-> | ->]; [|done].
  exfalso. apply Hne, score_answer_1_iff.
  rewrite (score_answer_str _ _ _ Hm). by rewrite Hb.
Qed.

(** C4, as the code has it. [score_answer] gives no partial credit: an
    answer that is not derivative-equivalent to the item -- structurally
    well-formed but wrong, or malformed -- scores 0.0, and the only other
    reward is 1.0. *)
Theorem score_answer_no_partial_credit (answer : string) (entry metadata : object) :
  subscript entry "metadata" = Ok metadata ->
  ~ derivative_equivalent answer entry ->
  score_answer (PyStr answer) entry = Ok 0%Q
  /\ forall reward, score_answer (PyStr answer) entry = Ok reward ->
       reward = 0%Q \/ reward = 1%Q.
Proof.
  intros Hm Hne. rewrite (score_answer_0 _ _ _ Hm Hne).
  split; [done|]. intros reward [= <-]. by left.
Qed.
End ScoringEquivalence.

(** ** The item record *)

Section ItemRecord.
Context `{RandomSource} `{SymPy}.

Lemma item_record_answer self question answer_str integrand problem_type x answer :
  subscript (item_record self question answer_str integrand problem_type x answer)
            "answer" = Ok (PyStr answer_str).
Proof. reflexivity. Qed.

Lemma item_record_metadata self question answer_str integrand problem_type x answer :
  exists metadata,
    subscript (item_record self question answer_str integrand problem_type x answer)
              "metadata" = Ok metadata
    /\ subscript metadata "variable" = Ok (PyStr (str x))
    /\ subscript metadata "integrand" = Ok (PyStr (str integrand))
    /\ subscript metadata "problem_type" = Ok (PyStr problem_type).
Proof. eexists. repeat split; reflexivity. Qed.

(** What a returned item is made of. *)
Lemma generate_item_Ok self s item s' :
  generate_item self s = Ok (item, s') ->
  exists question integrand problem_type symbol answer s1 s2 s3,
    dispatch self problem_type (Symbol symbol) s1 = Ok (Some integrand, s2)
    /\ choice (symbols (config self)) s3 = Ok (symbol, s1)
    /\ integrate integrand (Symbol symbol) = Ok answer
    /\ item = item_record self question (String.append (str answer) " + C")
                          integrand problem_type (Symbol symbol) answer.
Proof.
  unfold generate_item. intros Hg.
  apply rand_bind_Ok in Hg as (drawn & s0 & _ & Hg).
  apply rand_bind_Ok in Hg as (problem_type & s3 & _ & Hg).
  apply rand_bind_Ok in Hg as (symbol & s1 & Hsym & Hg).
  apply rand_bind_Ok in Hg as (oi & s2 & Hd & Hg).
  apply rand_bind_Ok in Hg as (integrand & s4 & [Hl <-]%lift_Ok & Hg).
  apply rand_bind_Ok in Hg as (answer & s5 & [Hint <-]%lift_Ok & Hg).
  apply rand_bind_Ok in Hg as (template & s6 & _ & Hg).
  apply rand_ret_Ok in Hg as [<- _].
  destruct oi as [i|]; [injection Hl as ->|done].
  by eexists _, integrand, problem_type, symbol, answer, s1, s2, s3.
Qed.

Lemma getitem_Ok self index item :
  getitem self index = Ok item ->
  exists s', generate_item self (Random (self_seed self + index)) = Ok (item, s').
Proof.
  unfold getitem. intros Hg.
  apply result_bind_Ok in Hg as ([item' s'] & Hg & [= ->]). by exists s'.
Qed.

End ItemRecord.

(** ** The tabulated engine on the example item *)

Lemma metadata_4_found :
  subscript Sample.item_4 "metadata" = Ok Sample.metadata_4.
Proof. reflexivity. Qed.

Lemma reordered_answer_equivalent :
  @derivative_equivalent Scripted.engine "C - 2*exp(-6*x + 1)" Sample.item_4.
Proof.
  exists Sample.metadata_4, "x", "12*exp(1 - 6*x)".
  repeat split; try reflexivity.
  eexists _, _, _. repeat split; reflexivity.
Qed.

Lemma square_not_equivalent :
  ~ @derivative_equivalent Scripted.engine "x**2 + C" Sample.item_4.
Proof. intros Hd%score_answer_1_iff. vm_compute in Hd. discriminate Hd. Qed.

Lemma noise_not_equivalent :
  ~ @derivative_equivalent Scripted.engine "not a valid expression $$$" Sample.item_4.
Proof. intros Hd%score_answer_1_iff. vm_compute in Hd. discriminate Hd. Qed.

(** Without its [metadata] an entry is no item record, and the lookup
    before the [try] block raises. *)
Example score_answer_needs_metadata :
  @score_answer Scripted.engine PyNone (dict []) = Raise (KeyError "metadata").
Proof. reflexivity. Qed.

(** C2 on item 4 of the example dataset: [None] and an unparseable string
    score 0.0. *)
Lemma score_answer_never_raises_example :
  @score_answer Scripted.engine PyNone Sample.item_4 = Ok 0%Q
  /\ @score_answer Scripted.engine (PyStr "not a valid expression $$$") Sample.item_4
     = Ok 0%Q.
Proof.
  split.
  - destruct (@score_answer_never_raises Scripted.engine PyNone Sample.item_4
                Sample.metadata_4 metadata_4_found) as (_ & Hnone & _).
    apply Hnone. intros a. discriminate.
  - destruct (@score_answer_never_raises Scripted.engine
                (PyStr "not a valid expression $$$") Sample.item_4
                Sample.metadata_4 metadata_4_found) as (_ & _ & Hcaught).
    apply (Hcaught "not a valid expression $$$" eq_refl).
    exists (LibraryError "SyntaxError"). reflexivity.
Defined.

(** C4 fails on item 4 of the example dataset: ["x**2 + C"] is well-formed
    and wrong, and it scores 0.0, the reward of a malformed answer. *)
Lemma score_answer_partial_credit_counterexample :
  @well_formed Scripted.engine "x**2 + C" Sample.item_4
  /\ @score_answer Scripted.engine (PyStr "x**2 + C") Sample.item_4 = Ok 0%Q
  /\ @score_answer Scripted.engine (PyStr "not a valid expression $$$") Sample.item_4
     = Ok 0%Q.
Proof.
  split; [|split; reflexivity].
  exists Sample.metadata_4, "x". eexists. repeat split; reflexivity.
Qed.

(** C4, as the code has it, on item 4 of the example dataset *)
Lemma score_answer_no_partial_credit_example :
  @score_answer Scripted.engine (PyStr "x**2 + C") Sample.item_4 = Ok 0%Q.
Proof.
  exact (proj1 (@score_answer_no_partial_credit Scripted.engine "x**2 + C"
                  Sample.item_4 Sample.metadata_4 metadata_4_found
                  square_not_equivalent)).
Defined.

(** ** Determinism and indexing *)

Section Determinism.
Context `{RandomSource} `{SymPy}.

Lemma IntermediateIntegrationDataset_init_Ok c process_seed self :
  IntermediateIntegrationDataset_init c process_seed = Ok self ->
  validate c = Ok tt
  /\ self = {| config := c; self_seed := default process_seed (seed c);
               self_size := size c; prompt_template := prompt_templates;
               added_instruction := instruction |}.
Proof.
  unfold IntermediateIntegrationDataset_init, ProceduralDataset_init.
  destruct (validate c) as [[]|[]] eqn:Hv; simpl; try done.
  by intros [= <-].
Qed.

(** C1. Two datasets constructed independently (whatever seed each
    process would have derived) from equal configurations with the same
    explicit seed return the same item record, or raise the same exception,
    at every index; the item is the function [item_of] of the configuration,
    the seed and the index. *)
Theorem getitem_deterministic (config1 config2 : IntermediateIntegrationConfig)
    (s process_seed1 process_seed2 : Z) (ds1 ds2 : IntermediateIntegrationDataset)
    (index : Z) :
  config1 = config2 ->
  seed config1 = Some s ->
  IntermediateIntegrationDataset_init config1 process_seed1 = Ok ds1 ->
  IntermediateIntegrationDataset_init config2 process_seed2 = Ok ds2 ->
  getitem ds1 index = getitem ds2 index
  /\ getitem ds1 index = item_of config1 s index.
Proof.
  intros <- Hseed [_ ->]%IntermediateIntegrationDataset_init_Ok
    [_ ->]%IntermediateIntegrationDataset_init_Ok.
  rewrite Hseed. simpl. by unfold item_of.
Qed.

(** The generation of an item reads neither [self.size] nor [config.size]. *)
Lemma generate_item_size self n s :
  generate_item (with_self_size self n) s = generate_item self s.
Proof. reflexivity. Qed.

(** C6, as the code has it. [__getitem__] neither wraps nor checks the
    index: the item at any index, also one >= size, is drawn from
    [Random(seed + index)].  It is the item at [index mod size] of the
    dataset whose base seed is advanced by [index - index mod size], and it
    (or the exception raised) is the same whatever the size is. *)
Theorem getitem_no_wrap (self : IntermediateIntegrationDataset) (index : Z) :
  getitem self index
  = getitem (with_self_seed self
               (self_seed self + (index - index mod self_size self)))
            (index mod self_size self)
  /\ forall n, getitem (with_self_size self n) index = getitem self index.
Proof.
  split; [|done].
  unfold getitem. simpl.
  replace (self_seed self + (index - index mod self_size self)
           + index mod self_size self) with (self_seed self + index) by lia.
  done.
Qed.
End Determinism.

(** C1 on the example configuration: the process-derived seeds 0 and 1 do
    not show in item 4. *)
Lemma getitem_deterministic_example :
  (self ← IntermediateIntegrationDataset_init Sample.config_42 0;
   @getitem Lcg.source Scripted.engine self 4)
  = (self ← IntermediateIntegrationDataset_init Sample.config_42 1;
     @getitem Lcg.source Scripted.engine self 4).
Proof.
  exact (proj1 (@getitem_deterministic Lcg.source Scripted.engine
                  Sample.config_42 Sample.config_42 42 0 1
                  Sample.dataset Sample.dataset 4
                  eq_refl eq_refl eq_refl eq_refl)).
Defined.

(** C6 fails on the example dataset, of size 6: the item at index 10 is not
    the item at index 10 mod 6. *)
Lemma getitem_wrap_counterexample :
  len Sample.dataset <= 10
  /\ @getitem Lcg.source Scripted.engine Sample.dataset 10
     <> @getitem Lcg.source Scripted.engine Sample.dataset (10 mod len Sample.dataset).
Proof.
  split; [by vm_compute|].
  intros Heq.
  apply (f_equal (fun r => item ← r; subscript item "answer")) in Heq.
  vm_compute in Heq. discriminate Heq.
Qed.

(** ** The curriculum *)

Lemma get_attribute_set_attr_level self attr_name level name' :
  get_attribute (set_attr_level self attr_name level) name' = get_attribute self name'.
Proof. reflexivity. Qed.

Lemma get_attr_level_set_attr_level self attr_name attr level :
  get_attribute self attr_name = Some attr ->
  get_attr_level (set_attr_level self attr_name level) attr_name = Some level.
Proof.
  intros Ha. unfold get_attr_level. rewrite get_attribute_set_attr_level, Ha.
  simpl. apply lookup_insert_eq.
Qed.

Lemma increment_attr_level_Some self attr_name attr level :
  get_attribute self attr_name = Some attr ->
  get_attr_level self attr_name = Some level ->
  increment_attr_level self attr_name
  = Some (if level + 1 <=? Z.of_nat (length (levels attr)) - 1
          then set_attr_level self attr_name (level + 1) else self).
Proof.
  intros Ha Hl. unfold increment_attr_level. rewrite Ha, Hl. simpl.
  by destruct (_ <=? _).
Qed.

Lemma decrement_attr_level_Some self attr_name attr level :
  get_attribute self attr_name = Some attr ->
  get_attr_level self attr_name = Some level ->
  decrement_attr_level self attr_name
  = Some (if 0 <=? level - 1 then set_attr_level self attr_name (level - 1) else self).
Proof.
  intros Ha Hl. unfold decrement_attr_level. rewrite Ha, Hl. simpl.
  by destruct (_ <=? _).
Qed.

(** C7. For an attribute of a curriculum at a level of its valid range,
    [increment_attr_level] and [decrement_attr_level] succeed and move the
    level by +1 and -1 clamped to [[0, num_levels-1]]; at the maximum level
    an increment, and at level 0 a decrement, leaves the curriculum as it
    is.  Eight increments of "problem_type_weights" from the initial state
    of [IntermediateIntegrationCurriculum] end at level 7, the last of its
    eight levels. *)
Theorem attr_level_clamped :
  (forall (self : BaseCurriculum) (attr_name : string)
          (attr : ScalarAttributeDefinition) (level : Z),
     get_attribute self attr_name = Some attr ->
     get_attr_level self attr_name = Some level ->
     0 <= level <= Z.of_nat (length (levels attr)) - 1 ->
     exists up down,
       increment_attr_level self attr_name = Some up
       /\ decrement_attr_level self attr_name = Some down
       /\ get_attr_level up attr_name
          = Some (Z.min (level + 1) (Z.of_nat (length (levels attr)) - 1))
       /\ get_attr_level down attr_name = Some (Z.max (level - 1) 0)
       /\ (level = Z.of_nat (length (levels attr)) - 1 -> up = self)
       /\ (level = 0 -> down = self))
  /\ (self ← increments 8 "problem_type_weights" IntermediateIntegrationCurriculum_init;
      get_attr_level self "problem_type_weights") = Some 7
  /\ (attr ← get_attribute IntermediateIntegrationCurriculum_init "problem_type_weights";
      Some (length (levels attr))) = Some 8%nat.
Proof.
  split; [|split; reflexivity].
  intros self attr_name attr level Ha Hl Hrange.
  rewrite (increment_attr_level_Some _ _ _ _ Ha Hl).
  rewrite (decrement_attr_level_Some _ _ _ _ Ha Hl).
  eexists _, _. split; [done|]. split; [done|].
  destruct (Z.leb_spec (level + 1) (Z.of_nat (length (levels attr)) - 1));
    destruct (Z.leb_spec 0 (level - 1));
    rewrite ?(get_attr_level_set_attr_level _ _ _ _ Ha), ?Hl;
    repeat split; intros; f_equal; lia.
Qed.

(** C7 on the initial curriculum: one increment from level 0 gives level 1,
    one decrement leaves level 0. *)
Lemma attr_level_clamped_example :
  exists up down,
    increment_attr_level IntermediateIntegrationCurriculum_init "problem_type_weights"
    = Some up
    /\ decrement_attr_level IntermediateIntegrationCurriculum_init "problem_type_weights"
       = Some down
    /\ get_attr_level up "problem_type_weights" = Some 1
    /\ get_attr_level down "problem_type_weights" = Some 0
    /\ down = IntermediateIntegrationCurriculum_init.
Proof.
  destruct (get_attribute IntermediateIntegrationCurriculum_init "problem_type_weights")
    as [attr|] eqn:Ha; [|discriminate Ha].
  injection Ha as <-.
  destruct (proj1 attr_level_clamped IntermediateIntegrationCurriculum_init
              "problem_type_weights" _ 0 eq_refl eq_refl)
    as (up & down & Hup & Hdown & Hlu & Hld & _ & Hfix).
  { simpl. lia. }
  exists up, down. repeat split; try done. by apply Hfix.
Defined.

Lemma at_level_get_attribute self level attr_name attr :
  at_level self level ->
  get_attribute self attr_name = Some attr ->
  attr_name = "problem_type_weights" /\ length (levels attr) = 8%nat.
Proof.
  intros (_ & Hattrs & _ & _). unfold get_attribute. rewrite Hattrs.
  change (attributes IntermediateIntegrationCurriculum_init)
    with [problem_type_weights_attribute].
  unfold List.find.
  change (name problem_type_weights_attribute) with "problem_type_weights".
  destruct (String.eqb_spec "problem_type_weights" attr_name) as [<-|]; [|done].
  by intros [= <-].
Qed.

Lemma at_level_get_attr_level self level attr_name attr :
  at_level self level ->
  get_attribute self attr_name = Some attr ->
  get_attr_level self attr_name = Some level.
Proof.
  intros Hat Ha. destruct (at_level_get_attribute _ _ _ _ Hat Ha) as [-> _].
  destruct Hat as (_ & _ & Hl & _).
  unfold get_attr_level. rewrite Ha, Hl. simpl. apply lookup_singleton_eq.
Qed.

Lemma at_level_set_attr_level self level level' :
  at_level self level -> 0 <= level' <= 7 ->
  at_level (set_attr_level self "problem_type_weights" level') level'.
Proof.
  intros (Hn & Ha & Hl & _) Hr. repeat split; try done; try lia.
  simpl. rewrite Hl. apply insert_singleton_eq.
Qed.

Lemma reachable_at_level self : reachable self -> exists level, at_level self level.
Proof.
  induction 1 as [|self attr_name self' _ [level Hat] Hstep
                  |self attr_name self' _ [level Hat] Hstep].
  - exists 0. repeat split; try done; lia.
  - destruct (get_attribute self attr_name) as [attr|] eqn:Ha;
      [|by unfold increment_attr_level in Hstep; rewrite Ha in Hstep].
    pose proof (at_level_get_attr_level _ _ _ _ Hat Ha) as Hl.
    destruct (at_level_get_attribute _ _ _ _ Hat Ha) as [-> Hlen].
    rewrite (increment_attr_level_Some _ _ _ _ Ha Hl), Hlen in Hstep.
    injection Hstep as <-.
    destruct (Z.leb_spec (level + 1) (Z.of_nat 8 - 1)).
    + exists (level + 1). apply (at_level_set_attr_level _ _ _ Hat).
      destruct Hat as (_ & _ & _ & ?). lia.
    + by exists level.
  - destruct (get_attribute self attr_name) as [attr|] eqn:Ha;
      [|by unfold decrement_attr_level in Hstep; rewrite Ha in Hstep].
    pose proof (at_level_get_attr_level _ _ _ _ Hat Ha) as Hl.
    destruct (at_level_get_attribute _ _ _ _ Hat Ha) as [-> Hlen].
    rewrite (decrement_attr_level_Some _ _ _ _ Ha Hl) in Hstep.
    injection Hstep as <-.
    destruct (Z.leb_spec 0 (level - 1)).
    + exists (level - 1). apply (at_level_set_attr_level _ _ _ Hat).
      destruct Hat as (_ & _ & _ & ?). lia.
    + by exists level.
Qed.

Lemma at_level_generate_configuration self level :
  at_level self level ->
  exists cfg, generate_configuration self = Ok cfg /\ validate cfg = Ok tt.
Proof.
  intros (_ & Ha & Hl & Hr). unfold generate_configuration. rewrite Ha, Hl.
  assert (Hcases : level = 0 \/ level = 1 \/ level = 2 \/ level = 3
                   \/ level = 4 \/ level = 5 \/ level = 6 \/ level = 7) by lia.
  destruct Hcases as [->|[->|[->|[->|[->|[->|[->| ->]]]]]]];
    eexists; split; vm_compute; reflexivity.
Qed.

(** C8. At every curriculum reachable from the initial state of
    [IntermediateIntegrationCurriculum] by increments and decrements, the
    configuration materialized at the current levels passes [validate()];
    and every level of "problem_type_weights" is a list of as many weights
    as the default [problem_types] has entries. *)
Theorem reachable_configuration_valid (self : BaseCurriculum) :
  reachable self ->
  (exists cfg, generate_configuration self = Ok cfg /\ validate cfg = Ok tt)
  /\ forall attr level,
       attr ∈ attributes self -> level ∈ levels attr ->
       exists weights, as_list as_float level = Ok weights
                       /\ length weights = length default_problem_types.
Proof.
  intros [level Hat]%reachable_at_level. split.
  - by apply (at_level_generate_configuration self level).
  - destruct Hat as (_ & -> & _ & _). intros attr lv Ha Hlv.
    apply list_elem_of_singleton in Ha as ->. simpl in Hlv.
    repeat (apply elem_of_cons in Hlv as [->|Hlv]; [eexists; split; reflexivity|]).
    by apply elem_of_nil in Hlv.
Qed.

(** C8 after three increments and one decrement. *)
Lemma reachable_configuration_valid_example :
  exists self cfg,
    (c ← increments 3 "problem_type_weights" IntermediateIntegrationCurriculum_init;
     decrement_attr_level c "problem_type_weights") = Some self
    /\ generate_configuration self = Ok cfg
    /\ validate cfg = Ok tt
    /\ problem_type_weights cfg
       = [float_0; float_0; float_1; float_0; float_0; float_0; float_0; float_0].
Proof.
  pose (c1 := set_attr_level IntermediateIntegrationCurriculum_init "problem_type_weights" 1).
  pose (c2 := set_attr_level c1 "problem_type_weights" 2).
  pose (c3 := set_attr_level c2 "problem_type_weights" 3).
  pose (c4 := set_attr_level c3 "problem_type_weights" 2).
  assert (Hreach : reachable c4).
  { apply (reachable_decrement c3 "problem_type_weights"); [|reflexivity].
    apply (reachable_increment c2 "problem_type_weights"); [|reflexivity].
    apply (reachable_increment c1 "problem_type_weights"); [|reflexivity].
    apply (reachable_increment IntermediateIntegrationCurriculum_init
             "problem_type_weights"); [|reflexivity].
    apply reachable_init. }
  destruct (proj1 (reachable_configuration_valid c4 Hreach)) as (cfg & Hcfg & Hvalid).
  exists c4, cfg. split; [reflexivity|]. split; [exact Hcfg|]. split; [exact Hvalid|].
  vm_compute in Hcfg. injection Hcfg as <-. reflexivity.
Defined.

(** ** Rules for [ensures] *)

Section Ensures.
Context `{RandomSource}.

Lemma ensures_ret {A} (a : A) (Q : A -> Prop) E : Q a -> ensures (mret a) Q E.
Proof. by intros Ha s. Qed.

Lemma ensures_bind {A B} (m : rand A) (f : A -> rand B) Q Q' E :
  ensures m Q E -> (forall a, Q a -> ensures (f a) Q' E) -> ensures (m ≫= f) Q' E.
Proof.
  intros Hm Hf s. specialize (Hm s). unfold mbind, rand_bind.
  destruct (m s) as [[a s1]|e]; [|done]. by apply Hf.
Qed.

Lemma ensures_weaken {A} (m : rand A) (Q Q' : A -> Prop) (E E' : exn -> Prop) :
  ensures m Q E -> (forall a, Q a -> Q' a) -> (forall e, E e -> E' e) ->
  ensures m Q' E'.
Proof.
  intros Hm HQ HE s. specialize (Hm s). destruct (m s) as [[a s1]|e]; auto.
Qed.

Lemma ensures_lift {A} (r : result A) (Q : A -> Prop) E :
  match r with Ok a => Q a | Raise e => E e end -> ensures (lift r) Q E.
Proof. intros Hr s. unfold lift. by destruct r. Qed.

Lemma ensures_draw {A} (f : rng_state -> A * rng_state) (Q : A -> Prop) E :
  (forall s, Q (fst (f s))) -> ensures (draw f) Q E.
Proof. intros Hf s. unfold draw. specialize (Hf s). by destruct (f s). Qed.

Lemma ensures_Ok {A} (m : rand A) Q E s a s' :
  ensures m Q E -> m s = Ok (a, s') -> Q a.
Proof. intros Hm Hs. specialize (Hm s). by rewrite Hs in Hm. Qed.

Lemma ensures_Raise {A} (m : rand A) Q E s e :
  ensures m Q E -> m s = Raise e -> E e.
Proof. intros Hm Hs. specialize (Hm s). by rewrite Hs in Hm. Qed.

(** *** Sequences *)

Lemma list_getitem_Ok {A} (seq : list A) i a : list_getitem seq i = Ok a -> a ∈ seq.
Proof.
  unfold list_getitem. destruct (_ && _); [|done].
  destruct (seq !! _) eqn:Hl; [|done]. intros [= <-].
  by apply list_elem_of_lookup_2 in Hl.
Qed.

Lemma list_getitem_Raise {A} (seq : list A) i e :
  list_getitem seq i = Raise e -> is_IndexError e.
Proof.
  unfold list_getitem, is_IndexError.
  destruct (_ && _); [destruct (seq !! _)|]; intros [= <-]; eauto.
Qed.

Lemma list_getitem_in_range {A} (seq : list A) i :
  0 <= i < Z.of_nat (length seq) -> exists a, list_getitem seq i = Ok a.
Proof.
  intros Hi. unfold list_getitem.
  destruct (Z.ltb_spec i 0); [lia|].
  destruct (Z.leb_spec 0 i); [|lia].
  destruct (Z.ltb_spec i (Z.of_nat (length seq))); [|lia]. simpl.
  destruct (lookup_lt_is_Some_2 seq (Z.to_nat i)) as [a ->]; [lia|]. by exists a.
Qed.

(** *** bisect *)

Lemma bisect_loop_rounds a x (n m : nat) lo hi :
  (Z.to_nat (hi - lo) <= n)%nat -> (n <= m)%nat ->
  bisect_loop n a x lo hi = bisect_loop m a x lo hi.
Proof.
  revert m lo hi. induction n as [|n IH]; intros m lo hi Hn Hm.
  - destruct m as [|m]; [done|]. simpl.
    destruct (Z.ltb_spec lo hi); [lia|done].
  - destruct m as [|m]; [lia|]. simpl.
    destruct (Z.ltb_spec lo hi) as [Hlt|]; [|done].
    assert (lo <= (lo + hi) / 2 < hi) by (split; [apply Z.div_le_lower_bound|apply Z.div_lt_upper_bound]; lia).
    destruct (float_lt _ _); apply IH; lia.
Qed.


(** *** The random module, for any source *)

Lemma randint_outcome a b : ensures (randint a b) (fun _ => True) is_ValueError.
Proof.
  intros s. unfold randint, randrange. destruct (0 <? _).
  - unfold mbind, rand_bind, draw. by destruct (randbelow _ s).
  - simpl. by eexists.
Qed.

Lemma choice_outcome {A} (seq : list A) :
  ensures (choice seq) (fun a => a ∈ seq) is_IndexError.
Proof.
  intros s. unfold choice. destruct (_ =? _)%nat.
  - simpl. by eexists.
  - unfold mbind, rand_bind, draw. destruct (randbelow _ s) as [i s1].
    unfold lift. destruct (list_getitem seq i) eqn:Hg.
    + by apply list_getitem_Ok in Hg.
    + by apply list_getitem_Raise in Hg.
Qed.

Lemma choices_draws_outcome {A} (population : list A) cum_weights total hi k :
  ensures (choices_draws population cum_weights total hi k)
          (fun drawn => Forall (fun a => a ∈ population) drawn) is_IndexError.
Proof.
  induction k as [|k IH]; simpl.
  - by apply ensures_ret.
  - eapply ensures_bind; [by apply (ensures_draw _ (fun _ => True))|]. intros u _.
    eapply ensures_bind.
    { apply (ensures_lift _ (fun a => a ∈ population)).
      destruct (list_getitem _ _) eqn:Hg.
      - by apply list_getitem_Ok in Hg.
      - by apply list_getitem_Raise in Hg. }
    intros a Ha. eapply ensures_bind; [apply IH|].
    intros rest Hrest. apply ensures_ret. by constructor.
Qed.

Lemma choices_outcome {A} (population : list A) weights k :
  ensures (choices population weights k)
          (fun drawn => Forall (fun a => a ∈ population) drawn)
          (fun e => is_IndexError e \/ is_ValueError e).
Proof.
  unfold choices. destruct (negb _).
  - apply ensures_lift. right. by eexists.
  - eapply ensures_bind.
    { apply (ensures_lift _ (fun _ => True)).
      destruct (list_getitem _ _) eqn:Hg; [done|].
      left. by apply list_getitem_Raise in Hg. }
    intros last _. cbv zeta. destruct (float_le _ _).
    + apply ensures_lift. right. by eexists.
    + destruct (negb _).
      * apply ensures_lift. right. by eexists.
      * eapply ensures_weaken; [apply choices_draws_outcome|done|by left].
Qed.
End Ensures.

(** ** No local variable is read unbound *)

Section Bound.
Context `{RandomSource} `{SymPy}.
Variable self : IntermediateIntegrationDataset.

Lemma index_not_unbound e : is_IndexError e -> not_unbound e.
Proof. by intros [msg ->] name. Qed.

Lemma value_not_unbound e : is_ValueError e -> not_unbound e.
Proof. by intros [msg ->] name. Qed.

Lemma randint_bound a b : ensures (randint a b) (fun _ => True) not_unbound.
Proof.
  eapply ensures_weaken; [apply randint_outcome|done|apply value_not_unbound].
Qed.

Lemma choice_bound {A} (seq : list A) :
  ensures (choice seq) (fun a => a ∈ seq) not_unbound.
Proof.
  eapply ensures_weaken; [apply choice_outcome|done|apply index_not_unbound].
Qed.

Lemma list_getitem_bound {A} (seq : list A) i :
  ensures (lift (list_getitem seq i)) (fun _ => True) not_unbound.
Proof.
  apply ensures_lift. destruct (list_getitem seq i) eqn:Hg; [done|].
  apply list_getitem_Raise in Hg. by apply index_not_unbound.
Qed.

Lemma random_bound : ensures (draw random) (fun _ => True) not_unbound.
Proof. by apply ensures_draw. Qed.

(** one statement of a generator: a draw, then the rest *)
Ltac bound_bind rule := eapply ensures_bind; [apply rule|]; intros ? ?.

Ltac bound_steps :=
  repeat first
    [ apply ensures_ret; done
    | bound_bind randint_bound
    | bound_bind (@choice_bound string)
    | bound_bind (@choice_bound Expr)
    | bound_bind (@choice_bound (Expr * Expr))
    | bound_bind (@list_getitem_bound Z)
    | bound_bind random_bound ].

Lemma get_outer_constant_bound :
  ensures (_get_outer_constant self) (fun _ => True) not_unbound.
Proof. unfold _get_outer_constant. bound_steps. Qed.

Lemma signed_coefficient_bound :
  ensures (signed_coefficient self) (fun _ => True) not_unbound.
Proof. unfold signed_coefficient. bound_steps. Qed.

Lemma signed_terms_bound n :
  ensures (signed_terms self n) (fun _ => True) not_unbound.
Proof.
  induction n as [|n IH]; simpl; [by apply ensures_ret|].
  bound_bind signed_coefficient_bound. bound_bind IH. by apply ensures_ret.
Qed.

Ltac generator_steps :=
  repeat first
    [ progress bound_steps
    | bound_bind get_outer_constant_bound
    | bound_bind signed_coefficient_bound
    | bound_bind signed_terms_bound ].

Lemma linear_bound x :
  ensures (_generate_linear_substitution_problem self x) (fun _ => True) not_unbound.
Proof. unfold _generate_linear_substitution_problem. generator_steps. Qed.

Lemma exponential_bound x :
  ensures (_generate_exponential_substitution self x) (fun _ => True) not_unbound.
Proof.
  unfold _generate_exponential_substitution.
  bound_bind (@choice_bound string). bound_bind signed_terms_bound.
  eapply ensures_bind with (Q := fun _ => True).
  { destruct (String.eqb _ "linear"); generator_steps. }
  intros [u du_dx] _. generator_steps.
Qed.

Lemma radical_bound x :
  ensures (_generate_radical_substitution self x) (fun _ => True) not_unbound.
Proof. unfold _generate_radical_substitution. generator_steps. Qed.

Lemma trigonometric_bound x :
  ensures (_generate_trigonometric_substitution self x) (fun _ => True) not_unbound.
Proof. unfold _generate_trigonometric_substitution. generator_steps. Qed.

Lemma polynomial_exp_trig_bound x :
  ensures (_generate_polynomial_exp_trig self x) (fun _ => True) not_unbound.
Proof.
  unfold _generate_polynomial_exp_trig.
  bound_bind randint_bound. bound_bind (@choice_bound string).
  eapply ensures_bind with (Q := fun _ => True).
  { destruct (String.eqb _ "exp"); generator_steps. }
  intros transcendental _. generator_steps.
Qed.

(** [func] is bound: the function type drawn is one of the three the
    [if]/[elif] chain tests. *)
Lemma log_inverse_trig_bound x :
  ensures (_generate_log_inverse_trig self x) (fun _ => True) not_unbound.
Proof.
  unfold _generate_log_inverse_trig.
  eapply ensures_bind; [apply (@choice_bound string)|]. intros func_type Hin.
  bound_bind randint_bound.
  eapply ensures_bind with (Q := fun func => is_Some func).
  { repeat (apply elem_of_cons in Hin as [->|Hin]); [| | |by apply elem_of_nil in Hin];
      simpl.
    - bound_bind random_bound.
      eapply ensures_bind with (Q := fun _ => True);
        [destruct (float_lt _ _); generator_steps|].
      intros log_arg _. by apply ensures_ret.
    - by apply ensures_ret.
    - by apply ensures_ret. }
  intros func [f ->]. bound_bind get_outer_constant_bound.
  eapply ensures_bind with (Q := fun _ => True); [by apply ensures_lift|].
  intros ? _. by apply ensures_ret.
Qed.

Lemma cyclic_bound x :
  ensures (_generate_cyclic_integral self x) (fun _ => True) not_unbound.
Proof. unfold _generate_cyclic_integral. generator_steps. Qed.

Lemma repeated_parts_bound x :
  ensures (_generate_repeated_parts self x) (fun _ => True) not_unbound.
Proof. unfold _generate_repeated_parts. generator_steps. Qed.

Lemma assigned_ensures {A} (m : rand A) E :
  ensures m (fun _ => True) E -> ensures (assigned m) is_Some E.
Proof.
  intros Hm. unfold assigned. eapply ensures_bind; [exact Hm|].
  intros a _. by apply ensures_ret.
Qed.

(** Every default problem type has its branch. *)
Lemma dispatch_bound problem_type x :
  problem_type ∈ default_problem_types ->
  ensures (dispatch self problem_type x) is_Some not_unbound.
Proof.
  intros Hin. unfold default_problem_types in Hin.
  repeat (apply elem_of_cons in Hin as [->|Hin]); [..|by apply elem_of_nil in Hin];
    unfold dispatch; simpl; apply assigned_ensures;
    auto using linear_bound, exponential_bound, radical_bound, trigonometric_bound,
      polynomial_exp_trig_bound, log_inverse_trig_bound, cyclic_bound,
      repeated_parts_bound.
Qed.
End Bound.

Section Exhaustive.
Context `{RandomSource} `{SymPy}.

Lemma library_not_unbound {A} (r : string + A) :
  match call r with Ok _ => True | Raise e => not_unbound e end.
Proof. by destruct r. Qed.

Lemma generate_item_bound self :
  problem_types (config self) = default_problem_types ->
  ensures (generate_item self) (fun _ => True) not_unbound.
Proof.
  intros Htypes. unfold generate_item. rewrite Htypes.
  eapply ensures_bind.
  { eapply ensures_weaken; [apply choices_outcome|done|].
    intros e [He|He]; [by apply index_not_unbound|by apply value_not_unbound]. }
  intros drawn Hdrawn.
  eapply ensures_bind.
  { apply (ensures_lift _ (fun a => a ∈ default_problem_types)).
    destruct (list_getitem drawn 0) as [problem_type|e] eqn:Hg.
    - apply list_getitem_Ok in Hg. by apply (proj1 (Forall_forall _ _) Hdrawn).
    - apply list_getitem_Raise in Hg. by apply index_not_unbound. }
  intros problem_type Hin.
  eapply ensures_bind; [apply choice_bound|]. intros symbol _.
  eapply ensures_bind; [by apply dispatch_bound|]. intros integrand [i ->].
  eapply ensures_bind with (Q := fun _ => True); [by apply ensures_lift|].
  intros integrand _.
  eapply ensures_bind with (Q := fun _ => True).
  { apply ensures_lift. apply library_not_unbound. }
  intros answer _.
  eapply ensures_bind; [apply choice_bound|]. intros template _.
  by apply ensures_ret.
Qed.

Lemma validate_with_problem_types c types :
  length types = length (problem_types c) ->
  validate (with_problem_types c types) = validate c.
Proof. intros Hlen. unfold validate. simpl. by rewrite Hlen. Qed.

(** C9. With the default eight problem types, every problem type that
    [choices] can draw has its branch in the [if]/[elif] chain of
    [__getitem__]: [integrand] is assigned whenever the chain returns, and
    [__getitem__] never raises UnboundLocalError.  [validate()] does not look
    at what [problem_types] contains: replacing the entries by any others, as
    many, does not change its outcome. *)
Theorem dispatch_exhaustive (self : IntermediateIntegrationDataset) (index : Z) :
  problem_types (config self) = default_problem_types ->
  (forall name, getitem self index <> Raise (UnboundLocalError name))
  /\ (forall s drawn s1 problem_type,
        choices (problem_types (config self)) (problem_type_weights (config self)) 1 s
        = Ok (drawn, s1) ->
        list_getitem drawn 0 = Ok problem_type ->
        problem_type ∈ default_problem_types
        /\ forall x s2 integrand s3,
             dispatch self problem_type x s2 = Ok (integrand, s3) -> is_Some integrand)
  /\ (forall types,
        length types = length (problem_types (config self)) ->
        validate (with_problem_types (config self) types) = validate (config self)).
Proof.
  intros Htypes. split; [|split].
  - intros name Hraise. unfold getitem in Hraise.
    apply result_bind_Raise in Hraise as [Hraise|([item s'] & _ & Hraise)]; [|done].
    apply (ensures_Raise _ _ _ _ _ (generate_item_bound self Htypes)) in Hraise.
    by apply (Hraise name).
  - intros s drawn s1 problem_type Hdrawn Hg. rewrite Htypes in Hdrawn.
    apply (ensures_Ok _ _ _ _ _ _ (choices_outcome _ _ _)) in Hdrawn.
    apply list_getitem_Ok in Hg.
    pose proof (proj1 (Forall_forall _ _) Hdrawn _ Hg) as Hin.
    split; [done|]. intros x s2 integrand s3.
    apply (ensures_Ok _ _ _ _ _ _ (dispatch_bound self problem_type x Hin)).
  - intros types. apply validate_with_problem_types.
Qed.
End Exhaustive.

(** C9 on the example dataset. *)
Lemma dispatch_exhaustive_example :
  @getitem Lcg.source Scripted.engine Sample.dataset 4
  <> Raise (UnboundLocalError "integrand").
Proof.
  exact (proj1 (@dispatch_exhaustive Lcg.source Scripted.engine Sample.dataset 4
                  eq_refl) "integrand").
Defined.

(** A problem type without a branch passes [validate()] and leaves
    [integrand] unbound. *)
Example unknown_problem_type_unbound :
  let c := with_problem_types Sample.config_42
             ["fourier"; "fourier"; "fourier"; "fourier";
              "fourier"; "fourier"; "fourier"; "fourier"] in
  validate c = Ok tt
  /\ (self ← IntermediateIntegrationDataset_init c 0;
      @getitem Lcg.source Scripted.engine self 0)
     = Raise (UnboundLocalError "integrand").
Proof. split; reflexivity. Qed.

(** ** Integrands that are not the zero expression *)

Section NotZero.
#[local] Open Scope R_scope.

Lemma not_zero_at e undefined symbol :
  eval undefined symbol e <> 0 -> ~ zero_expression e.
Proof. intros Hne Hz. apply Hne, Hz. Qed.

Lemma IZR_nonzero z : (z <> 0)%Z -> IZR z <> 0.
Proof. apply not_0_IZR. Qed.

Lemma product_nonzero a b : a <> 0 -> b <> 0 -> a * b <> 0.
Proof. apply Rmult_integral_contrapositive_currified. Qed.

Lemma sin_PI4_nonzero : sin (PI / 4) <> 0.
Proof.
  apply Rgt_not_eq, sin_gt_0; [apply PI4_RGT_0|].
  pose proof PI_RGT_0. lra.
Qed.

Lemma cos_PI4_nonzero : cos (PI / 4) <> 0.
Proof.
  apply Rgt_not_eq, cos_gt_0; [|apply PI4_RLT_PI2].
  pose proof PI_RGT_0. lra.
Qed.

Lemma PI4_nonzero : PI / 4 <> 0.
Proof. apply Rgt_not_eq, PI4_RGT_0. Qed.

Lemma exp_nonzero t : exp t <> 0.
Proof. apply Rgt_not_eq, exp_pos. Qed.

(** the point where [a*x + b] takes the value [y] *)
Lemma linear_at a b y :
  (a <> 0)%Z -> IZR a * ((y - IZR b) / IZR a) + IZR b = y.
Proof. intros Ha%IZR_nonzero. field. exact Ha. Qed.

Lemma linear_not_zero c a b d name :
  (c <> 0)%Z -> (a <> 0)%Z ->
  ~ zero_expression
      (Mul (Integer c)
           (Pow (Add (Mul (Integer a) (Symbol name)) (Integer b)) (Integer d))).
Proof.
  intros Hc Ha.
  apply (not_zero_at _ (fun _ _ => 0) (fun _ => (1 - IZR b) / IZR a)).
  cbn [eval]. rewrite (linear_at a b 1 Ha), powerRZ_R1, Rmult_1_r.
  by apply IZR_nonzero.
Qed.

Lemma exponential_linear_not_zero k u :
  (k <> 0)%Z -> ~ zero_expression (Mul (Integer k) (Function "exp" u)).
Proof.
  intros Hk. apply (not_zero_at _ (fun _ _ => 0) (fun _ => 0)).
  cbn [eval]. apply product_nonzero; [by apply IZR_nonzero|apply exp_nonzero].
Qed.

Lemma exponential_quadratic_not_zero c t0 t1 u name :
  (c <> 0)%Z -> (t1 <> 0)%Z ->
  ~ zero_expression
      (Mul (Mul (Integer c) (Add (Mul (Integer (2 * t0)) (Symbol name)) (Integer t1)))
           (Function "exp" u)).
Proof.
  intros Hc Ht. apply (not_zero_at _ (fun _ _ => 0) (fun _ => 0)).
  cbn [eval]. rewrite Rmult_0_r, Rplus_0_l.
  repeat apply product_nonzero; [by apply IZR_nonzero..|apply exp_nonzero].
Qed.

Lemma radical_not_zero c a b name :
  (c <> 0)%Z -> (a <> 0)%Z ->
  ~ zero_expression
      (Mul (Integer c)
           (Mul (Integer a)
                (Function "sqrt" (Add (Mul (Integer a) (Symbol name)) (Integer b))))).
Proof.
  intros Hc Ha.
  apply (not_zero_at _ (fun _ _ => 0) (fun _ => (1 - IZR b) / IZR a)).
  cbn [eval]. rewrite (linear_at a b 1 Ha).
  change (defined_function "sqrt" 1) with (sqrt 1). rewrite sqrt_1, Rmult_1_r.
  apply product_nonzero; by apply IZR_nonzero.
Qed.

Lemma trigonometric_not_zero c a b power name (sine : bool) :
  (c <> 0)%Z -> (a <> 0)%Z ->
  let inner := Add (Mul (Integer a) (Symbol name)) (Integer b) in
  ~ zero_expression
      (Mul (Integer c)
           (if sine then
              Mul (Mul (Integer a) (Function "cos" inner))
                  (Pow (Function "sin" inner) (Integer power))
            else
              Mul (Mul (Integer (- a)) (Function "sin" inner))
                  (Pow (Function "cos" inner) (Integer power)))).
Proof.
  intros Hc Ha inner.
  apply (not_zero_at _ (fun _ _ => 0) (fun _ => (PI / 4 - IZR b) / IZR a)).
  destruct sine; cbn [eval inner]; rewrite (linear_at a b (PI / 4) Ha);
    change (defined_function "sin" (PI / 4)) with (sin (PI / 4));
    change (defined_function "cos" (PI / 4)) with (cos (PI / 4));
    repeat apply product_nonzero;
    try (apply IZR_nonzero; lia);
    try apply powerRZ_NOR;
    auto using sin_PI4_nonzero, cos_PI4_nonzero.
Qed.

Lemma polynomial_exp_not_zero c n name :
  (c <> 0)%Z ->
  ~ zero_expression
      (Mul (Integer c)
           (Mul (Pow (Symbol name) (Integer n)) (Function "exp" (Symbol name)))).
Proof.
  intros Hc. apply (not_zero_at _ (fun _ _ => 0) (fun _ => 1)).
  cbn [eval]. rewrite powerRZ_R1, Rmult_1_l.
  apply product_nonzero; [by apply IZR_nonzero|apply exp_nonzero].
Qed.

Lemma polynomial_undefined_not_zero c n f k name :
  (c <> 0)%Z ->
  ~ zero_expression
      (Mul (Integer c)
           (Mul (Pow (Symbol name) (Integer n))
                (UndefinedFunction f (Mul (Integer k) (Symbol name))))).
Proof.
  intros Hc. apply (not_zero_at _ (fun _ _ => 1) (fun _ => 1)).
  cbn [eval]. rewrite powerRZ_R1, !Rmult_1_r. by apply IZR_nonzero.
Qed.

Lemma log_not_zero c name :
  (c <> 0)%Z -> ~ zero_expression (Mul (Integer c) (Function "log" (Symbol name))).
Proof.
  intros Hc. apply (not_zero_at _ (fun _ _ => 0) (fun _ => exp 1)).
  cbn [eval]. change (defined_function "log" (exp 1)) with (ln (exp 1)).
  rewrite ln_exp, Rmult_1_r. by apply IZR_nonzero.
Qed.

Lemma ln_power_exp (n : nat) : ln (exp 1 ^ n) = INR n.
Proof.
  induction n as [|n IH]; [apply ln_1|].
  rewrite <- tech_pow_Rmult, ln_mult, IH, ln_exp, S_INR;
    [lra|apply exp_pos|apply pow_lt, exp_pos].
Qed.

Lemma log_power_not_zero c e name :
  (c <> 0)%Z -> (2 <= e <= 3)%Z ->
  ~ zero_expression
      (Mul (Integer c) (Function "log" (Pow (Symbol name) (Integer e)))).
Proof.
  intros Hc He. apply (not_zero_at _ (fun _ _ => 0) (fun _ => exp 1)).
  cbn [eval].
  change (defined_function "log" ?t) with (ln t).
  assert (Hcases : e = Z.of_nat 2 \/ e = Z.of_nat 3) by lia.
  destruct Hcases as [-> | ->]; rewrite <- pow_powerRZ, ln_power_exp;
    (apply product_nonzero; [by apply IZR_nonzero|simpl; lra]).
Qed.

Lemma inverse_at k : (1 <= k <= 3)%Z -> IZR k * (1 / IZR k) = 1.
Proof. intros Hk. field. apply IZR_nonzero. lia. Qed.

Lemma asin_not_zero c k name :
  (c <> 0)%Z -> (1 <= k <= 3)%Z ->
  ~ zero_expression
      (Mul (Integer c) (Function "asin" (Mul (Integer k) (Symbol name)))).
Proof.
  intros Hc Hk. apply (not_zero_at _ (fun _ _ => 0) (fun _ => 1 / IZR k)).
  cbn [eval]. rewrite (inverse_at k Hk).
  change (defined_function "asin" 1) with (asin 1). rewrite asin_1.
  apply product_nonzero; [by apply IZR_nonzero|].
  pose proof PI_RGT_0. lra.
Qed.

Lemma atan_not_zero c k name :
  (c <> 0)%Z -> (1 <= k <= 3)%Z ->
  ~ zero_expression
      (Mul (Integer c) (Function "atan" (Mul (Integer k) (Symbol name)))).
Proof.
  intros Hc Hk. apply (not_zero_at _ (fun _ _ => 0) (fun _ => 1 / IZR k)).
  cbn [eval]. rewrite (inverse_at k Hk).
  change (defined_function "atan" 1) with (atan 1). rewrite atan_1.
  apply product_nonzero; [by apply IZR_nonzero|apply PI4_nonzero].
Qed.

(** a product of [x**n], [exp(x)], [sin(x)] and [cos(x)] is not zero at
    [x = PI/4] *)
Lemma elementary_at_PI4 name e undefined :
  elementary name e -> eval undefined (fun _ => PI / 4) e <> 0.
Proof.
  intros [->|[->| ->]]; cbn [eval].
  - apply exp_nonzero.
  - apply sin_PI4_nonzero.
  - apply cos_PI4_nonzero.
Qed.

Lemma cyclic_not_zero c f g name :
  (c <> 0)%Z -> elementary name f -> elementary name g ->
  ~ zero_expression (Mul (Integer c) (Mul f g)).
Proof.
  intros Hc Hf Hg. apply (not_zero_at _ (fun _ _ => 0) (fun _ => PI / 4)).
  cbn [eval]. repeat apply product_nonzero;
    [by apply IZR_nonzero|by apply (elementary_at_PI4 name)..].
Qed.

Lemma repeated_parts_not_zero c n f name :
  (c <> 0)%Z -> elementary name f ->
  ~ zero_expression (Mul (Integer c) (Mul (Pow (Symbol name) (Integer n)) f)).
Proof.
  intros Hc Hf. apply (not_zero_at _ (fun _ _ => 0) (fun _ => PI / 4)).
  cbn [eval]. repeat apply product_nonzero;
    [by apply IZR_nonzero|apply powerRZ_NOR, PI4_nonzero
    |by apply (elementary_at_PI4 name)].
Qed.
End NotZero.

(** ** The random module, for a lawful source *)

Section Lawful.
Context `{RandomSource} {laws : RandomSourceLaws _}.

Lemma randint_range a b :
  ensures (randint a b) (fun v => a <= v <= b) (fun _ => b < a).
Proof.
  intros s. unfold randint, randrange.
  destruct (Z.ltb_spec 0 (b + 1 - a)) as [Hw|Hw]; [|simpl; lia].
  unfold mbind, rand_bind, draw, mret, rand_ret.
  pose proof (randbelow_range _ s Hw) as Hr.
  destruct (randbelow (b + 1 - a) s) as [r s1]. simpl in Hr. lia.
Qed.

Lemma choice_total {A} (seq : list A) :
  ensures (choice seq) (fun a => a ∈ seq) (fun _ => seq = []).
Proof.
  intros s. unfold choice.
  destruct (Nat.eqb_spec (length seq) 0) as [Hl|Hl].
  - simpl. by apply nil_length_inv.
  - unfold mbind, rand_bind, draw.
    pose proof (randbelow_range (Z.of_nat (length seq)) s ltac:(lia)) as Hr.
    destruct (randbelow _ s) as [i s1]. simpl in Hr.
    destruct (list_getitem_in_range seq i Hr) as [a Ha].
    unfold lift. rewrite Ha. by apply list_getitem_Ok in Ha.
Qed.

Lemma randint_in a b : ensures (randint a b) (fun v => a <= v <= b) (fun _ => True).
Proof. eapply ensures_weaken; [apply randint_range|done..]. Qed.

Lemma choice_in {A} (seq : list A) :
  ensures (choice seq) (fun a => a ∈ seq) (fun _ => True).
Proof. eapply ensures_weaken; [apply choice_total|done..]. Qed.

Variable self : IntermediateIntegrationDataset.
Hypothesis Hvalid : valid (config self).

(** [_get_outer_constant] returns a nonzero constant of the configured
    range, unless it has no operator to choose from. *)
Lemma get_outer_constant_range :
  ensures (_get_outer_constant self)
          (fun v => v <> 0
                    /\ outer_constant_min (config self) <= Z.abs v
                       <= outer_constant_max (config self))
          (fun _ => operators (config self) = []).
Proof using laws Hvalid.
  destruct Hvalid as (_ & _ & _ & _ & _ & _ & Hmin & Hmax & _).
  unfold _get_outer_constant.
  eapply ensures_bind.
  { eapply ensures_weaken; [apply randint_range|intros a Ha; exact Ha|].
    intros e Hlt. simpl in Hlt. lia. }
  intros value Hv. simpl in Hv.
  eapply ensures_bind; [apply choice_total|]. intros op _.
  apply ensures_ret. destruct (String.eqb op "-"); lia.
Qed.

Lemma get_outer_constant_in :
  ensures (_get_outer_constant self)
          (fun v => v <> 0
                    /\ outer_constant_min (config self) <= Z.abs v
                       <= outer_constant_max (config self))
          (fun _ => True).
Proof using laws Hvalid.
  eapply ensures_weaken; [apply get_outer_constant_range|done..].
Qed.

Lemma signed_coefficient_in :
  ensures (signed_coefficient self) (fun t => t <> 0) (fun _ => True).
Proof using laws Hvalid.
  destruct Hvalid as (_ & _ & Hmin & Hmax & _).
  unfold signed_coefficient.
  eapply ensures_bind; [apply choice_in|]. intros op _.
  eapply ensures_bind; [apply randint_in|]. intros value Hv. simpl in Hv.
  apply ensures_ret. destruct (String.eqb op "-"); lia.
Qed.

Lemma signed_terms_in n :
  ensures (signed_terms self n)
          (fun terms => Forall (fun t => t <> 0) terms) (fun _ => True).
Proof using laws Hvalid.
  induction n as [|n IH]; simpl; [by apply ensures_ret|].
  eapply ensures_bind; [apply signed_coefficient_in|]. intros t Ht.
  eapply ensures_bind; [apply IH|]. intros rest Hrest.
  apply ensures_ret. by constructor.
Qed.
End Lawful.

(** ** What the generators return *)

Section Integrands.
Context `{RandomSource} {laws : RandomSourceLaws _}.
Variable self : IntermediateIntegrationDataset.
Hypothesis Hvalid : valid (config self).
Variable name : string.

Lemma scaled_product k body :
  k <> 0 ->
  outer_constant_min (config self) <= Z.abs k <= outer_constant_max (config self) ->
  ~ zero_expression (Mul (Integer k) body) ->
  (scaled_nonzero (config self)) (Mul (Integer k) body).
Proof.
  intros Hk Hr Hnz. split; [|done].
  exists k. split; [done|]. split; [done|]. left. by eexists.
Qed.

Lemma list_getitem_in {A} (seq : list A) i :
  ensures (lift (list_getitem seq i)) (fun a => a ∈ seq) (fun _ => True).
Proof.
  apply ensures_lift. destruct (list_getitem seq i) eqn:Hg; [|done].
  by apply list_getitem_Ok in Hg.
Qed.

Lemma linear_generated :
  ensures (_generate_linear_substitution_problem self (Symbol name)) (scaled_nonzero (config self)) (fun _ => True).
Proof using laws Hvalid.
  pose proof Hvalid as (_ & _ & Hlow & _).
  unfold _generate_linear_substitution_problem.
  eapply ensures_bind; [apply randint_in|]. intros a Ha. simpl in Ha.
  eapply ensures_bind; [apply randint_in|]. intros b _.
  eapply ensures_bind; [apply choice_in|]. intros op _.
  eapply ensures_bind; [apply randint_in|]. intros degree _.
  eapply ensures_bind; [by apply get_outer_constant_in|]. intros c [Hc Hr].
  apply ensures_ret, scaled_product; try done.
  apply linear_not_zero; lia.
Qed.

Lemma exponential_generated :
  ensures (_generate_exponential_substitution self (Symbol name)) (scaled_nonzero (config self)) (fun _ => True).
Proof using laws Hvalid.
  unfold _generate_exponential_substitution.
  eapply ensures_bind; [apply choice_in|]. intros exponent_type _.
  eapply ensures_bind; [by apply signed_terms_in|]. intros terms Hterms.
  assert (Hterm : forall t, t ∈ terms -> t <> 0) by by apply Forall_forall.
  eapply ensures_bind with
    (Q := fun '(u, du_dx) =>
            (exists t0, t0 <> 0 /\ du_dx = IntOperand t0)
            \/ (exists t0 t1, t1 <> 0
                  /\ du_dx = ExprOperand (Add (Mul (Integer (2 * t0)) (Symbol name)) (Integer t1)))).
  { destruct (String.eqb exponent_type "linear").
    - eapply ensures_bind; [apply list_getitem_in|]. intros t0 Ht0.
      eapply ensures_bind; [apply list_getitem_in|]. intros t1 _.
      apply ensures_ret. left. exists t0. split; [by apply Hterm|done].
    - eapply ensures_bind; [apply list_getitem_in|]. intros t0 _.
      eapply ensures_bind; [apply list_getitem_in|]. intros t1 Ht1.
      eapply ensures_bind; [apply list_getitem_in|]. intros t2 _.
      apply ensures_ret. right. exists t0, t1. split; [by apply Hterm|done]. }
  intros [u du_dx] Hdu.
  eapply ensures_bind; [by apply get_outer_constant_in|]. intros c [Hc Hr].
  apply ensures_ret.
  destruct Hdu as [(t0 & Ht0 & ->)|(t0 & t1 & Ht1 & ->)]; simpl.
  - split; [|apply exponential_linear_not_zero; lia].
    exists c. split; [done|]. split; [done|]. right. right.
    by exists t0, (Function "exp" u).
  - split; [|by apply exponential_quadratic_not_zero].
    exists c. split; [done|]. split; [done|]. right. left. by eexists _, _.
Qed.

Lemma radical_generated :
  ensures (_generate_radical_substitution self (Symbol name)) (scaled_nonzero (config self)) (fun _ => True).
Proof using laws Hvalid.
  unfold _generate_radical_substitution.
  eapply ensures_bind; [by apply signed_coefficient_in|]. intros a Ha.
  eapply ensures_bind; [by apply signed_coefficient_in|]. intros b _.
  eapply ensures_bind; [by apply get_outer_constant_in|]. intros c [Hc Hr].
  apply ensures_ret, scaled_product; try done.
  by apply radical_not_zero.
Qed.

Lemma trigonometric_generated :
  ensures (_generate_trigonometric_substitution self (Symbol name)) (scaled_nonzero (config self)) (fun _ => True).
Proof using laws Hvalid.
  unfold _generate_trigonometric_substitution.
  eapply ensures_bind; [apply choice_in|]. intros trig_func _.
  eapply ensures_bind; [by apply signed_coefficient_in|]. intros a Ha.
  eapply ensures_bind; [by apply signed_coefficient_in|]. intros b _.
  eapply ensures_bind; [apply randint_in|]. intros power _.
  eapply ensures_bind; [by apply get_outer_constant_in|]. intros c [Hc Hr].
  apply ensures_ret, scaled_product; try done.
  by apply (trigonometric_not_zero c a b power name (String.eqb trig_func "sin")).
Qed.

Lemma polynomial_exp_trig_generated :
  ensures (_generate_polynomial_exp_trig self (Symbol name)) (scaled_nonzero (config self)) (fun _ => True).
Proof using laws Hvalid.
  unfold _generate_polynomial_exp_trig.
  eapply ensures_bind; [apply randint_in|]. intros poly_degree _.
  eapply ensures_bind; [apply choice_in|]. intros func_type _.
  eapply ensures_bind with
    (Q := fun t => t = Function "exp" (Symbol name)
                   \/ exists f k, t = UndefinedFunction f (Mul (Integer k) (Symbol name))).
  { destruct (String.eqb func_type "exp").
    - apply ensures_ret. by left.
    - eapply ensures_bind; [apply randint_in|]. intros coefficient _.
      apply ensures_ret. right. by eexists _, _. }
  intros transcendental Ht.
  eapply ensures_bind; [by apply get_outer_constant_in|]. intros c [Hc Hr].
  apply ensures_ret, scaled_product; try done.
  destruct Ht as [->|(f & k & ->)].
  - by apply polynomial_exp_not_zero.
  - by apply polynomial_undefined_not_zero.
Qed.

Lemma log_inverse_trig_generated :
  ensures (_generate_log_inverse_trig self (Symbol name)) (scaled_nonzero (config self)) (fun _ => True).
Proof using laws Hvalid.
  unfold _generate_log_inverse_trig.
  eapply ensures_bind; [apply choice_in|]. intros func_type _.
  eapply ensures_bind; [apply randint_in|]. intros coefficient Hk.
  eapply ensures_bind with
    (Q := fun func => forall f c, func = Some f -> c <> 0 ->
                        ~ zero_expression (Mul (Integer c) f)).
  { destruct (String.eqb func_type "log").
    - eapply ensures_bind; [by apply (ensures_draw _ (fun _ => True))|]. intros u _.
      eapply ensures_bind with
        (Q := fun arg => arg = (Symbol name) \/ exists e, 2 <= e <= 3 /\ arg = Pow (Symbol name) (Integer e)).
      { destruct (float_lt _ _).
        - apply ensures_ret. by left.
        - eapply ensures_bind; [apply randint_in|]. intros e He.
          apply ensures_ret. right. by exists e. }
      intros log_arg Harg. apply ensures_ret. intros f c [= <-] Hc.
      destruct Harg as [->|(e & He & ->)].
      + by apply log_not_zero.
      + by apply log_power_not_zero.
    - destruct (String.eqb func_type "asin").
      + apply ensures_ret. intros f c [= <-] Hc. by apply asin_not_zero.
      + destruct (String.eqb func_type "atan").
        * apply ensures_ret. intros f c [= <-] Hc. by apply atan_not_zero.
        * by apply ensures_ret. }
  intros func Hfunc.
  eapply ensures_bind; [by apply get_outer_constant_in|]. intros c [Hc Hr].
  destruct func as [f|]; [|by intros s].
  eapply ensures_bind; [by apply (ensures_lift _ (fun f' => f' = f))|]. intros ? ->.
  apply ensures_ret, scaled_product; try done. by apply Hfunc.
Qed.

Lemma cyclic_generated :
  ensures (_generate_cyclic_integral self (Symbol name)) (scaled_nonzero (config self)) (fun _ => True).
Proof using laws Hvalid.
  unfold _generate_cyclic_integral.
  eapply ensures_bind; [apply choice_in|]. intros func_pair Hin.
  eapply ensures_bind; [by apply get_outer_constant_in|]. intros c [Hc Hr].
  apply ensures_ret, scaled_product; try done.
  repeat (apply elem_of_cons in Hin as [->|Hin]); [..|by apply elem_of_nil in Hin];
    apply (cyclic_not_zero c _ _ name); unfold elementary; simpl; auto.
Qed.

Lemma repeated_parts_generated :
  ensures (_generate_repeated_parts self (Symbol name)) (scaled_nonzero (config self)) (fun _ => True).
Proof using laws Hvalid.
  unfold _generate_repeated_parts.
  eapply ensures_bind; [apply randint_in|]. intros poly_degree _.
  eapply ensures_bind; [apply choice_in|]. intros transcendental Hin.
  eapply ensures_bind; [by apply get_outer_constant_in|]. intros c [Hc Hr].
  apply ensures_ret, scaled_product; try done.
  apply (repeated_parts_not_zero c _ _ name); [done|]. unfold elementary.
  repeat (apply elem_of_cons in Hin as [->|Hin]); [..|by apply elem_of_nil in Hin]; auto.
Qed.

Lemma assigned_generated (m : rand Expr) :
  ensures m (scaled_nonzero (config self)) (fun _ => True) ->
  ensures (assigned m) (fun integrand => forall i, integrand = Some i -> (scaled_nonzero (config self)) i)
          (fun _ => True).
Proof.
  intros Hm. unfold assigned. eapply ensures_bind; [exact Hm|].
  intros i Hi. apply ensures_ret. by intros ? [= <-].
Qed.

Lemma dispatch_generated problem_type :
  ensures (dispatch self problem_type (Symbol name))
          (fun integrand => forall i, integrand = Some i -> (scaled_nonzero (config self)) i)
          (fun _ => True).
Proof using laws Hvalid.
  unfold dispatch.
  repeat (destruct (String.eqb problem_type _);
          [apply assigned_generated;
           auto using linear_generated, exponential_generated, radical_generated,
             trigonometric_generated, polynomial_exp_trig_generated,
             log_inverse_trig_generated, cyclic_generated, repeated_parts_generated|]).
  by apply ensures_ret.
Qed.
End Integrands.

(** C10, as the code has it. For a configuration that passes
    [validate()] and has an operator to choose from, and for a random source
    that keeps the bounds its library documents, [_get_outer_constant]
    returns a nonzero integer whose absolute value lies in
    [[outer_constant_min, outer_constant_max]], and every integrand a
    generator returns is multiplied by such a constant and is not the zero
    expression. *)
Theorem outer_constant_nonzero `{RandomSource} {laws : RandomSourceLaws _}
    (self : IntermediateIntegrationDataset) :
  validate (config self) = Ok tt ->
  operators (config self) <> [] ->
  (forall s, exists value s',
     _get_outer_constant self s = Ok (value, s')
     /\ value <> 0
     /\ outer_constant_min (config self) <= Z.abs value
        <= outer_constant_max (config self))
  /\ (forall problem_type name s integrand s',
        dispatch self problem_type (Symbol name) s = Ok (Some integrand, s') ->
        scaled_nonzero (config self) integrand).
Proof.
  intros Hvalid%validate_Ok Hops. split.
  - intros s. pose proof (get_outer_constant_range self Hvalid s) as Hc.
    destruct (_get_outer_constant self s) as [[value s']|e]; [|done].
    by exists value, s'.
  - intros problem_type name s integrand s' Hd.
    by apply (ensures_Ok _ _ _ _ _ _ (dispatch_generated self Hvalid name problem_type)
                Hd integrand).
Qed.

(** ** Float arithmetic *)

Lemma digits2_pos_size p : digits2_pos p = Pos.size p.
Proof. induction p; simpl; congruence. Qed.

Lemma float_lt_0 u : float_le float_0 u = true -> float_lt u float_0 = false.
Proof. destruct u as [[]|[]| |[] m e]; simpl; done. Qed.

Lemma digits2_pos_shift m n :
  Z.pos (digits2_pos (Pos.iter xO m n)) = Z.pos (digits2_pos m) + Z.pos n.
Proof.
  induction n as [|n IH] using Pos.peano_ind.
  - simpl. lia.
  - rewrite Pos.iter_succ. cbn [digits2_pos]. lia.
Qed.

Lemma mul_pow2 m n : (Pos.iter xO 1 n * m)%positive = Pos.iter xO m n.
Proof.
  induction n as [|n IH] using Pos.peano_ind; [done|].
  rewrite !Pos.iter_succ.
  change ((Pos.iter xO 1 n)~0 * m)%positive with (Pos.iter xO 1 n * m)~0%positive.
  by rewrite IH.
Qed.

Lemma iter_pos_iter {A} (f : A -> A) n x :
  SpecFloat.iter_pos f n x = Pos.iter f x n.
Proof.
  revert x. induction n as [n IH|n IH|]; intros x; simpl; [|by rewrite !IH|done].
  by rewrite !IH, !Pos.iter_swap.
Qed.

Lemma shr_shift m n :
  SpecFloat.iter_pos shr_1 n
    {| shr_m := Z.pos (Pos.iter xO m n); shr_r := false; shr_s := false |}
  = {| shr_m := Z.pos m; shr_r := false; shr_s := false |}.
Proof.
  rewrite iter_pos_iter.
  induction n as [|n IH] using Pos.peano_ind; [done|].
  by rewrite Pos.iter_succ_r, Pos.iter_succ.
Qed.

(** multiplying a finite float by [1.0] is exact *)
Lemma float_mul_1 u :
  valid_binary 53 1024 u = true -> isfinite u = true -> float_mul u float_1 = u.
Proof.
  destruct u as [s|s| |s m e]; try done.
  - intros _ _. by destruct s.
  - intros Hb _. unfold valid_binary, bounded, canonical_mantissa in Hb.
    apply andb_prop in Hb as [Hc He]. apply Z.eqb_eq in Hc.
    unfold float_mul, float_1, SFmul. rewrite xorb_false_r.
    change 4503599627370496%positive with (Pos.iter xO 1%positive 52%positive).
    rewrite (Pos.mul_comm m), mul_pow2.
    unfold binary_round_aux, shr_fexp at 1. cbn [Zdigits2].
    rewrite digits2_pos_shift.
    replace (Z.pos (digits2_pos m) + 52 + (e + -52))
      with (Z.pos (digits2_pos m) + e) by lia.
    rewrite Hc. replace (e - (e + -52)) with 52 by lia.
    unfold shr at 1. cbn [shr_record_of_loc]. rewrite shr_shift.
    cbn [shr_m loc_of_shr_record round_nearest_even].
    unfold shr_fexp. cbn [Zdigits2 shr_record_of_loc].
    replace (e + -52 + 52) with e by lia.
    rewrite Hc, Z.sub_diag. cbn [shr shr_m]. by rewrite He.
Qed.

Lemma unit_float_isfinite u : float_lt u float_1 = true -> float_le float_0 u = true -> isfinite u = true.
Proof. destruct u as [[]|[]| |[] m e]; simpl; done. Qed.

Lemma digits2_pos_log2 m : Z.pos (digits2_pos m) = Z.log2 (Z.pos m~0).
Proof. simpl. by rewrite digits2_pos_size. Qed.

Lemma digits2_pos_bound m n : 0 <= n -> Z.pos m < 2 ^ n -> Z.pos (digits2_pos m) <= n.
Proof.
  intros Hn Hm. rewrite digits2_pos_log2.
  assert (Z.log2 (Z.pos m~0) < n + 1); [|lia].
  apply Z.log2_lt_pow2; [lia|]. rewrite Z.pow_add_r by lia. lia.
Qed.

(** [float(m * 2**e)] for an [m] of fewer than 53 bits, in the normal
    range: the mantissa is shifted to 53 bits and nothing is rounded *)
Lemma binary_normalize_exact m e :
  let d := Z.pos (digits2_pos m) in
  d < 53 -> -1074 <= d + e - 53 -> d + e - 53 <= 971 ->
  binary_normalize 53 1024 (Z.pos m) e false
  = S754_finite false (Pos.iter xO m (Z.to_pos (53 - d))) (d + e - 53).
Proof.
  intros d Hd Hmin Hmax. unfold binary_normalize, binary_round, shl_align.
  fold d.
  assert (Hf : fexp 53 1024 (d + e) = d + e - 53) by (unfold fexp, emin; lia).
  rewrite Hf.
  destruct (d + e - 53 - e) as [|p|p] eqn:Hp; [lia|lia|].
  assert (Hpd : Z.to_pos (53 - d) = p) by lia. rewrite Hpd.
  unfold binary_round_aux, shr_fexp. cbn [Zdigits2 shr_record_of_loc].
  rewrite digits2_pos_shift. fold d.
  assert (Hf' : fexp 53 1024 (d + Z.pos p + (d + e - 53)) = d + e - 53)
    by (unfold fexp, emin; lia).
  rewrite Hf', Z.sub_diag. cbn [shr shr_m loc_of_shr_record round_nearest_even].
  cbn [Zdigits2]. rewrite digits2_pos_shift. fold d.
  rewrite Hf', Z.sub_diag. cbn [shr shr_m].
  destruct (Z.leb_spec (d + e - 53) (1024 - 53)); [done|lia].
Qed.

(** [k * 2**-31] for [0 <= k < 2**31] is a float of [[0.0, 1.0)] *)
Lemma unit_float_scaled k :
  0 <= k < 2147483648 -> unit_float (float_scaled k (-31)).
Proof.
  intros Hk. unfold float_scaled. destruct k as [|m|m]; [done| |lia].
  pose proof (digits2_pos_bound m 31 ltac:(lia) ltac:(simpl; lia)) as Hd.
  rewrite binary_normalize_exact by lia.
  set (d := Z.pos (digits2_pos m)) in *.
  repeat split.
  - unfold valid_binary, bounded, canonical_mantissa.
    rewrite digits2_pos_shift. fold d.
    apply andb_true_intro. split; [apply Z.eqb_eq; unfold fexp, emin; lia|].
    apply Z.leb_le. lia.
  - unfold float_lt, float_1, SFltb, SFcompare.
    destruct (Z.compare_spec (d + -31 - 53) (-52)); [lia|done|lia].
Qed.

Lemma lcg_laws : RandomSourceLaws Lcg.source.
Proof.
  split.
  - intros n s Hn. simpl. by apply Z.mod_pos_bound.
  - intros s. simpl. apply unit_float_scaled.
    pose proof (Z.mod_pos_bound (1103515245 * s + 12345) Lcg.modulus eq_refl) as Hb.
    unfold Lcg.next, Lcg.modulus in *. lia.
Qed.

(** C10, as the code has it, on the example dataset *)
Lemma outer_constant_nonzero_example :
  exists value s',
    @_get_outer_constant Lcg.source Sample.dataset (@Random Lcg.source 42)
    = Ok (value, s')
    /\ value <> 0 /\ 1 <= Z.abs value <= 3.
Proof.
  assert (Hops : operators (config Sample.dataset) <> []) by discriminate.
  destruct (proj1 (@outer_constant_nonzero Lcg.source lcg_laws Sample.dataset
                     eq_refl Hops) (@Random Lcg.source 42))
    as (value & s' & Hvalue & Hnz & Hrange).
  by exists value, s'.
Defined.

(** C10 fails on the configuration with an empty tuple of operators: it
    passes [validate()], and [_get_outer_constant] raises IndexError. *)
Lemma outer_constant_counterexample :
  let c := with_operators Sample.config_42 [] in
  validate c = Ok tt
  /\ exists self,
       IntermediateIntegrationDataset_init c 0 = Ok self
       /\ @_get_outer_constant Lcg.source self (@Random Lcg.source 42)
          = Raise (IndexError "Cannot choose from an empty sequence").
Proof.
  split; [reflexivity|]. eexists. split; reflexivity.
Qed.

(** * Further properties of the module *)

(** ** validate, both ways *)

(** X1. [validate()] returns normally exactly when its twelve constraints
    hold, and raises AssertionError otherwise; an empty tuple of operators or
    of symbols, and an empty [problem_types] with no weights, are accepted. *)
Theorem validate_accepts_exactly (c : IntermediateIntegrationConfig) :
  (validate c = Ok tt <-> valid c)
  /\ (~ valid c -> exists msg, validate c = Raise (AssertionError msg))
  /\ (valid c -> forall types weights ops syms,
        length types = length weights ->
        Forall (fun op => op = "+" \/ op = "-") ops ->
        Forall (fun symbol => symbol = "x" \/ symbol = "X") syms ->
        validate
          {| problem_types := types; problem_type_weights := weights;
             seed := seed c; size := size c;
             linear_lower_bound := linear_lower_bound c;
             linear_upper_bound := linear_upper_bound c;
             min_linear_degree := min_linear_degree c;
             max_linear_degree := max_linear_degree c;
             outer_constant_min := outer_constant_min c;
             outer_constant_max := outer_constant_max c;
             min_poly_degree := min_poly_degree c;
             max_poly_degree := max_poly_degree c;
             symbols := syms; operators := ops |} = Ok tt).
Proof.
  split; [apply validate_Ok|]. split.
  - intros Hn. destruct (validate_total c) as [Hok|Herr]; [|done].
    by apply validate_Ok in Hok.
  - intros (_ & ? & ? & ? & ? & ? & ? & ? & ? & ? & _ & _) types weights ops syms ? ? ?.
    apply validate_Ok. unfold valid. simpl. repeat split; done.
Qed.

(** X1 on the defaults with every tuple emptied. *)
Lemma validate_accepts_empty_tuples :
  validate
    {| problem_types := []; problem_type_weights := [];
       seed := None; size := 500;
       linear_lower_bound := 1; linear_upper_bound := 10;
       min_linear_degree := 2; max_linear_degree := 4;
       outer_constant_min := 1; outer_constant_max := 3;
       min_poly_degree := 1; max_poly_degree := 3;
       symbols := []; operators := [] |} = Ok tt.
Proof.
  assert (Hvalid : valid default_config) by (apply validate_Ok; reflexivity).
  exact (proj2 (proj2 (validate_accepts_exactly default_config)) Hvalid
           [] [] [] [] eq_refl (List.Forall_nil _) (List.Forall_nil _)).
Defined.

(** ** score_answer and its entry *)

Section ScoringEntry.
Context `{SymPy}.

(** X2. The lookup [entry["metadata"]] stands before the [try] block:
    when it fails, [score_answer] raises what the lookup raises, whatever the
    answer is, [None] included -- KeyError for a dict without the key. *)
Theorem score_answer_without_metadata (answer entry : object) (e : exn) :
  subscript entry "metadata" = Raise e ->
  score_answer answer entry = Raise e
  /\ (forall d, entry = PyDict d -> e = KeyError "metadata").
Proof.
  intros He. split.
  - unfold score_answer. by rewrite He.
  - intros d ->. simpl in He. destruct (d !! "metadata"); congruence.
Qed.

(** X3. [score_answer] reads of the entry only [metadata["variable"]] and
    [metadata["integrand"]]: two entries that agree on these two lookups
    score every answer alike. *)
Theorem score_answer_reads_two_fields (answer entry1 entry2 metadata1 metadata2 : object) :
  subscript entry1 "metadata" = Ok metadata1 ->
  subscript entry2 "metadata" = Ok metadata2 ->
  subscript metadata1 "variable" = subscript metadata2 "variable" ->
  subscript metadata1 "integrand" = subscript metadata2 "integrand" ->
  score_answer answer entry1 = score_answer answer entry2.
Proof.
  intros Hm1 Hm2 Hv Hi. unfold score_answer. rewrite Hm1, Hm2. simpl.
  destruct answer; try done. unfold try_body. by rewrite Hv, Hi.
Qed.
End ScoringEntry.

(** X2 on an entry that has only a question. *)
Lemma score_answer_without_metadata_example :
  @score_answer Scripted.engine PyNone (dict [("question", PyStr "q")])
  = Raise (KeyError "metadata").
Proof.
  exact (proj1 (@score_answer_without_metadata Scripted.engine PyNone
                  (dict [("question", PyStr "q")]) (KeyError "metadata") eq_refl)).
Defined.

(** X3 on item 4 and the entry that keeps its two fields only. *)
Lemma score_answer_reads_two_fields_example :
  @score_answer Scripted.engine (PyStr "-2*exp(1 - 6*x) + C") Sample.item_4
  = @score_answer Scripted.engine (PyStr "-2*exp(1 - 6*x) + C") bare_entry_4.
Proof.
  exact (@score_answer_reads_two_fields Scripted.engine
           (PyStr "-2*exp(1 - 6*x) + C") Sample.item_4 bare_entry_4
           Sample.metadata_4
           (dict [("variable", PyStr "x"); ("integrand", PyStr "12*exp(1 - 6*x)")])
           eq_refl eq_refl eq_refl eq_refl).
Defined.

(** ** Seeds and indices *)

(** X4. Only the sum of the base seed and the index reaches the random
    source: the dataset with base seed [seed + k] has at [index] the item
    the dataset with base seed [seed] has at [index + k], so datasets whose
    seeds are [k] apart share all their items up to a shift by [k]. *)
Theorem getitem_seed_shift `{RandomSource} `{SymPy}
    (self : IntermediateIntegrationDataset) (k index : Z) :
  getitem (with_self_seed self (self_seed self + k)) index = getitem self (index + k).
Proof.
  unfold getitem. simpl.
  replace (self_seed self + k + index) with (self_seed self + (index + k)) by lia.
  reflexivity.
Qed.

(** ** What an item holds *)

Section ItemFields.
Context `{RandomSource} `{SymPy}.

(** every part of a returned item, with where it was drawn from *)
Lemma generate_item_parts self s item s' :
  generate_item self s = Ok (item, s') ->
  exists problem_type symbol integrand answer template,
    problem_type ∈ problem_types (config self)
    /\ symbol ∈ symbols (config self)
    /\ template ∈ prompt_template self
    /\ integrate integrand (Symbol symbol) = Ok answer
    /\ item = item_record self
                (String.append (format template "integrand" (str integrand))
                               (added_instruction self))
                (String.append (str answer) " + C")
                integrand problem_type (Symbol symbol) answer.
Proof.
  unfold generate_item. intros Hg.
  apply rand_bind_Ok in Hg as (drawn & s0 & Hdrawn & Hg).
  apply rand_bind_Ok in Hg as (problem_type & s3 & [Hpt _]%lift_Ok & Hg).
  apply rand_bind_Ok in Hg as (symbol & s1 & Hsym & Hg).
  apply rand_bind_Ok in Hg as (oi & s2 & Hd & Hg).
  apply rand_bind_Ok in Hg as (integrand & s4 & [Hl _]%lift_Ok & Hg).
  apply rand_bind_Ok in Hg as (answer & s5 & [Hint _]%lift_Ok & Hg).
  apply rand_bind_Ok in Hg as (template & s6 & Htemplate & Hg).
  apply rand_ret_Ok in Hg as [<- _].
  exists problem_type, symbol, integrand, answer, template.
  apply (ensures_Ok _ _ _ _ _ _ (choices_outcome _ _ _)) in Hdrawn.
  apply list_getitem_Ok in Hpt.
  apply (ensures_Ok _ _ _ _ _ _ (choice_outcome _)) in Hsym.
  apply (ensures_Ok _ _ _ _ _ _ (choice_outcome _)) in Htemplate.
  repeat split; try done.
  by apply (proj1 (Forall_forall _ _) Hdrawn).
Qed.

(** X5. An item that [__getitem__] returns is consistent with the
    configuration and with itself: its problem type is one of
    [problem_types], its variable is the string of a symbol of [symbols], its
    integrand is the string of an expression whose integral, as sympy
    returned it, is [expected_answer_expression], its answer is the string of
    that integral followed by [" + C"], and its difficulty records the
    weights of the configuration. *)
Theorem getitem_item_fields (self : IntermediateIntegrationDataset) (index : Z)
    (item : object) :
  getitem self index = Ok item ->
  exists metadata difficulty problem_type symbol integrand answer,
    subscript item "metadata" = Ok metadata
    /\ subscript metadata "problem_type" = Ok (PyStr problem_type)
    /\ problem_type ∈ problem_types (config self)
    /\ subscript metadata "variable" = Ok (PyStr (str (Symbol symbol)))
    /\ symbol ∈ symbols (config self)
    /\ subscript metadata "integrand" = Ok (PyStr (str integrand))
    /\ integrate integrand (Symbol symbol) = Ok answer
    /\ subscript metadata "expected_answer_expression" = Ok (PyExpr answer)
    /\ subscript item "answer" = Ok (PyStr (String.append (str answer) " + C"))
    /\ subscript metadata "difficulty" = Ok difficulty
    /\ subscript difficulty "problem_type_weights"
       = Ok (PyList (PyFloat <$> problem_type_weights (config self))).
Proof.
  intros (s' & Hg)%getitem_Ok.
  apply generate_item_parts in Hg
    as (problem_type & symbol & integrand & answer & template
        & Hpt & Hsym & _ & Hint & ->).
  eexists _, _, problem_type, symbol, integrand, answer.
  repeat split; try done; reflexivity.
Qed.

Lemma append_assoc (s1 s2 s3 : string) :
  (s1 +:+ s2) +:+ s3 = s1 +:+ (s2 +:+ s3).
Proof.
  induction s1 as [|c s1 IH]; [reflexivity|].
  change (String c ((s1 +:+ s2) +:+ s3) = String c (s1 +:+ (s2 +:+ s3))).
  by rewrite IH.
Qed.

Lemma format_prompt (prompt val : string) :
  prompt ∈ prompts ->
  format (prompt +:+ "∫ {integrand} dx") "integrand" val
  = prompt +:+ "∫ " +:+ val +:+ " dx".
Proof.
  unfold prompts. intros Hin.
  repeat (apply elem_of_cons in Hin as [->|Hin]); [..|by apply elem_of_nil in Hin];
    reflexivity.
Qed.

Lemma prompt_templates_prompts template :
  template ∈ prompt_templates ->
  exists prompt, prompt ∈ prompts /\ template = prompt +:+ "∫ {integrand} dx".
Proof.
  unfold prompt_templates. intros Hin.
  repeat (apply elem_of_cons in Hin as [->|Hin]); [..|by apply elem_of_nil in Hin].
  - exists "Find the indefinite integral: ".
    split; [apply list_elem_of_here|reflexivity].
  - exists "Calculate the antiderivative: ".
    split; [apply list_elem_of_further, list_elem_of_here|reflexivity].
  - exists "Evaluate the indefinite integral: ".
    split; [do 2 apply list_elem_of_further; apply list_elem_of_here|reflexivity].
Qed.

(** X6. The question of an item is one of the three prompts, the
    integrand's string between ["∫ "] and [" dx"] in place of the
    placeholder, and the block of instructions: the integrand in the
    question is the integrand in the metadata. *)
Theorem getitem_question (self : IntermediateIntegrationDataset) (index : Z)
    (item : object) :
  prompt_template self = prompt_templates ->
  getitem self index = Ok item ->
  exists metadata prompt integrand_str,
    prompt ∈ prompts
    /\ subscript item "metadata" = Ok metadata
    /\ subscript metadata "integrand" = Ok (PyStr integrand_str)
    /\ subscript item "question"
       = Ok (PyStr (prompt +:+ "∫ " +:+ integrand_str +:+ " dx"
                    +:+ added_instruction self)).
Proof.
  intros Htemplates (s' & Hg)%getitem_Ok.
  apply generate_item_parts in Hg
    as (problem_type & symbol & integrand & answer & template
        & _ & _ & Htemplate & _ & ->).
  rewrite Htemplates in Htemplate.
  apply prompt_templates_prompts in Htemplate as (prompt & Hprompt & ->).
  eexists _, prompt, (str integrand). split; [done|].
  split; [reflexivity|]. split; [reflexivity|].
  unfold item_record, dict, subscript. simpl.
  rewrite (format_prompt prompt (str integrand) Hprompt).
  by rewrite !append_assoc.
Qed.
End ItemFields.

(** X5 on item 4 of the example dataset. *)
Lemma getitem_item_fields_example :
  exists metadata,
    subscript Sample.item_4 "metadata" = Ok metadata
    /\ subscript metadata "problem_type" = Ok (PyStr "exponential")
    /\ subscript Sample.item_4 "answer" = Ok (PyStr "-2*exp(1 - 6*x) + C").
Proof.
  destruct (@getitem_item_fields Lcg.source Scripted.engine Sample.dataset 4
              Sample.item_4 item_4_generated)
    as (metadata & _ & _ & _ & _ & _ & Hm & _).
  exists metadata. split; [exact Hm|].
  injection Hm as <-. split; reflexivity.
Defined.

(** X6 on item 4 of the example dataset. *)
Lemma getitem_question_example :
  exists prompt,
    prompt ∈ prompts
    /\ subscript Sample.item_4 "question"
       = Ok (PyStr (prompt +:+ "∫ 12*exp(1 - 6*x) dx" +:+ instruction)).
Proof.
  destruct (@getitem_question Lcg.source Scripted.engine Sample.dataset 4
              Sample.item_4 eq_refl item_4_generated)
    as (metadata & prompt & integrand_str & Hprompt & Hm & Hi & Hq).
  injection Hm as <-. injection Hi as <-.
  exists prompt. split; [exact Hprompt|exact Hq].
Defined.

(** ** When generation cannot fail *)

Section Total.
Context `{RandomSource} {laws : RandomSourceLaws _}.

Lemma randint_total a b :
  a <= b -> ensures (randint a b) (fun v => a <= v <= b) (fun _ => False).
Proof.
  intros Hab. eapply ensures_weaken; [apply randint_range|done|].
  intros e Hlt. simpl in Hlt. lia.
Qed.

Lemma choice_nonempty {A} (seq : list A) :
  seq <> [] -> ensures (choice seq) (fun a => a ∈ seq) (fun _ => False).
Proof. intros Hne. eapply ensures_weaken; [apply choice_total|done..]. Qed.

Lemma accumulate_from_length total weights :
  length (accumulate_from total weights) = length weights.
Proof.
  revert total. induction weights as [|w rest IH]; intros total; simpl; [done|].
  by rewrite IH.
Qed.

Lemma accumulate_length weights : length (accumulate weights) = length weights.
Proof. destruct weights; simpl; [done|]. by rewrite accumulate_from_length. Qed.

Lemma list_getitem_last {A} (seq : list A) (a : A) :
  list_getitem (seq ++ [a])%list (-1) = Ok a.
Proof.
  unfold list_getitem. rewrite length_app. simpl.
  replace (-1 + Z.of_nat (length seq + 1)) with (Z.of_nat (length seq)) by lia.
  destruct (Z.leb_spec 0 (Z.of_nat (length seq))); [|lia].
  destruct (Z.ltb_spec (Z.of_nat (length seq)) (Z.of_nat (length seq + 1))); [|lia].
  simpl. rewrite Nat2Z.id. by rewrite list_lookup_middle.
Qed.

Lemma accumulate_from_last total weights :
  exists front, total :: accumulate_from total weights
                = (front ++ [foldl float_add total weights])%list.
Proof.
  revert total. induction weights as [|w rest IH]; intros total; simpl.
  - by exists [].
  - destruct (IH (float_add total w)) as [front Hfront]. exists (total :: front).
    simpl. by rewrite Hfront.
Qed.

(** the total [choices] checks is [total_weight] *)
Lemma accumulate_total weights :
  weights <> [] ->
  exists last,
    list_getitem (accumulate weights) (-1) = Ok last
    /\ float_add last float_0 = total_weight weights.
Proof.
  destruct weights as [|w rest]; [done|]. intros _. simpl.
  destruct (accumulate_from_last w rest) as [front ->].
  eexists. split; [apply list_getitem_last|done].
Qed.



End Total.

Section Safe.
Context `{RandomSource} {laws : RandomSourceLaws _} `{SymPy}.
Variable self : IntermediateIntegrationDataset.
Hypothesis Hvalid : valid (config self).
Hypothesis Hops : operators (config self) <> [].

Lemma get_outer_constant_total :
  ensures (_get_outer_constant self) (fun _ => True) (fun _ => False).
Proof using laws Hvalid Hops.
  eapply ensures_weaken; [by apply get_outer_constant_range|done..].
Qed.

Lemma signed_coefficient_total :
  ensures (signed_coefficient self) (fun _ => True) (fun _ => False).
Proof using laws Hvalid Hops.
  destruct Hvalid as (_ & _ & _ & Hrange & _).
  unfold signed_coefficient.
  eapply ensures_bind; [by apply choice_nonempty|]. intros op _.
  eapply ensures_bind; [by apply randint_total|]. intros value _.
  by apply ensures_ret.
Qed.

Lemma signed_terms_total n :
  ensures (signed_terms self n) (fun terms => length terms = n) (fun _ => False).
Proof using laws Hvalid Hops.
  induction n as [|n IH]; simpl; [by apply ensures_ret|].
  eapply ensures_bind; [apply signed_coefficient_total|]. intros t _.
  eapply ensures_bind; [apply IH|]. intros rest Hrest.
  apply ensures_ret. simpl. by rewrite Hrest.
Qed.

Lemma list_getitem_total {A} (seq : list A) i :
  0 <= i < Z.of_nat (length seq) ->
  ensures (lift (list_getitem seq i)) (fun _ => True) (fun _ => False).
Proof.
  intros Hi. apply ensures_lift.
  by destruct (list_getitem_in_range seq i Hi) as [a ->].
Qed.

(** one statement of a generator that cannot fail, then the rest *)
Ltac total_bind rule := eapply ensures_bind; [apply rule|]; intros ? ?.

Ltac total_steps :=
  repeat first
    [ apply ensures_ret; done
    | total_bind get_outer_constant_total
    | total_bind signed_coefficient_total
    | eapply ensures_bind; [apply choice_nonempty; discriminate|]; intros ? ?
    | eapply ensures_bind; [apply randint_total; lia|]; intros ? ?
    | eapply ensures_bind; [by apply (ensures_draw _ (fun _ => True))|]; intros ? ?
    | eapply ensures_bind; [apply list_getitem_total; simpl; lia|]; intros ? ? ].

Lemma linear_total x :
  ensures (_generate_linear_substitution_problem self x) (fun _ => True)
          (fun _ => False).
Proof using laws Hvalid Hops.
  pose proof Hvalid as (_ & _ & _ & ? & _ & ? & _).
  unfold _generate_linear_substitution_problem.
  eapply ensures_bind; [by apply randint_total|]. intros a _.
  eapply ensures_bind; [by apply randint_total|]. intros b _.
  eapply ensures_bind; [by apply choice_nonempty|]. intros op _.
  eapply ensures_bind; [by apply randint_total|]. intros degree _.
  total_steps.
Qed.

Lemma exponential_total x :
  ensures (_generate_exponential_substitution self x) (fun _ => True)
          (fun _ => False).
Proof using laws Hvalid Hops.
  unfold _generate_exponential_substitution.
  eapply ensures_bind; [apply choice_nonempty; discriminate|]. intros exponent_type _.
  eapply ensures_bind; [apply signed_terms_total|]. intros terms Hlen.
  eapply ensures_bind with (Q := fun _ => True).
  { revert Hlen. destruct (String.eqb exponent_type "linear"); intros Hlen;
      total_steps. }
  intros [u du_dx] _. total_steps.
Qed.

Lemma radical_total x :
  ensures (_generate_radical_substitution self x) (fun _ => True) (fun _ => False).
Proof using laws Hvalid Hops. unfold _generate_radical_substitution. total_steps. Qed.

Lemma trigonometric_total x :
  ensures (_generate_trigonometric_substitution self x) (fun _ => True)
          (fun _ => False).
Proof using laws Hvalid Hops.
  unfold _generate_trigonometric_substitution. total_steps.
Qed.

Lemma polynomial_exp_trig_total x :
  ensures (_generate_polynomial_exp_trig self x) (fun _ => True) (fun _ => False).
Proof using laws Hvalid Hops.
  pose proof Hvalid as (_ & _ & _ & _ & _ & _ & _ & _ & _ & ? & _).
  unfold _generate_polynomial_exp_trig.
  eapply ensures_bind; [by apply randint_total|]. intros poly_degree _.
  eapply ensures_bind; [apply choice_nonempty; discriminate|]. intros func_type _.
  eapply ensures_bind with (Q := fun _ => True).
  { destruct (String.eqb func_type "exp"); total_steps. }
  intros transcendental _. total_steps.
Qed.

Lemma log_inverse_trig_total x :
  ensures (_generate_log_inverse_trig self x) (fun _ => True) (fun _ => False).
Proof using laws Hvalid Hops.
  unfold _generate_log_inverse_trig.
  eapply ensures_bind; [apply choice_nonempty; discriminate|]. intros func_type Hin.
  eapply ensures_bind; [apply randint_total; lia|]. intros coefficient _.
  eapply ensures_bind with (Q := fun func => is_Some func).
  { repeat (apply elem_of_cons in Hin as [->|Hin]); [| | |by apply elem_of_nil in Hin];
      simpl.
    - eapply ensures_bind; [by apply (ensures_draw _ (fun _ => True))|]. intros u _.
      eapply ensures_bind with (Q := fun _ => True);
        [destruct (float_lt _ _); total_steps|].
      intros log_arg _. by apply ensures_ret.
    - by apply ensures_ret.
    - by apply ensures_ret. }
  intros func [f ->]. total_bind get_outer_constant_total.
  eapply ensures_bind with (Q := fun _ => True); [by apply ensures_lift|].
  intros ? _. by apply ensures_ret.
Qed.

Lemma cyclic_total x :
  ensures (_generate_cyclic_integral self x) (fun _ => True) (fun _ => False).
Proof using laws Hvalid Hops. unfold _generate_cyclic_integral. total_steps. Qed.

Lemma repeated_parts_total x :
  3 <= max_poly_degree (config self) ->
  ensures (_generate_repeated_parts self x) (fun _ => True) (fun _ => False).
Proof using laws Hvalid Hops.
  intros Hmax. unfold _generate_repeated_parts. total_steps.
Qed.

Lemma assigned_total {A} (m : rand A) :
  ensures m (fun _ => True) (fun _ => False) ->
  ensures (assigned m) is_Some (fun _ => False).
Proof. apply assigned_ensures. Qed.

Lemma dispatch_total problem_type x :
  3 <= max_poly_degree (config self) ->
  problem_type ∈ default_problem_types ->
  ensures (dispatch self problem_type x) is_Some (fun _ => False).
Proof using laws Hvalid Hops.
  intros Hmax Hin. unfold default_problem_types in Hin.
  repeat (apply elem_of_cons in Hin as [->|Hin]); [..|by apply elem_of_nil in Hin];
    unfold dispatch; simpl; apply assigned_total;
    auto using linear_total, exponential_total, radical_total, trigonometric_total,
      polynomial_exp_trig_total, log_inverse_trig_total, cyclic_total,
      repeated_parts_total.
Qed.

End Safe.



(** ** Repeated integration by parts *)

Section RepeatedParts.
Context `{RandomSource} {laws : RandomSourceLaws _}.

(** X8. [_generate_repeated_parts] draws the degree from [3] to
    [max_poly_degree]: with [max_poly_degree < 3], which [validate()] accepts
    as long as [min_poly_degree] is not above it, the call always raises
    ValueError; with [max_poly_degree >= 3], a valid configuration and an
    operator to choose from it returns [c * (x**n * t)] with
    [3 <= n <= max_poly_degree] and [t] one of sin(x), cos(x), exp(x). *)
Theorem repeated_parts_degree (self : IntermediateIntegrationDataset) (x : Expr)
    (s : rng_state) :
  (max_poly_degree (config self) < 3 ->
   exists msg, _generate_repeated_parts self x s = Raise (ValueError msg))
  /\ (3 <= max_poly_degree (config self) ->
      validate (config self) = Ok tt ->
      operators (config self) <> [] ->
      exists c n t s',
        _generate_repeated_parts self x s
        = Ok (Mul (Integer c) (Mul (Pow x (Integer n)) t), s')
        /\ 3 <= n <= max_poly_degree (config self)
        /\ t ∈ [Function "sin" x; Function "cos" x; Function "exp" x]).
Proof.
  split.
  - intros Hmax. unfold _generate_repeated_parts, randint, randrange.
    destruct (Z.ltb_spec 0 (max_poly_degree (config self) + 1 - 3)); [lia|].
    by eexists.
  - intros Hmax Hvalid%validate_Ok Hops.
    assert (Hpost : ensures (_generate_repeated_parts self x)
              (fun e => exists c n t,
                 e = Mul (Integer c) (Mul (Pow x (Integer n)) t)
                 /\ 3 <= n <= max_poly_degree (config self)
                 /\ t ∈ [Function "sin" x; Function "cos" x; Function "exp" x])
              (fun _ => False)).
    { unfold _generate_repeated_parts.
      eapply ensures_bind; [by apply randint_total|]. intros n Hn.
      eapply ensures_bind; [by apply choice_nonempty|]. intros t Ht.
      eapply ensures_bind; [by apply get_outer_constant_total|]. intros c _.
      apply ensures_ret. by exists c, n, t. }
    specialize (Hpost s).
    destruct (_generate_repeated_parts self x s) as [[e s']|]; [|done].
    destruct Hpost as (c & n & t & -> & Hn & Ht). by exists c, n, t, s'.
Qed.
End RepeatedParts.

(** X8 on the example configuration with [max_poly_degree=2], which passes
    [validate()] and makes the generator raise, and on the example
    configuration itself, whose [max_poly_degree] is 3. *)
Lemma repeated_parts_degree_example :
  (validate (config dataset_degree_2) = Ok tt
   /\ exists msg,
        @_generate_repeated_parts Lcg.source dataset_degree_2 (Symbol "x")
          (@Random Lcg.source 42)
        = Raise (ValueError msg))
  /\ exists c n t s',
       @_generate_repeated_parts Lcg.source Sample.dataset (Symbol "x")
         (@Random Lcg.source 42)
       = Ok (Mul (Integer c) (Mul (Pow (Symbol "x") (Integer n)) t), s')
       /\ 3 <= n <= 3.
Proof.
  split.
  - split; [reflexivity|].
    apply (proj1 (@repeated_parts_degree Lcg.source lcg_laws dataset_degree_2
                    (Symbol "x") (@Random Lcg.source 42))).
    simpl. lia.
  - assert (Hmax : 3 <= max_poly_degree (config Sample.dataset)) by (simpl; lia).
    assert (Hops : operators (config Sample.dataset) <> []) by discriminate.
    destruct (proj2 (@repeated_parts_degree Lcg.source lcg_laws Sample.dataset
                       (Symbol "x") (@Random Lcg.source 42)) Hmax eq_refl Hops)
      as (c & n & t & s' & Hg & Hn & _).
    by exists c, n, t, s'.
Defined.

(** ** Weighted choice *)

Section Bisect.

(** On a list that [x] is not below before position [k] and is below from
    it on, the loop ends at [k]. *)
Lemma bisect_loop_step a x k n : forall lo hi,
  (Z.to_nat (hi - lo) <= n)%nat ->
  lo <= k <= hi ->
  (forall i, lo <= i < k -> float_lt x (weight_at a i) = false) ->
  (forall i, k <= i < hi -> float_lt x (weight_at a i) = true) ->
  bisect_loop n a x lo hi = k.
Proof.
  induction n as [|n IH]; intros lo hi Hn Hk Hbelow Habove; simpl.
  - destruct (Z.ltb_spec lo hi); lia.
  - destruct (Z.ltb_spec lo hi) as [Hlt|]; [|lia].
    assert (Hmid : lo <= (lo + hi) / 2 < hi).
    { split; [apply Z.div_le_lower_bound|apply Z.div_lt_upper_bound]; lia. }
    fold (weight_at a ((lo + hi) / 2)).
    destruct (Z.lt_ge_cases ((lo + hi) / 2) k) as [Hlow|Hhigh].
    + rewrite Hbelow by lia. apply IH; [lia|lia| |done].
      intros i Hi. apply Hbelow. lia.
    + rewrite Habove by lia. apply IH; [lia|lia|done|].
      intros i Hi. apply Habove. lia.
Qed.

(** On running sums that are 0.0 before position [k] and 1.0 from it on, a
    draw in [[0.0, 1.0)] is bisected to [k]. *)
Lemma bisect_step a x k hi :
  0 <= k <= hi ->
  (forall i, 0 <= i < k -> weight_at a i = float_0) ->
  (forall i, k <= i < hi -> weight_at a i = float_1) ->
  float_le float_0 x = true -> float_lt x float_1 = true ->
  bisect a x 0 hi = k.
Proof.
  intros Hk Hzero Hone Hx0 Hx1. unfold bisect.
  apply bisect_loop_step; [lia|lia|..].
  - intros i Hi. rewrite Hzero by lia. by apply float_lt_0.
  - intros i Hi. by rewrite Hone by lia.
Qed.

Lemma accumulate_from_0_zeros (n : nat) :
  accumulate_from float_0 (List.repeat float_0 n) = List.repeat float_0 n.
Proof. induction n as [|n IH]; [done|]. exact (f_equal (cons float_0) IH). Qed.

Lemma accumulate_from_1_zeros (n : nat) :
  accumulate_from float_1 (List.repeat float_0 n) = List.repeat float_1 n.
Proof. induction n as [|n IH]; [done|]. exact (f_equal (cons float_1) IH). Qed.

Lemma accumulate_from_0_one_hot (k m : nat) :
  accumulate_from float_0 (one_hot k m)
  = (List.repeat float_0 k ++ List.repeat float_1 (S m))%list.
Proof.
  induction k as [|k IH].
  - exact (f_equal (cons float_1) (accumulate_from_1_zeros m)).
  - exact (f_equal (cons float_0) IH).
Qed.

Lemma accumulate_one_hot (k m : nat) :
  accumulate (one_hot k m) = (List.repeat float_0 k ++ List.repeat float_1 (S m))%list.
Proof.
  destruct k as [|k].
  - exact (f_equal (cons float_1) (accumulate_from_1_zeros m)).
  - exact (f_equal (cons float_0) (accumulate_from_0_one_hot k m)).
Qed.

Lemma one_hot_running_sums (k m : nat) :
  let cum := (List.repeat float_0 k ++ List.repeat float_1 (S m))%list in
  (forall i, 0 <= i < Z.of_nat k -> weight_at cum i = float_0)
  /\ (forall i, Z.of_nat k <= i < Z.of_nat (k + m) -> weight_at cum i = float_1)
  /\ length cum = (k + 1 + m)%nat
  /\ list_getitem cum (-1) = Ok float_1.
Proof.
  intros cum. unfold cum, weight_at. repeat split.
  - intros i Hi. rewrite app_nth1 by (rewrite repeat_length; lia).
    apply nth_repeat_lt. lia.
  - intros i Hi. rewrite app_nth2 by (rewrite repeat_length; lia).
    rewrite repeat_length. apply nth_repeat_lt. lia.
  - rewrite length_app, !repeat_length. lia.
  - change (List.repeat float_1 (S m)) with (float_1 :: List.repeat float_1 m).
    rewrite repeat_cons, app_assoc. apply list_getitem_last.
Qed.
End Bisect.

Section OneHot.
Context `{RandomSource} {laws : RandomSourceLaws _} `{SymPy}.

(** With one-hot weights [choices] draws the member at the hot position. *)
Lemma choices_one_hot {A} (population : list A) (k m : nat) (t : A) s drawn s' :
  length population = (k + 1 + m)%nat ->
  population !! k = Some t ->
  choices population (one_hot k m) 1 s = Ok (drawn, s') ->
  drawn = [t].
Proof using laws.
  intros Hlen Ht Hc. unfold choices in Hc. rewrite accumulate_one_hot in Hc.
  destruct (one_hot_running_sums k m) as (Hzero & Hone & Hcum & Htotal).
  cbv zeta in Hc. rewrite Hcum, Hlen, Nat.eqb_refl in Hc.
  change (negb true) with false in Hc. cbv iota in Hc.
  apply rand_bind_Ok in Hc as (last & s0 & [Hlast <-]%lift_Ok & Hc).
  rewrite Htotal in Hlast. injection Hlast as <-.
  change (float_add float_1 float_0) with float_1 in Hc.
  change (float_le float_1 float_0) with false in Hc.
  change (negb (isfinite float_1)) with false in Hc. cbv iota in Hc.
  simpl choices_draws in Hc.
  apply rand_bind_Ok in Hc as (u & s1 & Hu%draw_Ok & Hc).
  apply rand_bind_Ok in Hc as (a & s2 & [Ha <-]%lift_Ok & Hc).
  apply rand_bind_Ok in Hc as (rest & s3 & [<- <-]%rand_ret_Ok & Hc).
  apply rand_ret_Ok in Hc as [<- _].
  destruct (random_range s) as (Hvalid & Hu0 & Hu1). rewrite Hu in Hvalid, Hu0, Hu1.
  simpl in Hvalid, Hu0, Hu1.
  rewrite float_mul_1 in Ha by eauto using unit_float_isfinite.
  rewrite (bisect_step _ u (Z.of_nat k)) in Ha; [|lia|done| |done..].
  - unfold list_getitem in Ha.
    destruct (Z.ltb_spec (Z.of_nat k) 0); [lia|].
    destruct (Z.leb_spec 0 (Z.of_nat k)); [|lia].
    destruct (Z.ltb_spec (Z.of_nat k) (Z.of_nat (length population))); [|lia].
    simpl in Ha. rewrite Nat2Z.id, Ht in Ha. by injection Ha as <-.
  - intros i Hi. apply Hone. lia.
Qed.

Lemma generate_item_problem_type self s item s' :
  generate_item self s = Ok (item, s') ->
  exists drawn s0 problem_type metadata,
    choices (problem_types (config self)) (problem_type_weights (config self)) 1 s
    = Ok (drawn, s0)
    /\ list_getitem drawn 0 = Ok problem_type
    /\ subscript item "metadata" = Ok metadata
    /\ subscript metadata "problem_type" = Ok (PyStr problem_type).
Proof.
  unfold generate_item. intros Hg.
  apply rand_bind_Ok in Hg as (drawn & s0 & Hdrawn & Hg).
  apply rand_bind_Ok in Hg as (problem_type & s3 & [Hpt _]%lift_Ok & Hg).
  apply rand_bind_Ok in Hg as (symbol & s1 & _ & Hg).
  apply rand_bind_Ok in Hg as (oi & s2 & _ & Hg).
  apply rand_bind_Ok in Hg as (integrand & s4 & _ & Hg).
  apply rand_bind_Ok in Hg as (answer & s5 & _ & Hg).
  apply rand_bind_Ok in Hg as (template & s6 & _ & Hg).
  apply rand_ret_Ok in Hg as [<- _].
  eexists drawn, s0, problem_type, _. repeat split; try done; reflexivity.
Qed.

Lemma generate_item_one_hot (self : IntermediateIntegrationDataset)
    (k m : nat) (t : string) s item s' :
  problem_type_weights (config self) = one_hot k m ->
  length (problem_types (config self)) = (k + 1 + m)%nat ->
  problem_types (config self) !! k = Some t ->
  generate_item self s = Ok (item, s') ->
  exists metadata,
    subscript item "metadata" = Ok metadata
    /\ subscript metadata "problem_type" = Ok (PyStr t).
Proof using laws.
  intros Hweights Hlen Ht Hg.
  apply generate_item_problem_type in Hg
    as (drawn & s0 & problem_type & metadata & Hdrawn & Hpt & Hm & Hp).
  rewrite Hweights in Hdrawn.
  apply (choices_one_hot _ _ _ t _ _ _ Hlen Ht) in Hdrawn as ->.
  injection Hpt as <-. by exists metadata.
Qed.

Lemma level_one_hot (level_index : nat) (level : object) :
  levels problem_type_weights_attribute !! level_index = Some level ->
  as_list as_float level = Ok (one_hot level_index (7 - level_index)).
Proof.
  do 8 (destruct level_index as [|level_index]; [by intros [= <-]|]).
  done.
Qed.

(** X9. One-hot weights select their problem type: when
    [problem_type_weights] is 1 at position [k] and 0 elsewhere, every item
    the dataset returns has the problem type at position [k] of
    [problem_types], for a random source whose [random()] stays in
    [[0, 1)]. *)
Theorem one_hot_weights_select (self : IntermediateIntegrationDataset)
    (k m : nat) (t : string) (index : Z) (item : object) :
  problem_type_weights (config self) = one_hot k m ->
  length (problem_types (config self)) = (k + 1 + m)%nat ->
  problem_types (config self) !! k = Some t ->
  getitem self index = Ok item ->
  exists metadata,
    subscript item "metadata" = Ok metadata
    /\ subscript metadata "problem_type" = Ok (PyStr t).
Proof using laws.
  intros Hweights Hlen Ht (s' & Hg)%getitem_Ok.
  by eapply (generate_item_one_hot self k m t).
Qed.

(** X10. The curriculum's levels walk through the problem types: a dataset
    whose [problem_type_weights] are level [k] of the curriculum's
    "problem_type_weights" attribute, over the default [problem_types],
    returns only items of the [k]-th default problem type. *)
Theorem curriculum_level_selects (self : IntermediateIntegrationDataset)
    (level_index : nat) (level : object) (t : string) (index : Z)
    (item : object) :
  levels problem_type_weights_attribute !! level_index = Some level ->
  as_list as_float level = Ok (problem_type_weights (config self)) ->
  problem_types (config self) = default_problem_types ->
  default_problem_types !! level_index = Some t ->
  getitem self index = Ok item ->
  exists metadata,
    subscript item "metadata" = Ok metadata
    /\ subscript metadata "problem_type" = Ok (PyStr t).
Proof using laws.
  intros Hlevel Hweights Htypes Ht (s' & Hg)%getitem_Ok.
  pose proof (lookup_lt_Some _ _ _ Ht) as Hlt.
  change (length default_problem_types) with 8%nat in Hlt.
  apply level_one_hot in Hlevel. rewrite Hlevel in Hweights.
  injection Hweights as Hweights.
  eapply (generate_item_one_hot self level_index (7 - level_index) t);
    [done| |by rewrite Htypes|done].
  rewrite Htypes. change (length default_problem_types) with 8%nat. lia.
Qed.
End OneHot.

(** X9 on the example dataset with all weight on position 5. *)
Lemma one_hot_weights_select_example :
  exists item metadata,
    @getitem Lcg.source Scripted.engine dataset_level_5 4 = Ok item
    /\ subscript item "metadata" = Ok metadata
    /\ subscript metadata "problem_type" = Ok (PyStr "exponential").
Proof.
  destruct (@getitem Lcg.source Scripted.engine dataset_level_5 4)
    as [item|e] eqn:Hg; [|by vm_compute in Hg].
  destruct (@one_hot_weights_select Lcg.source lcg_laws Scripted.engine
              dataset_level_5 5 2 "exponential" 4 item
              eq_refl eq_refl eq_refl Hg)
    as (metadata & Hm & Hp).
  by exists item, metadata.
Defined.

(** X10 on the example dataset at curriculum level 5. *)
Lemma curriculum_level_selects_example :
  exists item metadata,
    @getitem Lcg.source Scripted.engine dataset_level_5 4 = Ok item
    /\ subscript item "metadata" = Ok metadata
    /\ subscript metadata "problem_type" = Ok (PyStr "exponential").
Proof.
  destruct (@getitem Lcg.source Scripted.engine dataset_level_5 4)
    as [item|e] eqn:Hg; [|by vm_compute in Hg].
  destruct (@curriculum_level_selects Lcg.source lcg_laws Scripted.engine
              dataset_level_5 5
              (PyList [PyInt 0; PyInt 0; PyInt 0; PyInt 0; PyInt 0;
                       PyInt 1; PyInt 0; PyInt 0])
              "exponential" 4 item
              eq_refl eq_refl eq_refl eq_refl Hg)
    as (metadata & Hm & Hp).
  by exists item, metadata.
Defined.

(** ** Antiderivatives of the substitution integrands *)

Section Calculus.
#[local] Open Scope R_scope.

Lemma D_ext (f g : R -> R) x l l' :
  (forall t, f t = g t) -> l = l' ->
  derivable_pt_lim f x l -> derivable_pt_lim g x l'.
Proof.
  intros Hfg <- Hf eps Heps. destruct (Hf eps Heps) as [delta Hd].
  exists delta. intros h Hh Hlt. rewrite <- !Hfg. by apply Hd.
Qed.

Lemma D_affine a b x : derivable_pt_lim (fun t => a * t + b) x a.
Proof.
  apply (D_ext (plus_fct (mult_fct (fct_cte a) id) (fct_cte b)) _ x
               (0 * id x + fct_cte a x * 1 + 0)); [done|unfold id, fct_cte; ring|].
  apply derivable_pt_lim_plus; [|apply derivable_pt_lim_const].
  apply derivable_pt_lim_mult; [apply derivable_pt_lim_const|apply derivable_pt_lim_id].
Qed.

Lemma D_comp (f g : R -> R) x l1 l2 :
  derivable_pt_lim f x l1 -> derivable_pt_lim g (f x) l2 ->
  derivable_pt_lim (fun t => g (f t)) x (l2 * l1).
Proof. intros Hf Hg. exact (derivable_pt_lim_comp f g x l1 l2 Hf Hg). Qed.

Lemma D_scal (f : R -> R) c x l :
  derivable_pt_lim f x l -> derivable_pt_lim (fun t => c * f t) x (c * l).
Proof. intros Hf. exact (derivable_pt_lim_scal f c x l Hf). Qed.

Lemma D_mult (f g : R -> R) x l1 l2 :
  derivable_pt_lim f x l1 -> derivable_pt_lim g x l2 ->
  derivable_pt_lim (fun t => f t * g t) x (l1 * g x + f x * l2).
Proof. intros Hf Hg. exact (derivable_pt_lim_mult f g x l1 l2 Hf Hg). Qed.

Lemma powerRZ_pow t n : (0 <= n)%Z -> powerRZ t n = t ^ Z.to_nat n.
Proof. intros Hn. rewrite pow_powerRZ, Z2Nat.id; [done|lia]. Qed.

(** the power rule, for the exponents [n + 1] with [0 <= n] *)
Lemma D_power n x :
  (0 <= n)%Z ->
  derivable_pt_lim (fun t => powerRZ t (n + 1)) x (IZR (n + 1) * powerRZ x n).
Proof.
  intros Hn.
  apply (D_ext (fun t => t ^ S (Z.to_nat n)) _ x
               (INR (S (Z.to_nat n)) * x ^ pred (S (Z.to_nat n)))).
  - intros t. rewrite powerRZ_pow by lia. f_equal. lia.
  - simpl pred. rewrite <- powerRZ_pow by lia. f_equal.
    rewrite INR_IZR_INZ. f_equal. lia.
  - apply derivable_pt_lim_pow.
Qed.

Lemma D_plus (f g : R -> R) x l1 l2 :
  derivable_pt_lim f x l1 -> derivable_pt_lim g x l2 ->
  derivable_pt_lim (fun t => f t + g t) x (l1 + l2).
Proof. intros Hf Hg. exact (derivable_pt_lim_plus f g x l1 l2 Hf Hg). Qed.

Lemma D_square x : derivable_pt_lim (fun t => powerRZ t 2) x (2 * x).
Proof.
  apply (D_ext (fun t => powerRZ t (1 + 1)) _ x (IZR (1 + 1) * powerRZ x 1)).
  - done.
  - rewrite powerRZ_1. done.
  - apply D_power. lia.
Qed.

Lemma D_quadratic a b c x :
  derivable_pt_lim (fun t => a * powerRZ t 2 + b * t + c) x (2 * a * x + b).
Proof.
  apply (D_ext (fun t => a * powerRZ t 2 + (b * t + c)) _ x (a * (2 * x) + b)).
  - intros t. ring.
  - ring.
  - apply (D_plus (fun t => a * powerRZ t 2) (fun t => b * t + c));
      [apply D_scal, D_square|apply D_affine].
Qed.

Lemma bind_symbol_name symbol name t : bind_symbol symbol name t name = t.
Proof. unfold bind_symbol. by rewrite String.eqb_refl. Qed.

Lemma eval_linear_in undefined symbol name a b t :
  eval undefined (bind_symbol symbol name t) (linear_in name a b)
  = IZR a * t + IZR b.
Proof. simpl. by rewrite bind_symbol_name. Qed.

Lemma eval_quadratic_in undefined symbol name a b c t :
  eval undefined (bind_symbol symbol name t) (quadratic_in name a b c)
  = IZR a * powerRZ t 2 + IZR b * t + IZR c.
Proof. unfold quadratic_in. cbn [eval]. by rewrite bind_symbol_name. Qed.

Lemma eval_reciprocal undefined symbol n :
  eval undefined symbol (reciprocal n) = / IZR n.
Proof. simpl. by rewrite Rmult_1_r. Qed.

(** [c * exp(a*x + b)] is an antiderivative of [(c*a) * exp(a*x + b)] *)
Lemma exponential_linear_antiderivative name c a b :
  antiderivative name
    (Mul (Integer c) (Function "exp" (linear_in name a b)))
    (Mul (Integer (c * a)) (Function "exp" (linear_in name a b))).
Proof.
  intros undefined symbol t _. cbn [eval]. rewrite eval_linear_in.
  apply (D_ext (fun t' => IZR c * exp (IZR a * t' + IZR b)) _ t
               (IZR c * (exp (IZR a * t + IZR b) * IZR a))).
  - intros t'. by rewrite eval_linear_in.
  - rewrite mult_IZR. change (defined_function "exp") with exp. ring.
  - apply D_scal, (D_comp (fun t' => IZR a * t' + IZR b) exp);
      [apply D_affine|apply derivable_pt_lim_exp].
Qed.

(** [c * exp(a*x**2 + b*x + d)] is an antiderivative of
    [(c * (2*a*x + b)) * exp(a*x**2 + b*x + d)] *)
Lemma exponential_quadratic_antiderivative name c a b d :
  antiderivative name
    (Mul (Integer c) (Function "exp" (quadratic_in name a b d)))
    (Mul (Mul (Integer c) (linear_in name (2 * a) b))
         (Function "exp" (quadratic_in name a b d))).
Proof.
  intros undefined symbol t _. cbn [eval].
  rewrite eval_linear_in, eval_quadratic_in.
  apply (D_ext (fun t' => IZR c * exp (IZR a * powerRZ t' 2 + IZR b * t' + IZR d))
               _ t
               (IZR c * (exp (IZR a * powerRZ t 2 + IZR b * t + IZR d)
                         * (2 * IZR a * t + IZR b)))).
  - intros t'. by rewrite eval_quadratic_in.
  - rewrite mult_IZR. change (defined_function "exp") with exp. ring.
  - apply D_scal,
      (D_comp (fun t' => IZR a * powerRZ t' 2 + IZR b * t' + IZR d) exp);
      [apply D_quadratic|apply derivable_pt_lim_exp].
Qed.

Lemma IZR_succ_nonzero n : (0 <= n)%Z -> IZR (n + 1) <> 0.
Proof. intros Hn. apply not_0_IZR. lia. Qed.

(** the chain rule for a power of [g(a*x + b)] *)
Lemma D_power_of (g : R -> R) (g' : R) a b p x :
  (0 <= p)%Z ->
  derivable_pt_lim g (a * x + b) g' ->
  derivable_pt_lim (fun t => powerRZ (g (a * t + b)) (p + 1)) x
    (IZR (p + 1) * powerRZ (g (a * x + b)) p * (g' * a)).
Proof.
  intros Hp Hg.
  apply (D_comp (fun t => g (a * t + b)) (fun y => powerRZ y (p + 1))).
  - apply (D_comp (fun t => a * t + b) g); [apply D_affine|done].
  - by apply D_power.
Qed.

(** [(c/(p+1)) * sin(a*x + b)**(p+1)] is an antiderivative of
    [c * ((a*cos(a*x + b)) * sin(a*x + b)**p)] *)
Lemma sin_power_antiderivative name c a b p :
  (0 <= p)%Z ->
  antiderivative name
    (Mul (Mul (Integer c) (reciprocal (p + 1)))
         (Pow (Function "sin" (linear_in name a b)) (Integer (p + 1))))
    (Mul (Integer c)
         (Mul (Mul (Integer a) (Function "cos" (linear_in name a b)))
              (Pow (Function "sin" (linear_in name a b)) (Integer p)))).
Proof.
  intros Hp undefined symbol t _. cbn [eval]. rewrite eval_linear_in.
  change (defined_function "sin") with sin.
  change (defined_function "cos") with cos.
  pose proof (IZR_succ_nonzero p Hp) as Hne.
  apply (D_ext (fun t' => IZR c * / IZR (p + 1)
                          * powerRZ (sin (IZR a * t' + IZR b)) (p + 1)) _ t
               (IZR c * / IZR (p + 1)
                * (IZR (p + 1) * powerRZ (sin (IZR a * t + IZR b)) p
                   * (cos (IZR a * t + IZR b) * IZR a)))).
  - intros t'. cbn [eval]. by rewrite eval_linear_in, eval_reciprocal.
  - field. exact Hne.
  - apply D_scal, D_power_of; [done|apply derivable_pt_lim_sin].
Qed.

(** [(c/(p+1)) * cos(a*x + b)**(p+1)] is an antiderivative of
    [c * ((-a*sin(a*x + b)) * cos(a*x + b)**p)] *)
Lemma cos_power_antiderivative name c a b p :
  (0 <= p)%Z ->
  antiderivative name
    (Mul (Mul (Integer c) (reciprocal (p + 1)))
         (Pow (Function "cos" (linear_in name a b)) (Integer (p + 1))))
    (Mul (Integer c)
         (Mul (Mul (Integer (- a)) (Function "sin" (linear_in name a b)))
              (Pow (Function "cos" (linear_in name a b)) (Integer p)))).
Proof.
  intros Hp undefined symbol t _. cbn [eval]. rewrite eval_linear_in.
  change (defined_function "sin") with sin.
  change (defined_function "cos") with cos.
  pose proof (IZR_succ_nonzero p Hp) as Hne.
  apply (D_ext (fun t' => IZR c * / IZR (p + 1)
                          * powerRZ (cos (IZR a * t' + IZR b)) (p + 1)) _ t
               (IZR c * / IZR (p + 1)
                * (IZR (p + 1) * powerRZ (cos (IZR a * t + IZR b)) p
                   * (- sin (IZR a * t + IZR b) * IZR a)))).
  - intros t'. cbn [eval]. by rewrite eval_linear_in, eval_reciprocal.
  - rewrite opp_IZR. field. exact Hne.
  - apply D_scal, D_power_of; [done|apply derivable_pt_lim_cos].
Qed.

(** [(c/(a*(d+1))) * (a*x + b)**(d+1)] is an antiderivative of
    [c * (a*x + b)**d] *)
Lemma linear_power_antiderivative name c a b d :
  (a <> 0)%Z -> (0 <= d)%Z ->
  antiderivative name
    (Mul (Mul (Integer c) (reciprocal (a * (d + 1))))
         (Pow (linear_in name a b) (Integer (d + 1))))
    (Mul (Integer c) (Pow (linear_in name a b) (Integer d))).
Proof.
  intros Ha%not_0_IZR Hd undefined symbol t _. cbn [eval].
  rewrite eval_linear_in.
  pose proof (IZR_succ_nonzero d Hd) as Hne.
  apply (D_ext (fun t' => IZR c * / IZR (a * (d + 1))
                          * powerRZ ((fun y => y) (IZR a * t' + IZR b)) (d + 1))
               _ t
               (IZR c * / IZR (a * (d + 1))
                * (IZR (d + 1) * powerRZ (IZR a * t + IZR b) d * (1 * IZR a)))).
  - intros t'. cbn [eval]. by rewrite eval_linear_in, eval_reciprocal.
  - rewrite mult_IZR. field. by split.
  - apply D_scal, (D_power_of (fun y => y)); [done|apply derivable_pt_lim_id].
Qed.

(** where [a*x + b] is positive, [(2*c/3) * ((a*x + b) * sqrt(a*x + b))] is
    an antiderivative of [c * (a * sqrt(a*x + b))] *)
Lemma radical_antiderivative name c a b :
  antiderivative_where (fun t => 0 < IZR a * t + IZR b) name
    (Mul (Mul (Integer (2 * c)) (reciprocal 3))
         (Mul (linear_in name a b) (Function "sqrt" (linear_in name a b))))
    (Mul (Integer c)
         (Mul (Integer a) (Function "sqrt" (linear_in name a b)))).
Proof.
  intros undefined symbol t Hpos. cbn [eval]. rewrite eval_linear_in.
  change (defined_function "sqrt") with sqrt.
  set (u := IZR a * t + IZR b) in *.
  assert (Hs : 0 < sqrt u) by by apply sqrt_lt_R0.
  assert (Hu : u = sqrt u * sqrt u) by (symmetry; apply sqrt_sqrt; lra).
  apply (D_ext (fun t' => IZR (2 * c) * / 3
                          * ((IZR a * t' + IZR b) * sqrt (IZR a * t' + IZR b)))
               _ t
               (IZR (2 * c) * / 3
                * (IZR a * sqrt u + u * (/ (2 * sqrt u) * IZR a)))).
  - intros t'. cbn [eval]. by rewrite eval_linear_in, eval_reciprocal.
  - rewrite mult_IZR. rewrite Hu at 2. field. lra.
  - apply D_scal.
    apply (D_mult (fun t' => IZR a * t' + IZR b)
                  (fun t' => sqrt (IZR a * t' + IZR b))); [apply D_affine|].
    apply (D_comp (fun t' => IZR a * t' + IZR b) sqrt); [apply D_affine|].
    by apply derivable_pt_lim_sqrt.
Qed.
End Calculus.

Section Substitution.
Context `{RandomSource} {laws : RandomSourceLaws _}.
Variable self : IntermediateIntegrationDataset.
Hypothesis Hvalid : valid (config self).
Hypothesis Hops : operators (config self) <> [].
Variable name : string.

Lemma get_outer_constant_nonzero :
  ensures (_get_outer_constant self) (fun c => c <> 0) (fun _ => False).
Proof using laws Hvalid Hops.
  eapply ensures_weaken; [by apply get_outer_constant_range|by intros c [Hc _]|done].
Qed.

Lemma signed_coefficient_nonzero :
  ensures (signed_coefficient self) (fun a => a <> 0) (fun _ => False).
Proof using laws Hvalid Hops.
  destruct Hvalid as (_ & _ & Hlow & Hrange & _).
  unfold signed_coefficient.
  eapply ensures_bind; [by apply choice_nonempty|]. intros op _.
  eapply ensures_bind; [by apply randint_total|]. intros value Hv.
  simpl in Hv. apply ensures_ret. destruct (String.eqb op "-"); lia.
Qed.

(** what a call that cannot fail returns *)
Lemma ensures_returns {A} (m : rand A) (Q : A -> Prop) s :
  ensures m Q (fun _ => False) -> exists a s', m s = Ok (a, s') /\ Q a.
Proof.
  intros Hm. specialize (Hm s). destruct (m s) as [[a s']|]; [|done].
  by exists a, s'.
Qed.

Lemma exponential_shape :
  ensures (_generate_exponential_substitution self (Symbol name))
    (fun integrand => exists c u,
       c <> 0
       /\ ((exists a b, u = linear_in name a b)
           \/ (exists a b d, u = quadratic_in name a b d))
       /\ antiderivative name (Mul (Integer c) (Function "exp" u)) integrand)
    (fun _ => False).
Proof using laws Hvalid Hops.
  unfold _generate_exponential_substitution.
  eapply ensures_bind; [apply choice_nonempty; discriminate|].
  intros exponent_type _.
  eapply ensures_bind; [by apply signed_terms_total|]. intros terms Hlen.
  eapply ensures_bind with
    (Q := fun '(u, du_dx) =>
            (exists a b, u = linear_in name a b /\ du_dx = IntOperand a)
            \/ (exists a b d, u = quadratic_in name a b d
                  /\ du_dx = ExprOperand (linear_in name (2 * a) b))).
  { revert Hlen. destruct (String.eqb exponent_type "linear"); intros Hlen.
    - eapply ensures_bind; [apply list_getitem_total; simpl; lia|]. intros a _.
      eapply ensures_bind; [apply list_getitem_total; simpl; lia|]. intros b _.
      apply ensures_ret. left. by exists a, b.
    - eapply ensures_bind; [apply list_getitem_total; simpl; lia|]. intros a _.
      eapply ensures_bind; [apply list_getitem_total; simpl; lia|]. intros b _.
      eapply ensures_bind; [apply list_getitem_total; simpl; lia|]. intros d _.
      apply ensures_ret. right. by exists a, b, d. }
  intros [u du_dx] Hu.
  eapply ensures_bind; [apply get_outer_constant_nonzero|]. intros c Hc.
  apply ensures_ret. exists c, u. split; [done|].
  destruct Hu as [(a & b & -> & ->)|(a & b & d & -> & ->)].
  - split; [left; by exists a, b|]. apply exponential_linear_antiderivative.
  - split; [right; by exists a, b, d|].
    apply exponential_quadratic_antiderivative.
Qed.

Lemma trigonometric_shape :
  ensures (_generate_trigonometric_substitution self (Symbol name))
    (fun integrand => exists c a b p trig,
       c <> 0 /\ a <> 0 /\ 1 <= p <= 4 /\ (trig = "sin" \/ trig = "cos")
       /\ antiderivative name
            (Mul (Mul (Integer c) (reciprocal (p + 1)))
                 (Pow (Function trig (linear_in name a b)) (Integer (p + 1))))
            integrand)
    (fun _ => False).
Proof using laws Hvalid Hops.
  unfold _generate_trigonometric_substitution.
  eapply ensures_bind; [apply choice_nonempty; discriminate|].
  intros trig_func Htrig.
  eapply ensures_bind; [apply signed_coefficient_nonzero|]. intros a Ha.
  eapply ensures_bind; [apply signed_coefficient_nonzero|]. intros b _.
  eapply ensures_bind; [apply randint_total; lia|]. intros p Hp. simpl in Hp.
  eapply ensures_bind; [apply get_outer_constant_nonzero|]. intros c Hc.
  apply ensures_ret. exists c, a, b, p, trig_func.
  split; [done|]. split; [done|]. split; [done|].
  apply elem_of_cons in Htrig as [->|Htrig].
  - split; [by left|]. apply sin_power_antiderivative. lia.
  - apply list_elem_of_singleton in Htrig as ->.
    split; [by right|]. apply cos_power_antiderivative. lia.
Qed.

Lemma linear_shape :
  ensures (_generate_linear_substitution_problem self (Symbol name))
    (fun integrand => exists c a b d,
       c <> 0
       /\ linear_lower_bound (config self) <= a <= linear_upper_bound (config self)
       /\ min_linear_degree (config self) <= d <= max_linear_degree (config self)
       /\ integrand = Mul (Integer c) (Pow (linear_in name a b) (Integer d))
       /\ antiderivative name
            (Mul (Mul (Integer c) (reciprocal (a * (d + 1))))
                 (Pow (linear_in name a b) (Integer (d + 1))))
            integrand)
    (fun _ => False).
Proof using laws Hvalid Hops.
  pose proof Hvalid as (_ & _ & Hlow & Hrange & Hmin & Hdegree & _).
  unfold _generate_linear_substitution_problem.
  eapply ensures_bind; [by apply randint_total|]. intros a Ha. simpl in Ha.
  eapply ensures_bind; [by apply randint_total|]. intros b _.
  eapply ensures_bind; [by apply choice_nonempty|]. intros op _.
  eapply ensures_bind; [by apply randint_total|]. intros d Hd. simpl in Hd.
  eapply ensures_bind; [apply get_outer_constant_nonzero|]. intros c Hc.
  apply ensures_ret.
  exists c, a, (if String.eqb op "+" then b else - b), d.
  split; [done|]. split; [done|]. split; [done|]. split; [done|].
  apply linear_power_antiderivative; lia.
Qed.

Lemma radical_shape :
  ensures (_generate_radical_substitution self (Symbol name))
    (fun integrand => exists c a b,
       c <> 0 /\ a <> 0
       /\ antiderivative_where (fun t => (0 < IZR a * t + IZR b)%R) name
            (Mul (Mul (Integer (2 * c)) (reciprocal 3))
                 (Mul (linear_in name a b)
                      (Function "sqrt" (linear_in name a b))))
            integrand)
    (fun _ => False).
Proof using laws Hvalid Hops.
  unfold _generate_radical_substitution.
  eapply ensures_bind; [apply signed_coefficient_nonzero|]. intros a Ha.
  eapply ensures_bind; [apply signed_coefficient_nonzero|]. intros b _.
  eapply ensures_bind; [apply get_outer_constant_nonzero|]. intros c Hc.
  apply ensures_ret. exists c, a, b. split; [done|]. split; [done|].
  apply radical_antiderivative.
Qed.
End Substitution.

Section Shapes.
Context `{RandomSource} {laws : RandomSourceLaws _}.
Variable self : IntermediateIntegrationDataset.
Hypothesis Hvalid : valid (config self).
Hypothesis Hops : operators (config self) <> [].
Variable name : string.

Lemma ensures_both {A} (m : rand A) (Q Q' : A -> Prop) (E E' : exn -> Prop) :
  ensures m Q E -> ensures m Q' E' ->
  ensures m (fun a => Q a /\ Q' a) (fun e => E e /\ E' e).
Proof.
  intros Hm Hm' s. specialize (Hm s). specialize (Hm' s).
  by destruct (m s) as [[a s']|e].
Qed.

Lemma polynomial_exp_trig_shape :
  ensures (_generate_polynomial_exp_trig self (Symbol name))
    (fun integrand => exists c d t,
       integrand = Mul (Integer c) (Mul (Pow (Symbol name) (Integer d)) t)
       /\ min_poly_degree (config self) <= d <= max_poly_degree (config self)
       /\ (t = Function "exp" (Symbol name)
           \/ exists f k,
                (f = "sin" \/ f = "cos") /\ 1 <= k <= 3
                /\ t = UndefinedFunction f (Mul (Integer k) (Symbol name))))
    (fun _ => False).
Proof using laws Hvalid Hops.
  pose proof Hvalid as (_ & _ & _ & _ & _ & _ & _ & _ & _ & ? & _).
  unfold _generate_polynomial_exp_trig.
  eapply ensures_bind; [by apply randint_total|]. intros d Hd. simpl in Hd.
  eapply ensures_bind; [apply choice_nonempty; discriminate|].
  intros func_type Hin.
  eapply ensures_bind with
    (Q := fun t => t = Function "exp" (Symbol name)
                   \/ exists f k,
                        (f = "sin" \/ f = "cos") /\ 1 <= k <= 3
                        /\ t = UndefinedFunction f (Mul (Integer k) (Symbol name))).
  { repeat (apply elem_of_cons in Hin as [->|Hin]);
      [| | |by apply elem_of_nil in Hin]; simpl.
    - apply ensures_ret. by left.
    - eapply ensures_bind; [apply randint_total; lia|]. intros k Hk.
      apply ensures_ret. right. exists "sin", k. auto.
    - eapply ensures_bind; [apply randint_total; lia|]. intros k Hk.
      apply ensures_ret. right. exists "cos", k. auto. }
  intros t Ht.
  eapply ensures_bind; [by apply get_outer_constant_total|]. intros c _.
  apply ensures_ret. by exists c, d, t.
Qed.

Lemma log_inverse_trig_shape :
  ensures (_generate_log_inverse_trig self (Symbol name))
    (fun integrand => exists c f,
       integrand = Mul (Integer c) f
       /\ (f = Function "log" (Symbol name)
           \/ (exists e, 2 <= e <= 3
                 /\ f = Function "log" (Pow (Symbol name) (Integer e)))
           \/ (exists g k,
                 (g = "asin" \/ g = "atan") /\ 1 <= k <= 3
                 /\ f = Function g (Mul (Integer k) (Symbol name)))))
    (fun _ => False).
Proof using laws Hvalid Hops.
  unfold _generate_log_inverse_trig.
  eapply ensures_bind; [apply choice_nonempty; discriminate|].
  intros func_type Hin.
  eapply ensures_bind; [apply randint_total; lia|]. intros k Hk. simpl in Hk.
  eapply ensures_bind with
    (Q := fun func => exists f, func = Some f
       /\ (f = Function "log" (Symbol name)
           \/ (exists e, 2 <= e <= 3
                 /\ f = Function "log" (Pow (Symbol name) (Integer e)))
           \/ (exists g k,
                 (g = "asin" \/ g = "atan") /\ 1 <= k <= 3
                 /\ f = Function g (Mul (Integer k) (Symbol name))))).
  { repeat (apply elem_of_cons in Hin as [->|Hin]);
      [| | |by apply elem_of_nil in Hin]; simpl.
    - eapply ensures_bind; [by apply (ensures_draw _ (fun _ => True))|].
      intros u _.
      eapply ensures_bind with
        (Q := fun arg => arg = Symbol name
                \/ exists e, 2 <= e <= 3 /\ arg = Pow (Symbol name) (Integer e)).
      { destruct (float_lt _ _).
        - apply ensures_ret. by left.
        - eapply ensures_bind; [apply randint_total; lia|]. intros e He.
          apply ensures_ret. right. by exists e. }
      intros arg Harg. apply ensures_ret. eexists. split; [done|].
      destruct Harg as [->|(e & He & ->)]; [by left|]. right. left. by exists e.
    - apply ensures_ret. eexists. split; [done|].
      right. right. exists "asin", k. auto.
    - apply ensures_ret. eexists. split; [done|].
      right. right. exists "atan", k. auto. }
  intros func (f & -> & Hf).
  eapply ensures_bind; [by apply get_outer_constant_total|]. intros c _.
  eapply ensures_bind; [by apply (ensures_lift _ (fun f' => f' = f))|].
  intros ? ->. apply ensures_ret. by exists c, f.
Qed.

(** the sign of the outer constant is the operator drawn *)
Lemma get_outer_constant_sign :
  ensures (_get_outer_constant self)
    (fun c =>
       ("-" ∉ operators (config self) ->
        outer_constant_min (config self) <= c <= outer_constant_max (config self))
       /\ ((forall op, op ∈ operators (config self) -> op = "-") ->
           - outer_constant_max (config self) <= c
           <= - outer_constant_min (config self)))
    (fun _ => False).
Proof using laws Hvalid Hops.
  pose proof Hvalid as (_ & _ & _ & _ & _ & _ & _ & Hrange & _).
  unfold _get_outer_constant.
  eapply ensures_bind; [by apply randint_total|]. intros value Hv. simpl in Hv.
  eapply ensures_bind; [by apply choice_nonempty|]. intros op Hop.
  apply ensures_ret. destruct (String.eqb_spec op "-") as [->|Hne].
  - split; [done|]. intros _. lia.
  - split; [intros _; lia|]. intros Hall. by apply Hall in Hop.
Qed.
End Shapes.

Section OnlySymbol.
Context `{RandomSource}.
Variable self : IntermediateIntegrationDataset.
Variable name : string.

Lemma ensures_trivial {A} (m : rand A) : ensures m (fun _ => True) (fun _ => True).
Proof. intros s. by destruct (m s) as [[a s']|e]. Qed.

Lemma choice_member {A} (seq : list A) :
  ensures (choice seq) (fun a => a ∈ seq) (fun _ => True).
Proof. eapply ensures_weaken; [apply choice_outcome|intros a Ha; exact Ha|done]. Qed.

Ltac any_bind := eapply ensures_bind; [apply ensures_trivial|]; intros ? _.

Ltac member_cases Hin :=
  repeat (apply elem_of_cons in Hin as [->|Hin]); [..|by apply elem_of_nil in Hin].

Lemma linear_only_symbol :
  ensures (_generate_linear_substitution_problem self (Symbol name))
          (only_symbol name) (fun _ => True).
Proof.
  unfold _generate_linear_substitution_problem. do 5 any_bind.
  by apply ensures_ret.
Qed.

Lemma exponential_only_symbol :
  ensures (_generate_exponential_substitution self (Symbol name))
          (only_symbol name) (fun _ => True).
Proof.
  unfold _generate_exponential_substitution. do 2 any_bind.
  eapply ensures_bind with
    (Q := fun '(u, du_dx) => only_symbol name u /\ only_symbol name (sympify du_dx)).
  { destruct (String.eqb _ "linear").
    - do 2 any_bind. by apply ensures_ret.
    - do 3 any_bind. by apply ensures_ret. }
  intros [u du_dx] [Hu Hdu]. any_bind. apply ensures_ret.
  by destruct du_dx.
Qed.

Lemma radical_only_symbol :
  ensures (_generate_radical_substitution self (Symbol name))
          (only_symbol name) (fun _ => True).
Proof.
  unfold _generate_radical_substitution. do 3 any_bind. by apply ensures_ret.
Qed.

Lemma trigonometric_only_symbol :
  ensures (_generate_trigonometric_substitution self (Symbol name))
          (only_symbol name) (fun _ => True).
Proof.
  unfold _generate_trigonometric_substitution. do 5 any_bind.
  apply ensures_ret. by destruct (String.eqb _ "sin").
Qed.

Lemma polynomial_exp_trig_only_symbol :
  ensures (_generate_polynomial_exp_trig self (Symbol name))
          (only_symbol name) (fun _ => True).
Proof.
  unfold _generate_polynomial_exp_trig. do 2 any_bind.
  eapply ensures_bind with (Q := only_symbol name).
  { destruct (String.eqb _ "exp"); [by apply ensures_ret|].
    any_bind. by apply ensures_ret. }
  intros t Ht. any_bind. by apply ensures_ret.
Qed.

Lemma log_inverse_trig_only_symbol :
  ensures (_generate_log_inverse_trig self (Symbol name))
          (only_symbol name) (fun _ => True).
Proof.
  unfold _generate_log_inverse_trig. do 2 any_bind.
  eapply ensures_bind with
    (Q := fun func => forall f, func = Some f -> only_symbol name f).
  { destruct (String.eqb _ "log").
    - any_bind.
      eapply ensures_bind with (Q := only_symbol name).
      { destruct (float_lt _ _); [by apply ensures_ret|].
        any_bind. by apply ensures_ret. }
      intros arg Harg. apply ensures_ret. by intros f [= <-].
    - destruct (String.eqb _ "asin");
        [apply ensures_ret; by intros f [= <-]|].
      destruct (String.eqb _ "atan"); apply ensures_ret; by intros f [= <-]. }
  intros func Hfunc. any_bind.
  destruct func as [f|]; [|by intros s].
  eapply ensures_bind; [by apply (ensures_lift _ (fun f' => f' = f))|].
  intros ? ->. apply ensures_ret. split; [done|]. by apply Hfunc.
Qed.

Lemma cyclic_only_symbol :
  ensures (_generate_cyclic_integral self (Symbol name))
          (only_symbol name) (fun _ => True).
Proof.
  unfold _generate_cyclic_integral.
  eapply ensures_bind; [apply choice_member|]. intros func_pair Hin. any_bind.
  apply ensures_ret. by member_cases Hin.
Qed.

Lemma repeated_parts_only_symbol :
  ensures (_generate_repeated_parts self (Symbol name))
          (only_symbol name) (fun _ => True).
Proof.
  unfold _generate_repeated_parts. any_bind.
  eapply ensures_bind; [apply choice_member|]. intros t Hin. any_bind.
  apply ensures_ret. by member_cases Hin.
Qed.

Lemma assigned_only_symbol (m : rand Expr) :
  ensures m (only_symbol name) (fun _ => True) ->
  ensures (assigned m)
          (fun integrand => forall i, integrand = Some i -> only_symbol name i)
          (fun _ => True).
Proof.
  intros Hm. unfold assigned. eapply ensures_bind; [exact Hm|].
  intros i Hi. apply ensures_ret. by intros ? [= <-].
Qed.

Lemma dispatch_only_symbol problem_type :
  ensures (dispatch self problem_type (Symbol name))
          (fun integrand => forall i, integrand = Some i -> only_symbol name i)
          (fun _ => True).
Proof.
  unfold dispatch.
  repeat (destruct (String.eqb problem_type _);
          [apply assigned_only_symbol;
           auto using linear_only_symbol, exponential_only_symbol,
             radical_only_symbol, trigonometric_only_symbol,
             polynomial_exp_trig_only_symbol, log_inverse_trig_only_symbol,
             cyclic_only_symbol, repeated_parts_only_symbol|]).
  by apply ensures_ret.
Qed.
End OnlySymbol.

Section Weights.
Context `{RandomSource} `{SymPy}.

Lemma choices_total_checks {A} (population : list A) weights k s :
  length population = length weights ->
  weights <> [] ->
  choices population weights k s
  = (if float_le (total_weight weights) float_0 then
       Raise (ValueError "Total of weights must be greater than zero")
     else if negb (isfinite (total_weight weights)) then
       Raise (ValueError "Total of weights must be finite")
     else
       choices_draws population (accumulate weights) (total_weight weights)
         (Z.of_nat (length population) - 1) k s).
Proof.
  intros Hlen Hw. unfold choices.
  destruct (accumulate_total weights Hw) as (last & Hlast & Hsum).
  rewrite accumulate_length, <- Hlen, Nat.eqb_refl.
  change (negb true) with false. cbv iota zeta.
  unfold mbind, rand_bind, lift at 1. rewrite Hlast, Hsum.
  destruct (float_le _ _); [done|]. by destruct (negb _).
Qed.

Lemma choices_no_weights {A} k s :
  choices (@nil A) [] k s = Raise (IndexError "list index out of range").
Proof. reflexivity. Qed.

Lemma getitem_choices_Raise self index e :
  choices (problem_types (config self)) (problem_type_weights (config self)) 1
    (Random (self_seed self + index)) = Raise e ->
  getitem self index = Raise e.
Proof.
  intros Hc. unfold getitem, generate_item.
  unfold mbind at 2, rand_bind. by rewrite Hc.
Qed.

(** X17. [validate()] compares the number of weights with the number of
    problem types and nothing else about them.  With weights whose float
    total, summed left to right, is zero or less, [__getitem__] raises
    ValueError at every index; so it does when that total is not finite;
    with no problem type and no weight it raises IndexError. *)
Theorem getitem_weights_unchecked (self : IntermediateIntegrationDataset)
    (index : Z) :
  validate (config self) = Ok tt ->
  (problem_type_weights (config self) <> [] ->
   float_le (total_weight (problem_type_weights (config self))) float_0 = true ->
   getitem self index
   = Raise (ValueError "Total of weights must be greater than zero"))
  /\ (problem_type_weights (config self) <> [] ->
      float_le (total_weight (problem_type_weights (config self))) float_0 = false ->
      isfinite (total_weight (problem_type_weights (config self))) = false ->
      getitem self index = Raise (ValueError "Total of weights must be finite"))
  /\ (problem_type_weights (config self) = [] ->
      getitem self index = Raise (IndexError "list index out of range")).
Proof.
  intros (Hlen & _)%validate_Ok. repeat split.
  - intros Hw Htotal. apply getitem_choices_Raise.
    by rewrite choices_total_checks, Htotal.
  - intros Hw Htotal Hfinite. apply getitem_choices_Raise.
    by rewrite choices_total_checks, Htotal, Hfinite.
  - intros Hw. apply getitem_choices_Raise. rewrite Hw in *.
    apply nil_length_inv in Hlen as ->. apply choices_no_weights.
Qed.
End Weights.

(** X17 on three configurations that pass [validate()]: the weights
    [2.0**53, 1.0, -2.0**53, 0.0, ...], whose sum the floats round to [0.0];
    eight weights [2.0**1023], whose sum overflows; no problem type and no
    weight. *)
Lemma getitem_weights_unchecked_example :
  (validate (config dataset_cancelling_weights) = Ok tt
   /\ @getitem Lcg.source Scripted.engine dataset_cancelling_weights 0
      = Raise (ValueError "Total of weights must be greater than zero"))
  /\ (validate (config dataset_overflowing_weights) = Ok tt
      /\ @getitem Lcg.source Scripted.engine dataset_overflowing_weights 0
         = Raise (ValueError "Total of weights must be finite"))
  /\ (validate (config dataset_no_types) = Ok tt
      /\ @getitem Lcg.source Scripted.engine dataset_no_types 0
         = Raise (IndexError "list index out of range")).
Proof.
  split; [|split]; (split; [reflexivity|]).
  - apply (proj1 (@getitem_weights_unchecked Lcg.source Scripted.engine
                    dataset_cancelling_weights 0 eq_refl));
      [discriminate|reflexivity].
  - apply (proj1 (proj2 (@getitem_weights_unchecked Lcg.source Scripted.engine
                           dataset_overflowing_weights 0 eq_refl)));
      [discriminate|reflexivity..].
  - by apply (proj2 (proj2 (@getitem_weights_unchecked Lcg.source Scripted.engine
                              dataset_no_types 0 eq_refl))).
Defined.

Section Returned.
Context `{RandomSource} {laws : RandomSourceLaws _}.
Variable self : IntermediateIntegrationDataset.
Variable name : string.
Variable s : rng_state.

(** X11. The exponential substitution integrand is an exact derivative: for
    a configuration that passes [validate()] and has an operator to choose
    from, [_generate_exponential_substitution] returns an integrand of which
    [c * exp(u)] is an antiderivative, with [c] the nonzero outer constant
    and [u] the linear or quadratic exponent it built. *)
Theorem exponential_substitution_antiderivative :
  validate (config self) = Ok tt ->
  operators (config self) <> [] ->
  exists integrand s' c u,
    _generate_exponential_substitution self (Symbol name) s = Ok (integrand, s')
    /\ c <> 0
    /\ ((exists a b, u = linear_in name a b)
        \/ (exists a b d, u = quadratic_in name a b d))
    /\ antiderivative name (Mul (Integer c) (Function "exp" u)) integrand.
Proof using laws.
  intros Hvalid%validate_Ok Hops.
  destruct (ensures_returns _ _ s (exponential_shape self Hvalid Hops name))
    as (integrand & s' & Hg & c & u & Hc & Hu & HF).
  by exists integrand, s', c, u.
Qed.

(** X12. The trigonometric substitution integrand is an exact derivative:
    [_generate_trigonometric_substitution] returns an integrand of which
    [c/(p+1) * sin(a*x + b)**(p+1)], or the same with [cos], is an
    antiderivative, with [1 <= p <= 4] and [a], [c] nonzero. *)
Theorem trigonometric_substitution_antiderivative :
  validate (config self) = Ok tt ->
  operators (config self) <> [] ->
  exists integrand s' c a b p trig,
    _generate_trigonometric_substitution self (Symbol name) s
    = Ok (integrand, s')
    /\ c <> 0 /\ a <> 0 /\ 1 <= p <= 4 /\ (trig = "sin" \/ trig = "cos")
    /\ antiderivative name
         (Mul (Mul (Integer c) (reciprocal (p + 1)))
              (Pow (Function trig (linear_in name a b)) (Integer (p + 1))))
         integrand.
Proof using laws.
  intros Hvalid%validate_Ok Hops.
  destruct (ensures_returns _ _ s (trigonometric_shape self Hvalid Hops name))
    as (integrand & s' & Hg & c & a & b & p & trig & HF).
  by exists integrand, s', c, a, b, p, trig.
Qed.

(** X13. [_generate_linear_substitution_problem] returns
    [c * (a*x + b)**d] with [a] and [d] within the configured bounds and [c]
    nonzero, and [c/(a*(d+1)) * (a*x + b)**(d+1)] is an antiderivative of
    it. *)
Theorem linear_substitution_antiderivative :
  validate (config self) = Ok tt ->
  operators (config self) <> [] ->
  exists s' c a b d,
    _generate_linear_substitution_problem self (Symbol name) s
    = Ok (Mul (Integer c) (Pow (linear_in name a b) (Integer d)), s')
    /\ c <> 0
    /\ linear_lower_bound (config self) <= a <= linear_upper_bound (config self)
    /\ min_linear_degree (config self) <= d <= max_linear_degree (config self)
    /\ antiderivative name
         (Mul (Mul (Integer c) (reciprocal (a * (d + 1))))
              (Pow (linear_in name a b) (Integer (d + 1))))
         (Mul (Integer c) (Pow (linear_in name a b) (Integer d))).
Proof using laws.
  intros Hvalid%validate_Ok Hops.
  destruct (ensures_returns _ _ s (linear_shape self Hvalid Hops name))
    as (integrand & s' & Hg & c & a & b & d & Hc & Ha & Hd & -> & HF).
  by exists s', c, a, b, d.
Qed.

(** X14. The radical substitution integrand is an exact derivative where
    the radicand is positive: there [2*c/3 * (a*x + b) * sqrt(a*x + b)] is an
    antiderivative of what [_generate_radical_substitution] returns, with
    [a] and [c] nonzero. *)
Theorem radical_substitution_antiderivative :
  validate (config self) = Ok tt ->
  operators (config self) <> [] ->
  exists integrand s' c a b,
    _generate_radical_substitution self (Symbol name) s = Ok (integrand, s')
    /\ c <> 0 /\ a <> 0
    /\ antiderivative_where (fun t => (0 < IZR a * t + IZR b)%R) name
         (Mul (Mul (Integer (2 * c)) (reciprocal 3))
              (Mul (linear_in name a b) (Function "sqrt" (linear_in name a b))))
         integrand.
Proof using laws.
  intros Hvalid%validate_Ok Hops.
  destruct (ensures_returns _ _ s (radical_shape self Hvalid Hops name))
    as (integrand & s' & Hg & c & a & b & HF).
  by exists integrand, s', c, a, b.
Qed.

(** X15. The sign of the outer constant is the operator drawn: without
    ["-"] among the operators [_get_outer_constant] returns a value of
    [[outer_constant_min, outer_constant_max]], with only ["-"] a value of
    [[-outer_constant_max, -outer_constant_min]]. *)
Theorem outer_constant_sign :
  validate (config self) = Ok tt ->
  operators (config self) <> [] ->
  exists c s',
    _get_outer_constant self s = Ok (c, s')
    /\ ("-" ∉ operators (config self) ->
        outer_constant_min (config self) <= c <= outer_constant_max (config self))
    /\ ((forall op, op ∈ operators (config self) -> op = "-") ->
        - outer_constant_max (config self) <= c
        <= - outer_constant_min (config self)).
Proof using laws.
  intros Hvalid%validate_Ok Hops.
  destruct (ensures_returns _ _ s (get_outer_constant_sign self Hvalid Hops))
    as (c & s' & Hg & Hplus & Hminus).
  by exists c, s'.
Qed.

(** X16. Whatever problem type is dispatched, the integrand is built from
    the symbol passed in and from no other: for each of the eight problem
    types the branch taken returns an integrand, and no symbol but [name]
    occurs in it. *)
Theorem dispatch_mentions_only_symbol (problem_type : string) :
  validate (config self) = Ok tt ->
  operators (config self) <> [] ->
  3 <= max_poly_degree (config self) ->
  problem_type ∈ default_problem_types ->
  exists integrand s',
    dispatch self problem_type (Symbol name) s = Ok (Some integrand, s')
    /\ only_symbol name integrand.
Proof using laws.
  intros Hvalid%validate_Ok Hops Hmax Hin.
  pose proof (ensures_both _ _ _ _ _
                (dispatch_total self Hvalid Hops problem_type (Symbol name) Hmax Hin)
                (dispatch_only_symbol self name problem_type) s) as Hd.
  destruct (dispatch self problem_type (Symbol name) s) as [[integrand s']|e];
    [|by destruct Hd].
  destruct Hd as [[i ->] Hi]. exists i, s'. split; [done|]. by apply Hi.
Qed.

(** X18. [_generate_polynomial_exp_trig] returns [c * (x**d * t)] with [d]
    between [min_poly_degree] and [max_poly_degree] and [t] either [exp(x)]
    or the application of [sympy.Function("sin")] or [sympy.Function("cos")],
    an undefined function of that name, to [k*x] with [1 <= k <= 3]. *)
Theorem polynomial_exp_trig_returns :
  validate (config self) = Ok tt ->
  operators (config self) <> [] ->
  exists s' c d t,
    _generate_polynomial_exp_trig self (Symbol name) s
    = Ok (Mul (Integer c) (Mul (Pow (Symbol name) (Integer d)) t), s')
    /\ min_poly_degree (config self) <= d <= max_poly_degree (config self)
    /\ (t = Function "exp" (Symbol name)
        \/ exists f k,
             (f = "sin" \/ f = "cos") /\ 1 <= k <= 3
             /\ t = UndefinedFunction f (Mul (Integer k) (Symbol name))).
Proof using laws.
  intros Hvalid%validate_Ok Hops.
  destruct (ensures_returns _ _ s (polynomial_exp_trig_shape self Hvalid Hops name))
    as (integrand & s' & Hg & c & d & t & -> & Hd & Ht).
  by exists s', c, d, t.
Qed.

(** X19. [_generate_log_inverse_trig] always binds [func]: it returns
    [c * f] with [f] one of [log(x)], [log(x**2)], [log(x**3)], [asin(k*x)]
    and [atan(k*x)], [1 <= k <= 3]. *)
Theorem log_inverse_trig_returns :
  validate (config self) = Ok tt ->
  operators (config self) <> [] ->
  exists s' c f,
    _generate_log_inverse_trig self (Symbol name) s
    = Ok (Mul (Integer c) f, s')
    /\ (f = Function "log" (Symbol name)
        \/ (exists e, 2 <= e <= 3
              /\ f = Function "log" (Pow (Symbol name) (Integer e)))
        \/ (exists g k,
              (g = "asin" \/ g = "atan") /\ 1 <= k <= 3
              /\ f = Function g (Mul (Integer k) (Symbol name)))).
Proof using laws.
  intros Hvalid%validate_Ok Hops.
  destruct (ensures_returns _ _ s (log_inverse_trig_shape self Hvalid Hops name))
    as (integrand & s' & Hg & c & f & -> & Hf).
  by exists s', c, f.
Qed.
End Returned.

(** X11 on the example dataset. *)
Lemma exponential_substitution_antiderivative_example :
  exists integrand s' c u,
    @_generate_exponential_substitution Lcg.source Sample.dataset (Symbol "x")
      (@Random Lcg.source 46)
    = Ok (integrand, s')
    /\ antiderivative "x" (Mul (Integer c) (Function "exp" u)) integrand.
Proof.
  assert (Hops : operators (config Sample.dataset) <> []) by discriminate.
  destruct (@exponential_substitution_antiderivative Lcg.source lcg_laws
              Sample.dataset "x" (@Random Lcg.source 46) eq_refl Hops)
    as (integrand & s' & c & u & Hg & _ & _ & HF).
  by exists integrand, s', c, u.
Defined.

(** X12 on the example dataset. *)
Lemma trigonometric_substitution_antiderivative_example :
  exists integrand s' c a b p trig,
    @_generate_trigonometric_substitution Lcg.source Sample.dataset (Symbol "x")
      (@Random Lcg.source 46)
    = Ok (integrand, s')
    /\ antiderivative "x"
         (Mul (Mul (Integer c) (reciprocal (p + 1)))
              (Pow (Function trig (linear_in "x" a b)) (Integer (p + 1))))
         integrand.
Proof.
  assert (Hops : operators (config Sample.dataset) <> []) by discriminate.
  destruct (@trigonometric_substitution_antiderivative Lcg.source lcg_laws
              Sample.dataset "x" (@Random Lcg.source 46) eq_refl Hops)
    as (integrand & s' & c & a & b & p & trig & Hg & _ & _ & _ & _ & HF).
  by exists integrand, s', c, a, b, p, trig.
Defined.

(** X13 on the example dataset. *)
Lemma linear_substitution_antiderivative_example :
  exists s' c a b d,
    @_generate_linear_substitution_problem Lcg.source Sample.dataset (Symbol "x")
      (@Random Lcg.source 46)
    = Ok (Mul (Integer c) (Pow (linear_in "x" a b) (Integer d)), s')
    /\ 1 <= a <= 10 /\ 2 <= d <= 4.
Proof.
  assert (Hops : operators (config Sample.dataset) <> []) by discriminate.
  destruct (@linear_substitution_antiderivative Lcg.source lcg_laws
              Sample.dataset "x" (@Random Lcg.source 46) eq_refl Hops)
    as (s' & c & a & b & d & Hg & _ & Ha & Hd & _).
  exists s', c, a, b, d. split; [exact Hg|]. exact (conj Ha Hd).
Defined.

(** X14 on the example dataset. *)
Lemma radical_substitution_antiderivative_example :
  exists integrand s' c a b,
    @_generate_radical_substitution Lcg.source Sample.dataset (Symbol "x")
      (@Random Lcg.source 46)
    = Ok (integrand, s')
    /\ a <> 0
    /\ antiderivative_where (fun t => (0 < IZR a * t + IZR b)%R) "x"
         (Mul (Mul (Integer (2 * c)) (reciprocal 3))
              (Mul (linear_in "x" a b) (Function "sqrt" (linear_in "x" a b))))
         integrand.
Proof.
  assert (Hops : operators (config Sample.dataset) <> []) by discriminate.
  destruct (@radical_substitution_antiderivative Lcg.source lcg_laws
              Sample.dataset "x" (@Random Lcg.source 46) eq_refl Hops)
    as (integrand & s' & c & a & b & Hg & _ & Ha & HF).
  by exists integrand, s', c, a, b.
Defined.

(** X15 on the example dataset with ["+"] as its only operator. *)
Lemma outer_constant_sign_example :
  exists c s',
    @_get_outer_constant Lcg.source dataset_plus (@Random Lcg.source 46)
    = Ok (c, s')
    /\ 1 <= c <= 3.
Proof.
  assert (Hops : operators (config dataset_plus) <> []) by discriminate.
  destruct (@outer_constant_sign Lcg.source lcg_laws dataset_plus
              (@Random Lcg.source 46) eq_refl Hops)
    as (c & s' & Hg & Hplus & _).
  exists c, s'. split; [done|]. apply Hplus.
  intros Hin. apply list_elem_of_singleton in Hin. discriminate.
Defined.

(** X16 on the example dataset and the cyclic problem type. *)
Lemma dispatch_mentions_only_symbol_example :
  exists integrand s',
    @dispatch Lcg.source Sample.dataset "cyclic" (Symbol "x")
      (@Random Lcg.source 46)
    = Ok (Some integrand, s')
    /\ only_symbol "x" integrand.
Proof.
  assert (Hops : operators (config Sample.dataset) <> []) by discriminate.
  assert (Hmax : 3 <= max_poly_degree (config Sample.dataset)) by (simpl; lia).
  assert (Hin : "cyclic" ∈ default_problem_types).
  { unfold default_problem_types. do 6 apply list_elem_of_further.
    apply list_elem_of_here. }
  exact (@dispatch_mentions_only_symbol Lcg.source lcg_laws Sample.dataset "x"
           (@Random Lcg.source 46) "cyclic" eq_refl Hops Hmax Hin).
Defined.

(** X18 on the example dataset. *)
Lemma polynomial_exp_trig_returns_example :
  exists s' c d t,
    @_generate_polynomial_exp_trig Lcg.source Sample.dataset (Symbol "x")
      (@Random Lcg.source 46)
    = Ok (Mul (Integer c) (Mul (Pow (Symbol "x") (Integer d)) t), s')
    /\ 1 <= d <= 3.
Proof.
  assert (Hops : operators (config Sample.dataset) <> []) by discriminate.
  destruct (@polynomial_exp_trig_returns Lcg.source lcg_laws Sample.dataset "x"
              (@Random Lcg.source 46) eq_refl Hops)
    as (s' & c & d & t & Hg & Hd & _).
  exists s', c, d, t. split; [exact Hg|]. exact Hd.
Defined.

(** X19 on the example dataset. *)
Lemma log_inverse_trig_returns_example :
  exists s' c f,
    @_generate_log_inverse_trig Lcg.source Sample.dataset (Symbol "x")
      (@Random Lcg.source 46)
    = Ok (Mul (Integer c) f, s').
Proof.
  assert (Hops : operators (config Sample.dataset) <> []) by discriminate.
  destruct (@log_inverse_trig_returns Lcg.source lcg_laws Sample.dataset "x"
              (@Random Lcg.source 46) eq_refl Hops)
    as (s' & c & f & Hg & _).
  by exists s', c, f.
Defined.

(** ** The answers that score 1.0 *)

Section AcceptedAnswers.
Context `{SymPy}.

(** X20. [score_answer] returns 1.0 for exactly the answers that are
    strings and pass the derivative check of the entry: the answer parses
    with the entry's variable and [C] as symbols, its derivative is taken,
    the stored integrand parses, and their difference simplifies to [0].
    The text of the answer matters in no other way. *)
Theorem score_answer_accepts_exactly (answer entry : object) :
  score_answer answer entry = Ok 1%Q
  <-> exists a, answer = PyStr a /\ derivative_equivalent a entry.
Proof.
  split.
  - intros Hs.
    destruct answer as [| | |a| | |];
      try (unfold score_answer in Hs;
           destruct (subscript entry "metadata"); simpl in Hs; discriminate Hs).
    exists a. split; [done|]. by apply score_answer_1_iff.
  - intros (a & -> & Ha). by apply score_answer_1_iff.
Qed.
End AcceptedAnswers.
